(** * A shallow embedding of the surgery-roster scheduler

    The development follows the layout of the Python package
    [schedule_surgery]: the workplace registry ([workplaces.py]), the worker
    record ([worker.py]) and the model construction, objective and result
    table of [construct_and_optimize] ([optimize.py]).

    The CP-SAT model object is embedded as data: the Boolean and integer
    variables the code creates, and the constraints it adds, in the order of
    the source.  A solved schedule is a valuation of the variables that
    satisfies every constraint of the model. *)

From Stdlib Require Import ZArith Lia.
From stdpp Require Import base numbers option list strings gmap pretty.

Local Open Scope string_scope.
Local Open Scope list_scope.
Local Open Scope Z_scope.

(** ** workplaces.py *)

Module wps.

Definition STANDARD_WORKPLACES : list string :=
  [ "KRG 1"; "KRG 2"; "KRG 3"; "KRG 4"; "KRG 5";
    "KRG N - B"; "KRG N - MOP"; "KRG N - ABD" ].

Definition UNCONNECTED_WORKPLACES : list string :=
  [ "ABDOMEN"; "ABD prip."; "TRAVMA" ].

Definition ALL_WORKPLACES : list string :=
  STANDARD_WORKPLACES ++ UNCONNECTED_WORKPLACES.

(** Python's [range(a, b)]. *)
Definition range (a b : nat) : list nat := seq a (b - a).

Definition range_day_workplaces : list nat := range 0 5.
Definition range_night_workplaces : list nat := range 5 8.
Definition range_connected_workplaces : list nat := range 0 8.
Definition range_unconnected_workplaces : list nat := range 8 11.

(** [list.index]: position of the first occurrence, [None] where Python
    raises [ValueError]. *)
Fixpoint index (l : list string) (x : string) : option nat :=
  match l with
  | [] => None
  | y :: l' => if bool_decide (y = x) then Some 0%nat else S <$> index l' x
  end.

Definition get_ndx (name : string) : option nat := index ALL_WORKPLACES name.

(** The module-level index constants; every name is in [ALL_WORKPLACES], so
    the lookups are evaluated once and for all. *)
Definition ndx (name : string) : nat := default 0%nat (get_ndx name).

Definition b_day_ndx : nat := Eval cbv in ndx "KRG 1".
Definition abd_day_ndx : nat := Eval cbv in ndx "KRG 2".
Definition mop_day_ndx : nat := Eval cbv in ndx "KRG 3".

Definition b_night_ndx : nat := Eval cbv in ndx "KRG N - B".
Definition mop_night_ndx : nat := Eval cbv in ndx "KRG N - MOP".
Definition abd_night_ndx : nat := Eval cbv in ndx "KRG N - ABD".

Definition abdomen_ndx : nat := Eval cbv in ndx "ABDOMEN".
Definition abd_prip_ndx : nat := Eval cbv in ndx "ABD prip.".
Definition travma_ndx : nat := Eval cbv in ndx "TRAVMA".

End wps.

(** ** days.py *)

(** Modelled from the spec: the module [days.py] with the [Day] class is not
    among the sources.  A day is a calendar date, printed by [str(day)], with
    the three flags the model construction reads; two days are equal when
    their dates are. *)
Record Day := {
  date : string;
  is_workday : bool;
  is_weekend : bool;
  is_holiday : bool
}.

(** [day_list.index(day)]. *)
Definition day_index (day_list : list Day) (day : Day) : option nat :=
  wps.index (date <$> day_list) (date day).

(** ** worker.py *)

(** The dictionary with the keys YES, MAYBE and NO built by
    [parse_workplaces]; the values are lists of workplace indices. *)
Record wp_dict := {
  YES : list nat;
  MAYBE : list nat;
  NO : list nat
}.

(** One entry of [workdates].  [parse_work_dates] builds every entry as a
    two-element list; the tuple form is kept apart because Python's [==]
    never identifies a list with a tuple. *)
Inductive workdate :=
| WList (avail_day avail_night : Z)
| WTuple (avail_day avail_night : Z).

(** [avail_day, avail_night = worker.workdates[dd]] *)
Definition unpack (e : workdate) : Z * Z :=
  match e with
  | WList d n => (d, n)
  | WTuple d n => (d, n)
  end.

(** [worker.workdates[dd] == (a, b)] *)
Definition eq_tuple (e : workdate) (a b : Z) : bool :=
  match e with
  | WList _ _ => false
  | WTuple d n => bool_decide (d = a) && bool_decide (n = b)
  end.

Record Worker := {
  name : string;
  included : string;
  specialty_wishes : string;
  specialty_master : string;
  status : string;
  workplaces : wp_dict;
  workdates : list workdate;
  reduce_shifts : Z;
  works_abd_dez : Z;
  works_abd_prip : Z;
  works_travma_prip : Z;
  (* the three limits are integers or nan; nan is [None] *)
  max_num_dayshifts : option Z;
  num_dayshifts_omejeno : option Z;
  num_nightshifts_omejeno : option Z
}.

(** [Worker._resolve_workplaces] *)
Definition _resolve_workplaces
    (works_abd_dez works_abd_prip works_travma_prip : Z)
    (workplaces : wp_dict) : wp_dict :=
  let no0 := NO workplaces in
  let no1 := if bool_decide (works_abd_dez = 0)
             then no0 ++ [wps.abdomen_ndx] else no0 in
  let no2 := if bool_decide (works_abd_prip = 0)
             then no1 ++ [wps.abd_prip_ndx] else no1 in
  let no3 := if bool_decide (works_travma_prip = 0)
             then no2 ++ [wps.travma_ndx] else no2 in
  {| YES := YES workplaces; MAYBE := MAYBE workplaces; NO := no3 |}.

(** [Worker.__init__] *)
Definition mk_worker (name included : string) (specialty : string * string)
    (status : string) (workplaces : wp_dict) (workdates : list workdate)
    (reduce_shifts works_abd_dez works_abd_prip works_travma_prip : Z)
    (max_num_dayshifts num_dayshifts_omejeno num_nightshifts_omejeno : option Z)
    : Worker :=
  {| name := name;
     included := included;
     specialty_wishes := specialty.1;
     specialty_master := specialty.2;
     status := status;
     workplaces :=
       _resolve_workplaces works_abd_dez works_abd_prip works_travma_prip
                           workplaces;
     workdates := workdates;
     reduce_shifts := reduce_shifts;
     works_abd_dez := works_abd_dez;
     works_abd_prip := works_abd_prip;
     works_travma_prip := works_travma_prip;
     max_num_dayshifts := max_num_dayshifts;
     num_dayshifts_omejeno := num_dayshifts_omejeno;
     num_nightshifts_omejeno := num_nightshifts_omejeno |}.

(** Python's [x in l] on a list of indices. *)
Definition mem (x : nat) (l : list nat) : bool := bool_decide (x ∈ l).

(** [Worker.works_night_shifts] *)
Definition works_night_shifts (w : Worker) : bool :=
  let working_workplaces := YES (workplaces w) ++ MAYBE (workplaces w) in
  existsb (fun ww => mem ww wps.range_night_workplaces) working_workplaces.

Definition min_shifts_dict : gmap string Z :=
  list_to_map
    [ ("1. leto specializacije", 0);
      ("2. leto specializacije", 5);
      ("3. leto specializacije", 4);
      ("4. leto specializacije", 3);
      ("5. leto specializacije", 2);
      ("6. leto specializacije", 1);
      ("Manj kot 6 mesecev do specialističnega izpita", 0);
      ("Specialist", 0) ].

(** [Worker.min_night_shifts]; [None] is the [KeyError] of the lookup. *)
Definition min_night_shifts (w : Worker) : option Z :=
  min_shifts_dict !! status w.

Definition status_to_year_dict : gmap string Z :=
  list_to_map
    [ ("1. leto specializacije", 1);
      ("2. leto specializacije", 2);
      ("3. leto specializacije", 3);
      ("4. leto specializacije", 4);
      ("5. leto specializacije", 5);
      ("6. leto specializacije", 6);
      ("Manj kot 6 mesecev do specialističnega izpita", 6);
      ("Specialist", 6) ].

(** [Worker.year_of_specialization] *)
Definition year_of_specialization (w : Worker) : option Z :=
  status_to_year_dict !! status w.

(** ** The CP-SAT model as data *)

(** Every variable [construct_and_optimize] creates with [NewBoolVar] or
    [NewIntVar].  The solver identifies a variable by the call that created
    it, not by the name string it was given, so the constructors are indexed
    by the loop counters of the creating call. *)
Inductive var :=
| work (ww dd pp : nat)
| is_at_unconnected (ww dd : nat)
| is_working (ww dd : nat)
| works_24_mop_day (ww dd : nat)
| works_24_mop_night (ww dd : nat)
| works_24_day (ww dd : nat)
| works_pair (ww pair_idx : nat)
| works_dd1 (ww pair_idx : nat)
| works_dd2 (ww pair_idx : nat)
| penalty_preferential_assignment_day
| penalty_preferential_assignment_day_unconnected
| penalty_preferential_workplace
| bonus_weekend_travmaprip_1      (* the first definition, overwritten later *)
| both_1 (ww dd1 dd2 : nat)       (* [both] of the first loop *)
| bonus_weekend_travmaprip_senior
| both (ww dd1 dd2 : nat)
| bonus_weekend_travmaprip
| consecutive_night (ww dd : nat)
| night_today (ww dd : nat)
| night_tomorrow (ww dd : nat)
| max_count (ww : nat)
| min_count (ww : nat)
| range_var (ww : nat)
| total (ww : nat)
| max_workload
| min_workload.

#[global] Instance var_eq_dec : EqDecision var.
Proof. solve_decision. Defined.

(** Linear expressions, written as the source writes them. *)
#[warnings="-register-all"]
Inductive expr :=
| EConst (c : Z)
| EVar (x : var)
| EAdd (a b : expr)
| ESub (a b : expr)
| EMul (c : Z) (e : expr)
| ESum (es : list expr).

Coercion EConst : Z >-> expr.
Coercion EVar : var >-> expr.

(** A literal: a Boolean variable or its [.Not()]. *)
Inductive lit :=
| Pos (x : var)
| Not (x : var).

Inductive rel := Req | Rne | Rle | Rge.

Inductive constraint :=
(* [model.Add(lhs r rhs)], possibly followed by [.OnlyEnforceIf(l)] *)
| Linear (lhs : expr) (r : rel) (rhs : expr) (only_enforce_if : option lit)
| MaxEquality (target : var) (exprs : list expr)
| MinEquality (target : var) (exprs : list expr)
| BoolAnd (lits : list lit) (only_enforce_if : option lit)
| BoolOr (lits : list lit) (only_enforce_if : option lit).

Record CpModel := {
  (* variables with their domains [lb, ub] *)
  variables : list (var * (Z * Z));
  constraints : list constraint;
  (* the argument of [model.Minimize] *)
  objective : option expr
}.

Definition valuation := var -> Z.

Fixpoint eval (v : valuation) (e : expr) : Z :=
  match e with
  | EConst c => c
  | EVar x => v x
  | EAdd a b => eval v a + eval v b
  | ESub a b => eval v a - eval v b
  | EMul c e => c * eval v e
  | ESum es => foldr (fun e acc => eval v e + acc) 0 es
  end.

Definition lit_true (v : valuation) (l : lit) : Prop :=
  match l with
  | Pos x => v x = 1
  | Not x => v x = 0
  end.

Definition rel_holds (r : rel) (a b : Z) : Prop :=
  match r with
  | Req => a = b
  | Rne => a ≠ b
  | Rle => a ≤ b
  | Rge => b ≤ a
  end.

Definition enforced (v : valuation) (l : option lit) : Prop :=
  match l with
  | None => True
  | Some l => lit_true v l
  end.

(** Maximum and minimum of a list of integers; an empty list has none. *)
Definition Zmax_list (l : list Z) : option Z :=
  match l with
  | [] => None
  | x :: l' => Some (foldl Z.max x l')
  end.

Definition Zmin_list (l : list Z) : option Z :=
  match l with
  | [] => None
  | x :: l' => Some (foldl Z.min x l')
  end.

(** When a valuation satisfies a constraint.  A max- or min-equality over no
    expression cannot be satisfied. *)
Definition holds (v : valuation) (c : constraint) : Prop :=
  match c with
  | Linear a r b l => enforced v l → rel_holds r (eval v a) (eval v b)
  | MaxEquality t es => Zmax_list (eval v <$> es) = Some (v t)
  | MinEquality t es => Zmin_list (eval v <$> es) = Some (v t)
  | BoolAnd ls l => enforced v l → Forall (lit_true v) ls
  | BoolOr ls l => enforced v l → Exists (lit_true v) ls
  end.

Definition in_domain (v : valuation) (d : var * (Z * Z)) : Prop :=
  d.2.1 ≤ v d.1 ≤ d.2.2.

(** A solved schedule: what [solver.Value] returns when the status is
    OPTIMAL or FEASIBLE. *)
Definition solves (v : valuation) (m : CpModel) : Prop :=
  Forall (in_domain v) (variables m) ∧ Forall (holds v) (constraints m).

#[global] Instance lit_true_dec v l : Decision (lit_true v l).
Proof. destruct l; simpl; apply _. Defined.

#[global] Instance rel_holds_dec r a b : Decision (rel_holds r a b).
Proof. destruct r; simpl; apply _. Defined.

#[global] Instance enforced_dec v l : Decision (enforced v l).
Proof. destruct l; simpl; apply _. Defined.

#[global] Instance holds_dec v c : Decision (holds v c).
Proof. destruct c; simpl; apply _. Defined.

#[global] Instance in_domain_dec v d : Decision (in_domain v d).
Proof. unfold in_domain; apply _. Defined.

#[global] Instance solves_dec v m : Decision (solves v m).
Proof. unfold solves; apply _. Defined.

(** ** Effects of [construct_and_optimize]

    The function prints, grows the model, and stops early through [exit()]
    or an exception.  What was printed and added before it stops is kept. *)

Inductive message :=
| NobodyAvailable (workplace : string) (day : Day)
| AddFakeEntry
| TotalAbdDez (sum_abd_dez : Z) (num_days : nat)
| TotalAbdPrip (sum_abd_prip : Z) (num_workdays : nat)
| TotalTravmaPrip (sum_travma_prip : Z) (num_days : nat)
| ProblemMaxNights (total_max_shifts : Z) (total_night_places : nat)
| ProblemMinNights (total_min_shifts : Z) (total_night_places : nat).

Inductive exn :=
| KeyError (key : string)
| ValueError
| IndexError
| KrozeciException (name : string) (scheduled : Z) (eligible_days : Z)
| OmejenoException (name : string)
| NotSuccessful (status_name : string).

Inductive result (A : Type) :=
| Ok (a : A)
| Exit
| Raise (e : exn).
Arguments Ok {A} a.
Arguments Exit {A}.
Arguments Raise {A} e.

Record state := {
  printed : list message;
  model : CpModel
}.

Definition M (A : Type) : Type := state → result A * state.

#[global] Instance M_ret : MRet M := fun A a s => (Ok a, s).

#[global] Instance M_bind : MBind M := fun A B f m s =>
  match m s with
  | (Ok a, s') => f a s'
  | (Exit, s') => (Exit, s')
  | (Raise e, s') => (Raise e, s')
  end.

Definition exit {A} : M A := fun s => (Exit, s).
Definition raise {A} (e : exn) : M A := fun s => (Raise e, s).

Definition print (msg : message) : M unit :=
  fun s => (Ok (), {| printed := printed s ++ [msg]; model := model s |}).

Definition update_model (f : CpModel → CpModel) : M unit :=
  fun s => (Ok (), {| printed := printed s; model := f (model s) |}).

Definition NewBoolVar (x : var) : M unit :=
  update_model (fun m =>
    {| variables := variables m ++ [(x, (0, 1))];
       constraints := constraints m;
       objective := objective m |}).

Definition NewIntVar (lb ub : Z) (x : var) : M unit :=
  update_model (fun m =>
    {| variables := variables m ++ [(x, (lb, ub))];
       constraints := constraints m;
       objective := objective m |}).

Definition Add (c : constraint) : M unit :=
  update_model (fun m =>
    {| variables := variables m;
       constraints := constraints m ++ [c];
       objective := objective m |}).

Definition Minimize (e : expr) : M unit :=
  update_model (fun m =>
    {| variables := variables m;
       constraints := constraints m;
       objective := Some e |}).

(** A lookup that raises when it fails. *)
Definition lookup_or {A} (e : exn) (o : option A) : M A :=
  match o with
  | Some a => mret a
  | None => raise e
  end.

(** [for x in l: body] *)
Fixpoint for_ {A} (l : list A) (body : A → M unit) : M unit :=
  match l with
  | [] => mret ()
  | x :: l' => body x;; for_ l' body
  end.

(** A [for] loop that updates local variables [acc] in its body. *)
Fixpoint for_acc {A S} (l : list A) (acc : S) (body : A → S → M S) : M S :=
  match l with
  | [] => mret acc
  | x :: l' => acc' ← body x acc; for_acc l' acc' body
  end.

(** [if c: body] *)
Definition when (c : bool) (body : M unit) : M unit :=
  if c then body else mret ().

(** [enumerate(l)] *)
Definition enumerate {A} (l : list A) : list (nat * A) :=
  zip (seq 0 (length l)) l.

Definition range (n : nat) : list nat := seq 0 n.

(** ** optimize.py: [construct_and_optimize] *)

(** The keys of the configuration dictionary that the function reads. *)
Record Config := {
  krozeci_scheduled : Z;
  workplace_weights : gmap string Z;
  weight_equal_workload : Z;
  weight_consecutive_nights : Z;
  weight_equally_distributed_workplaces : Z;
  weight_preferred_day_assignment : Z;
  weight_preferred_workplace_assignment : Z;
  weight_weekend_travmaprip : Z;
  print_logs : bool;
  time_limit : Z
}.

(** [x in [+1, 0]] *)
Definition in_1_0 (x : Z) : bool := bool_decide (x = 1) || bool_decide (x = 0).

(** [worker.workdates[dd]] inside a generator expression.  These are reached
    only after the availability loop has read the same entry for every worker
    and day, so the lookup cannot fail there. *)
Definition workdate_at (worker : Worker) (dd : nat) : workdate :=
  default (WList 0 0) (workdates worker !! dd).

(** The lists of available workers of the pre-model check hold worker names,
    the marker "preschedule", or [None]. *)
Record avail := {
  avail_workers_abd : list (option string);
  avail_workers_abd_prip : list (option string);
  avail_workers_travma : list (option string)
}.

Section model_construction.

Context (worker_list : list Worker)
        (day_list : list Day)
        (preschedule : list (string * Day * string))
        (config : Config).

(** some useful numbers *)
Definition num_workers : nat := length worker_list.
Definition num_workplaces : nat := length wps.ALL_WORKPLACES.
Definition num_days : nat := length day_list.
Definition num_workdays : nat := length (List.filter is_workday day_list).

Definition weekend_pairs : list (nat * nat) :=
  omap (fun '(dd, day) =>
          match day_list !! S dd with
          | Some next =>
              if is_weekend day && is_weekend next then Some (dd, S dd)
              else None
          | None => None
          end)
       (enumerate (removelast day_list)).

(** Variables: [work[(ww, dd, pp)] = 1] if worker ww works site pp on day dd *)
Definition create_work : M unit :=
  for_ (range num_workers) (fun ww =>
    for_ (range num_days) (fun dd =>
      for_ (range num_workplaces) (fun pp =>
        NewBoolVar (work ww dd pp)))).

(** *** Set the variables from the preschedule *)

Definition worker_names : list string := name <$> worker_list.

Definition set_preschedule : M (list (nat * nat)) :=
  for_acc preschedule []
    (fun '(prescheduled_worker_name, day, workplace) preschedule_constraints =>
      day_ndx ← lookup_or ValueError (day_index day_list day);
      workplace_ndx ←
        lookup_or ValueError (wps.index wps.ALL_WORKPLACES workplace);
      if bool_decide (prescheduled_worker_name ∈ worker_names) then
        (* the prescheduled person is in the list of people: work[] == 1 *)
        ww_ndx ←
          lookup_or ValueError (wps.index worker_names prescheduled_worker_name);
        Add (Linear (work ww_ndx day_ndx workplace_ndx) Req 1 None);;
        mret preschedule_constraints
      else
        (* not in the list: nobody works that workplace that day *)
        for_ (range num_workers) (fun ww =>
          Add (Linear (work ww day_ndx workplace_ndx) Req 0 None));;
        mret (preschedule_constraints ++ [(day_ndx, workplace_ndx)])).

(** *** Unconnected workplaces availability *)

Definition is_preassigned (preschedule_constraints : list (nat * nat))
    (dd pp : nat) : bool :=
  bool_decide ((dd, pp) ∈ preschedule_constraints).

(** The loop over the workers for one day. *)
Definition collect_available (dd : nat) (day : Day) (a0 : avail) : M avail :=
  for_acc worker_list a0 (fun worker a =>
    e ← lookup_or IndexError (workdates worker !! dd);
    let '(avail_day, avail_night) := unpack e in
    if in_1_0 avail_day && in_1_0 avail_night then
      let abd :=
        if bool_decide (works_abd_dez worker > 0)
        then avail_workers_abd a ++ [Some (name worker)]
        else avail_workers_abd a in
      let travma :=
        if bool_decide (works_travma_prip worker > 0)
        then avail_workers_travma a ++ [Some (name worker)]
        else avail_workers_travma a in
      let abd_prip :=
        if is_workday day then
          if bool_decide (works_abd_prip worker > 0)
          then avail_workers_abd_prip a ++ [Some (name worker)]
          else avail_workers_abd_prip a
        else
          (* trick because we only care about abd_prip on weekdays *)
          avail_workers_abd_prip a ++ [None] in
      mret {| avail_workers_abd := abd;
              avail_workers_abd_prip := abd_prip;
              avail_workers_travma := travma |}
    else mret a).

(** The loop over the days.  [empty_days_travma_prip] is a loop variable
    because the marker of a preassigned TRAVMA slot is appended to it; the
    appends to the [empty_days_*] lists right before [exit()] are dead. *)
Definition check_unconnected_availability
    (preschedule_constraints : list (nat * nat)) : M (list string) :=
  for_acc (enumerate day_list) []
    (fun '(dd, day) empty_days_travma_prip =>
      let abd0 :=
        if is_preassigned preschedule_constraints dd wps.abdomen_ndx
        then [Some "preschedule"] else [] in
      let empty_days_travma_prip :=
        if is_preassigned preschedule_constraints dd wps.travma_ndx
        then empty_days_travma_prip ++ ["preschedule"]
        else empty_days_travma_prip in
      let abd_prip0 :=
        if is_preassigned preschedule_constraints dd wps.abd_prip_ndx
        then [Some "preschedule"] else [] in
      a ← collect_available dd day
            {| avail_workers_abd := abd0;
               avail_workers_abd_prip := abd_prip0;
               avail_workers_travma := [] |};
      when (bool_decide (length (avail_workers_abd a) = 0%nat))
        (print (NobodyAvailable "ABDOMEN" day);;
         print AddFakeEntry;; exit);;
      when (bool_decide (length (avail_workers_abd_prip a) = 0%nat))
        (print (NobodyAvailable "ABD prip." day);;
         print AddFakeEntry;; exit);;
      when (bool_decide (length (avail_workers_travma a) = 0%nat))
        (print (NobodyAvailable "TRAVMA" day);;
         print AddFakeEntry;; exit);;
      mret empty_days_travma_prip).

(** *** Hard constraints *)

(** exactly one worker per site, unless already assigned *)
Definition coverage_total (preschedule_constraints : list (nat * nat))
    (dd : nat) (day : Day) (pp : nat) : Z :=
  if negb (is_preassigned preschedule_constraints dd pp) then
    if bool_decide (pp = wps.abd_prip_ndx) && negb (is_workday day)
    then 0   (* abd prip is only on workdays *)
    else 1
  else 0.

Definition one_worker_per_site (preschedule_constraints : list (nat * nat))
    : M unit :=
  for_ (enumerate day_list) (fun '(dd, day) =>
    for_ (range num_workplaces) (fun pp =>
      Add (Linear
             (ESum ((fun ww => EVar (work ww dd pp)) <$> range num_workers))
             Req (coverage_total preschedule_constraints dd day pp) None))).

(** not all workers work all workplaces *)
Definition not_all_workplaces : M unit :=
  for_ (enumerate worker_list) (fun '(ww, worker) =>
    for_ (range num_days) (fun dd =>
      for_ (range num_workplaces) (fun pp =>
        when (mem pp (NO (workplaces worker)))
          (Add (Linear (work ww dd pp) Req 0 None))))).

Definition Zsum (l : list Z) : Z := foldr Z.add 0 l.

(** The unconnected workplaces have a pre-defined number of shifts *)
Definition unconnected_quotas : M unit :=
  (* first check whether the sum of these is correct *)
  let sum_abd_dez := Zsum (works_abd_dez <$> worker_list) in
  let sum_abd_prip := Zsum (works_abd_prip <$> worker_list) in
  let sum_travma_prip := Zsum (works_travma_prip <$> worker_list) in
  when (bool_decide (sum_abd_dez ≠ Z.of_nat num_days))
    (print (TotalAbdDez sum_abd_dez num_days));;
  when (bool_decide (sum_abd_prip ≠ Z.of_nat num_workdays))
    (print (TotalAbdPrip sum_abd_prip num_workdays));;
  when (bool_decide (sum_abd_dez ≠ Z.of_nat num_days))
    (print (TotalTravmaPrip sum_travma_prip num_days));;
  (* enforce that each worker is scheduled a preset number of times *)
  for_ (enumerate worker_list) (fun '(ww, worker) =>
    Add (Linear
           (ESum ((fun dd => EVar (work ww dd wps.abdomen_ndx))
                  <$> range num_days))
           Req (works_abd_dez worker) None);;
    Add (Linear
           (ESum ((fun '(dd, day) => EVar (work ww dd wps.abd_prip_ndx))
                  <$> List.filter (fun '(dd, day) => is_workday day)
                                  (enumerate day_list)))
           Req (works_abd_prip worker) None);;
    Add (Linear
           (ESum ((fun dd => EVar (work ww dd wps.travma_ndx))
                  <$> range num_days))
           Req (works_travma_prip worker) None)).

(** [sum(work[ww, dd, pp] for pp in places)] *)
Definition shifts (ww dd : nat) (places : list nat) : expr :=
  ESum ((fun pp => EVar (work ww dd pp)) <$> places).

(** never from night shift to next day day shift *)
Definition night_then_day : M unit :=
  for_ (enumerate worker_list) (fun '(ww, worker) =>
    for_ (range (num_days - 1)) (fun dd =>
      Add (Linear
             (EAdd (shifts ww dd wps.range_night_workplaces)
                   (shifts ww (dd + 1) wps.range_day_workplaces))
             Rle 1 None))).

(** if workday, never from day shift to night shift *)
Definition workday_day_and_night : M unit :=
  for_ (enumerate worker_list) (fun '(ww, worker) =>
    for_ (enumerate day_list) (fun '(dd, day) =>
      when (is_workday day)
        (Add (Linear
                (EAdd (shifts ww dd wps.range_day_workplaces)
                      (shifts ww dd wps.range_night_workplaces))
                Rle 1 None)))).

(** do not schedule unconnected workplaces if working something else *)
Definition unconnected_exclusive : M unit :=
  for_ (range num_workers) (fun ww =>
    for_ (range num_days) (fun dd =>
      NewBoolVar (is_at_unconnected ww dd);;
      Add (MaxEquality (is_at_unconnected ww dd)
             ((fun pp => EVar (work ww dd pp))
              <$> wps.range_unconnected_workplaces));;
      Add (Linear (shifts ww dd (range num_workplaces)) Req 1
             (Some (Pos (is_at_unconnected ww dd)))))).

(** do not work more than two consecutive days *)
Definition no_three_consecutive_days : M unit :=
  for_ (range num_workers) (fun ww =>
    for_ (range num_days) (fun dd =>
      NewBoolVar (is_working ww dd);;
      Add (MaxEquality (is_working ww dd)
             ((fun pp => EVar (work ww dd pp)) <$> range num_workplaces))));;
  for_ (range num_workers) (fun ww =>
    for_ (range (num_days - 2)) (fun dd =>
      Add (Linear
             (EAdd (EAdd (is_working ww dd) (is_working ww (dd + 1)))
                   (is_working ww (dd + 2)))
             Rle 2 None))).

(** Weekends: a worker on night shifts gets at most one weekend day with
    one day and one night shift, exactly one of them MOP (KRG 3 or
    KRG N - MOP); a worker without night shifts gets at most one weekend with
    two consecutive working days. *)
Definition weekend_24h_day (ww : nat) : nat * Day → list var → M (list var) :=
  fun '(dd, day) mop24_list =>
    if is_weekend day || is_holiday day then
      (* one person works MOP day (krg3) and night ABD or B *)
      NewBoolVar (works_24_mop_day ww dd);;
      Add (Linear (work ww dd wps.mop_day_ndx) Req (works_24_mop_day ww dd)
             None);;
      Add (Linear (EAdd (work ww dd wps.abd_night_ndx)
                        (work ww dd wps.b_night_ndx))
             Req 1 (Some (Pos (works_24_mop_day ww dd))));;
      (* if not working MOP, work at most one of the night shifts *)
      Add (Linear (EAdd (work ww dd wps.abd_night_ndx)
                        (work ww dd wps.b_night_ndx))
             Rle 1 (Some (Not (works_24_mop_day ww dd))));;
      let mop24_list := mop24_list ++ [works_24_mop_day ww dd] in
      (* one person works MOP-N and day ABD or B (krg1, krg2) *)
      NewBoolVar (works_24_mop_night ww dd);;
      Add (Linear (work ww dd wps.mop_night_ndx) Req (works_24_mop_night ww dd)
             None);;
      Add (Linear (EAdd (work ww dd wps.abd_day_ndx)
                        (work ww dd wps.b_day_ndx))
             Req 1 (Some (Pos (works_24_mop_night ww dd))));;
      (* if not working MOP-N, work at most one of the day shifts *)
      Add (Linear (EAdd (work ww dd wps.abd_day_ndx)
                        (work ww dd wps.b_day_ndx))
             Rle 1 (Some (Not (works_24_mop_night ww dd))));;
      let mop24_list := mop24_list ++ [works_24_mop_night ww dd] in
      (* this is equivalent to Bool OR *)
      NewBoolVar (works_24_day ww dd);;
      Add (MaxEquality (works_24_day ww dd)
             [EVar (works_24_mop_day ww dd); EVar (works_24_mop_night ww dd)]);;
      (* if a person works this, no schedule one day before or after *)
      when (bool_decide (dd < num_days - 1)%nat)
        (Add (Linear (shifts ww (dd + 1) (range num_workplaces)) Req 0
                (Some (Pos (works_24_day ww dd)))));;
      when (bool_decide (0 < dd)%nat)
        (Add (Linear (shifts ww (dd - 1) (range num_workplaces)) Req 0
                (Some (Pos (works_24_day ww dd)))));;
      mret mop24_list
    else mret mop24_list.

Definition weekend_24h (ww : nat) : M (list var) :=
  for_acc (enumerate day_list) [] (weekend_24h_day ww).

Definition weekend_pairs_worked (ww : nat) : M (list var) :=
  for_acc (enumerate weekend_pairs) []
    (fun '(pair_idx, (dd1, dd2)) works_weekend_pair_list =>
      NewBoolVar (works_pair ww pair_idx);;
      let shifts_dd1 := shifts ww dd1 wps.range_day_workplaces in
      let shifts_dd2 := shifts ww dd2 wps.range_day_workplaces in
      (* works_pair is True if worker has shifts on BOTH days *)
      NewBoolVar (works_dd1 ww pair_idx);;
      NewBoolVar (works_dd2 ww pair_idx);;
      Add (Linear shifts_dd1 Rge 1 (Some (Pos (works_dd1 ww pair_idx))));;
      Add (Linear shifts_dd1 Req 0 (Some (Not (works_dd1 ww pair_idx))));;
      Add (Linear shifts_dd2 Rge 1 (Some (Pos (works_dd2 ww pair_idx))));;
      Add (Linear shifts_dd2 Req 0 (Some (Not (works_dd2 ww pair_idx))));;
      Add (BoolAnd [Pos (works_dd1 ww pair_idx); Pos (works_dd2 ww pair_idx)]
             (Some (Pos (works_pair ww pair_idx))));;
      Add (BoolOr [Not (works_dd1 ww pair_idx); Not (works_dd2 ww pair_idx)]
             (Some (Not (works_pair ww pair_idx))));;
      mret (works_weekend_pair_list ++ [works_pair ww pair_idx])).

Definition weekends : M unit :=
  for_ (enumerate worker_list) (fun '(ww, worker) =>
    if works_night_shifts worker then
      mop24_list ← weekend_24h ww;
      (* at most one 24h per month *)
      Add (Linear (ESum (EVar <$> mop24_list)) Rle 1 None)
    else
      works_weekend_pair_list ← weekend_pairs_worked ww;
      (* at most one weekend pair worked per month for this worker *)
      Add (Linear (ESum (EVar <$> works_weekend_pair_list)) Rle 1 None)).

(** At most one shift per day/night, if they can work on that day *)
Definition availability : M unit :=
  for_ (enumerate worker_list) (fun '(ww, worker) =>
    for_ (range num_days) (fun dd =>
      e ← lookup_or IndexError (workdates worker !! dd);
      let '(avail_day, avail_night) := unpack e in
      (* day shifts *)
      (if in_1_0 avail_day
       then Add (Linear (shifts ww dd wps.range_day_workplaces) Rle 1 None)
       else Add (Linear (shifts ww dd wps.range_day_workplaces) Req 0 None));;
      (* night shifts *)
      (if in_1_0 avail_night
       then Add (Linear (shifts ww dd wps.range_night_workplaces) Rle 1 None)
       else Add (Linear (shifts ww dd wps.range_night_workplaces) Req 0 None));;
      (* 24h unconnected workplaces *)
      (if in_1_0 avail_day && in_1_0 avail_night
       then Add (Linear (shifts ww dd wps.range_unconnected_workplaces)
                   Rle 1 None)
       else Add (Linear (shifts ww dd wps.range_unconnected_workplaces)
                   Req 0 None)))).

(** [sum(work[ww, dd, pp] for dd in range(num_days) for pp in places)] *)
Definition shifts_by_day (ww : nat) (places : list nat) : expr :=
  ESum (flat_map (fun dd => (fun pp => EVar (work ww dd pp)) <$> places)
                 (range num_days)).

(** [sum(work[ww, dd, pp] for pp in places for dd in range(num_days))] *)
Definition shifts_by_place (ww : nat) (places : list nat) : expr :=
  ESum (flat_map (fun pp => (fun dd => EVar (work ww dd pp)) <$> range num_days)
                 places).

(** Some workers have a limited number of day shifts *)
Definition limited_day_shifts : M unit :=
  for_ (enumerate worker_list) (fun '(ww, worker) =>
    match max_num_dayshifts worker with
    | Some max_num =>
        Add (Linear (shifts_by_day ww wps.range_day_workplaces) Rle max_num
               None)
    | None => mret ()
    end).

(** The number of night shifts is limited from below with the number that
    depends on the worker's status, and from above with
    [5 - worker.reduce_shifts]. *)
Definition night_shift_window : M unit :=
  (* first count the possible minimal and maximal number of night shifts *)
  totals ← for_acc (enumerate worker_list) (0, 0)
    (fun '(ww, worker) '(total_min_shifts, total_max_shifts) =>
      if works_night_shifts worker then
        min_shifts ←
          lookup_or (KeyError (status worker)) (min_night_shifts worker);
        let max_shifts := Z.max min_shifts (5 - reduce_shifts worker) in
        mret (total_min_shifts + min_shifts, total_max_shifts + max_shifts)
      else mret (total_min_shifts, total_max_shifts));
  let '(total_min_shifts, total_max_shifts) := totals in
  let total_night_places :=
    (length wps.range_night_workplaces * num_days)%nat in
  when (bool_decide (total_max_shifts < Z.of_nat total_night_places))
    (print (ProblemMaxNights total_max_shifts total_night_places));;
  when (bool_decide (total_min_shifts > Z.of_nat total_night_places))
    (print (ProblemMinNights total_min_shifts total_night_places));;
  (* the updates of the two totals in the second loop are dead *)
  for_ (enumerate worker_list) (fun '(ww, worker) =>
    if works_night_shifts worker then
      min_shifts ←
        lookup_or (KeyError (status worker)) (min_night_shifts worker);
      let max_shifts := Z.max min_shifts (5 - reduce_shifts worker) in
      if bool_decide (max_shifts < min_shifts) then
        Add (Linear (shifts_by_place ww wps.range_night_workplaces) Req 0 None)
      else
        Add (Linear (shifts_by_place ww wps.range_night_workplaces)
               Rge min_shifts None);;
        Add (Linear (shifts_by_place ww wps.range_night_workplaces)
               Rle max_shifts None)
    else mret ()).

(** Workers with [specialty[1] == "Krožeči"] are scheduled a number of times
    given in the config file. *)
Definition krozeci : M unit :=
  for_ (enumerate worker_list) (fun '(ww, worker) =>
    when (bool_decide (specialty_master worker = "Krožeči"))
      ((* check that the worker actually can work these many days *)
       eligible_days ← for_acc (range num_days) 0 (fun dd eligible_days =>
         e ← lookup_or IndexError (workdates worker !! dd);
         if in_1_0 (unpack e).1 then mret (eligible_days + 1)
         else mret eligible_days);
       when (bool_decide (eligible_days < krozeci_scheduled config))
         (raise (KrozeciException (name worker) (krozeci_scheduled config)
                   eligible_days));;
       Add (Linear (shifts_by_day ww (range num_workplaces))
              Req (krozeci_scheduled config) None))).

(** Workers with [included == "OMEJENO"] are scheduled a pre-set number of
    times. *)
Definition omejeno : M unit :=
  for_ (enumerate worker_list) (fun '(ww, worker) =>
    when (bool_decide (included worker = "OMEJENO"))
      (num_day ← lookup_or (OmejenoException (name worker))
                   (num_dayshifts_omejeno worker);
       num_night ← lookup_or (OmejenoException (name worker))
                     (num_nightshifts_omejeno worker);
       Add (Linear (shifts_by_day ww wps.range_day_workplaces)
              Req (EConst num_day) None);;
       Add (Linear (shifts_by_day ww wps.range_night_workplaces)
              Req (EConst num_night) None))).

(** *** Soft constraints *)

(** schedule workers when they want to work: the number of times a worker
    was assigned to a preferential date, day and night shifts summed *)
Definition preferential_assignment : M unit :=
  NewIntVar 0 (Z.of_nat (num_workers * num_days * num_workplaces))
    penalty_preferential_assignment_day;;
  Add (Linear penalty_preferential_assignment_day Req
         (EAdd
            (ESum (flat_map (fun pp =>
                     flat_map (fun dd =>
                       flat_map (fun '(ww, worker) =>
                         if bool_decide ((unpack (workdate_at worker dd)).1 = 1)
                         then [EVar (work ww dd pp)] else [])
                         (enumerate worker_list))
                       (range num_days))
                     wps.range_day_workplaces))
            (ESum (flat_map (fun pp =>
                     flat_map (fun dd =>
                       flat_map (fun '(ww, worker) =>
                         if bool_decide ((unpack (workdate_at worker dd)).2 = 1)
                         then [EVar (work ww dd pp)] else [])
                         (enumerate worker_list))
                       (range num_days))
                     wps.range_night_workplaces)))
         None);;
  (* also prefer working unconnected, but only if both entries are +1 *)
  NewIntVar 0 (Z.of_nat (num_workers * num_days))
    penalty_preferential_assignment_day_unconnected;;
  Add (Linear penalty_preferential_assignment_day_unconnected Req
         (ESum (flat_map (fun pp =>
                  flat_map (fun dd =>
                    flat_map (fun '(ww, worker) =>
                      if eq_tuple (workdate_at worker dd) 1 1
                      then [EVar (work ww dd pp)] else [])
                      (enumerate worker_list))
                    (range num_days))
                  wps.range_unconnected_workplaces))
         None).

(** Preferentially work workplaces which are YES (instead of MAYBE) *)
Definition preferential_workplace : M unit :=
  let bound := Z.of_nat (num_workers * num_days * num_workplaces) in
  NewIntVar (- bound) bound penalty_preferential_workplace;;
  Add (Linear penalty_preferential_workplace Req
         (ESub
            (ESum (flat_map (fun '(ww, worker) =>
                     flat_map (fun dd =>
                       (fun pp => EVar (work ww dd pp))
                       <$> MAYBE (workplaces worker))
                       (range num_days))
                     (enumerate worker_list)))
            (ESum (flat_map (fun '(ww, worker) =>
                     flat_map (fun dd =>
                       (fun pp => EVar (work ww dd pp))
                       <$> YES (workplaces worker))
                       (range num_days))
                     (enumerate worker_list))))
         None).

(** [[worker.year_of_specialization for worker in worker_list]] *)
Definition years_of_workers : M (list Z) :=
  for_acc worker_list [] (fun worker years =>
    year ← lookup_or (KeyError (status worker)) (year_of_specialization worker);
    mret (years ++ [year])).

(** On a weekend, preferentially work two consecutive travma-prip: the first
    definition of the bonus. *)
Definition weekend_travmaprip_1 : M unit :=
  NewIntVar 0 (Z.of_nat (length weekend_pairs)) bonus_weekend_travmaprip_1;;
  let ndx_travma_prip := wps.travma_ndx in
  years ← years_of_workers;
  max_year ← lookup_or ValueError (Zmax_list years);
  consecutive_weekends ← for_acc weekend_pairs []
    (fun '(dd1, dd2) consecutive_weekends =>
      for_acc (range num_workers) consecutive_weekends
        (fun ww consecutive_weekends =>
          NewBoolVar (both_1 ww dd1 dd2);;
          Add (Linear (EAdd (work ww dd1 ndx_travma_prip)
                            (work ww dd2 ndx_travma_prip))
                 Req 2 (Some (Pos (both_1 ww dd1 dd2))));;
          Add (Linear (EAdd (work ww dd1 ndx_travma_prip)
                            (work ww dd2 ndx_travma_prip))
                 Rne 2 (Some (Not (both_1 ww dd1 dd2))));;
          mret (consecutive_weekends ++ [both_1 ww dd1 dd2])));
  Add (Linear bonus_weekend_travmaprip_1 Req
         (ESum (EVar <$> consecutive_weekends)) None).

(** Bonus for assigning consecutive weekends to older workers (exponential
    preference). *)
Definition weekend_travmaprip_senior : M unit :=
  NewIntVar 0 (Z.of_nat (length weekend_pairs * num_workers) * 2 ^ 7)
    bonus_weekend_travmaprip_senior;;
  let ndx_travma_prip := wps.travma_ndx in
  years ← years_of_workers;
  max_year ← lookup_or ValueError (Zmax_list years);
  lists ← for_acc weekend_pairs ([], [])
    (fun '(dd1, dd2) lists =>
      for_acc (enumerate worker_list) lists
        (fun '(ww, worker)
             '(consecutive_weekends, consecutive_weekends_weighted) =>
          NewBoolVar (both ww dd1 dd2);;
          Add (Linear (EAdd (work ww dd1 ndx_travma_prip)
                            (work ww dd2 ndx_travma_prip))
                 Req 2 (Some (Pos (both ww dd1 dd2))));;
          Add (Linear (EAdd (work ww dd1 ndx_travma_prip)
                            (work ww dd2 ndx_travma_prip))
                 Rne 2 (Some (Not (both ww dd1 dd2))));;
          (* exponential weight: doubles for each year of seniority *)
          year ←
            lookup_or (KeyError (status worker)) (year_of_specialization worker);
          let years_of_seniority := max_year - year in
          let weight := 2 ^ (7 - years_of_seniority) in
          mret (consecutive_weekends ++ [both ww dd1 dd2],
                consecutive_weekends_weighted
                  ++ [EMul weight (both ww dd1 dd2)])));
  let '(consecutive_weekends, consecutive_weekends_weighted) := lists in
  (* total count (unweighted) *)
  NewIntVar 0 (Z.of_nat (length weekend_pairs * num_workers))
    bonus_weekend_travmaprip;;
  Add (Linear bonus_weekend_travmaprip Req
         (ESum (EVar <$> consecutive_weekends)) None);;
  (* weighted sum favoring senior workers *)
  Add (Linear bonus_weekend_travmaprip_senior Req
         (ESum consecutive_weekends_weighted) None).

(** penalize two consecutive night shifts *)
Definition consecutive_nights : M (list var) :=
  for_acc (range num_workers) [] (fun ww penalty_consecutive_nights =>
    for_acc (range (num_days - 1)) penalty_consecutive_nights
      (fun dd penalty_consecutive_nights =>
        NewBoolVar (consecutive_night ww dd);;
        NewBoolVar (night_today ww dd);;
        NewBoolVar (night_tomorrow ww dd);;
        (* link to actual night workplace assignments *)
        Add (Linear (shifts ww dd wps.range_night_workplaces) Rge 1
               (Some (Pos (night_today ww dd))));;
        Add (Linear (shifts ww dd wps.range_night_workplaces) Req 0
               (Some (Not (night_today ww dd))));;
        Add (Linear (shifts ww (dd + 1) wps.range_night_workplaces) Rge 1
               (Some (Pos (night_tomorrow ww dd))));;
        Add (Linear (shifts ww (dd + 1) wps.range_night_workplaces) Req 0
               (Some (Not (night_tomorrow ww dd))));;
        (* consecutive_night is true only if both nights are worked *)
        Add (BoolAnd [Pos (night_today ww dd); Pos (night_tomorrow ww dd)]
               (Some (Pos (consecutive_night ww dd))));;
        Add (BoolOr [Not (night_today ww dd); Not (night_tomorrow ww dd)]
               (Some (Not (consecutive_night ww dd))));;
        mret (penalty_consecutive_nights ++ [consecutive_night ww dd]))).

(** equally distribute each worker among their YES workplaces *)
Definition workplace_distribution : M (list var) :=
  for_acc (enumerate worker_list) []
    (fun '(ww, worker) penalty_workplace_distribution =>
      let available_workplaces :=
        List.filter (fun awp => negb (mem awp wps.range_unconnected_workplaces))
                    (YES (workplaces worker)) in
      if bool_decide (length available_workplaces ≤ 1)%nat then
        mret penalty_workplace_distribution   (* continue *)
      else
        (* count total shifts for this worker at each workplace *)
        let workplace_counts (pp : nat) : expr :=
          ESum ((fun dd => EVar (work ww dd pp)) <$> range num_days) in
        NewIntVar 0 (Z.of_nat num_days) (max_count ww);;
        NewIntVar 0 (Z.of_nat num_days) (min_count ww);;
        Add (MaxEquality (max_count ww)
               (workplace_counts <$> available_workplaces));;
        Add (MinEquality (min_count ww)
               (workplace_counts <$> available_workplaces));;
        (* penalize the range (max - min) *)
        NewIntVar 0 (Z.of_nat num_days) (range_var ww);;
        Add (Linear (range_var ww) Req (ESub (max_count ww) (min_count ww))
               None);;
        mret (penalty_workplace_distribution ++ [range_var ww])).

(** *** Objective: overall equal workload *)

(** The test that skips a worker in the workload loop. *)
Definition is_krozeci (worker : Worker) : bool :=
  bool_decide (specialty_wishes worker = "Krožeči")
  || bool_decide (specialty_master worker = "Krožeči").

(** The lambda [wp_weight] of the workload loop. *)
Definition wp_weight (weight_night weight_workday weight_weekend : Z)
    (day : Day) (workplace_ndx : nat) : Z :=
  if mem workplace_ndx wps.range_night_workplaces then weight_night
  else if is_workday day then weight_workday
  else weight_weekend.

(** The body of the loop over the workers. *)
Definition workload_of_worker (max_possible_work : Z)
    : nat * Worker → list var * list Worker → M (list var * list Worker) :=
  fun '(ww, worker) '(total_workloads, worker_list_for_workload) =>
    let workplace_weights := workplace_weights config in
    if is_krozeci worker then
      (* these guys are assigned an exact number of times *)
      mret (total_workloads, worker_list_for_workload)
    else
      (* the weights depend on the worker's age, and whether it is a
         workday or not *)
      year ←
        lookup_or (KeyError (status worker)) (year_of_specialization worker);
      weight_night ←
        lookup_or (KeyError ("night_" +:+ pretty year))
                  (workplace_weights !! ("night_" +:+ pretty year));
      weight_workday ←
        lookup_or (KeyError "workday") (workplace_weights !! "workday");
      weight_weekend ←
        lookup_or (KeyError "weekend") (workplace_weights !! "weekend");
      NewIntVar 0 max_possible_work (total ww);;
      Add (Linear (total ww) Req
             (ESum (flat_map (fun '(dd, day) =>
                      (fun pp =>
                         EMul (wp_weight weight_night weight_workday
                                         weight_weekend day pp)
                              (work ww dd pp))
                      <$> (wps.range_day_workplaces
                           ++ wps.range_night_workplaces))
                      (enumerate day_list)))
             None);;
      mret (total_workloads ++ [total ww],
            worker_list_for_workload ++ [worker]).

Definition equal_workload : M (list var * list Worker) :=
  let workplace_weights := workplace_weights config in
  max_weight ←
    lookup_or ValueError (Zmax_list (map_to_list workplace_weights).*2);
  (* one shift per day is the max *)
  let max_possible_work := Z.of_nat num_days * max_weight in
  lists ← for_acc (enumerate worker_list) ([], [])
             (workload_of_worker max_possible_work);
  let '(total_workloads, worker_list_for_workload) := lists in
  NewIntVar 0 max_possible_work max_workload;;
  NewIntVar 0 max_possible_work min_workload;;
  Add (MaxEquality max_workload (EVar <$> total_workloads));;
  Add (MinEquality min_workload (EVar <$> total_workloads));;
  mret lists.

(** The argument of [model.Minimize]. *)
Definition objective_function
    (penalty_consecutive_nights penalty_workplace_distribution : list var)
    : expr :=
  EAdd (EAdd (EAdd (EAdd (EAdd
    (EMul (weight_equal_workload config) (ESub max_workload min_workload))
    (EMul (weight_consecutive_nights config)
          (ESum (EVar <$> penalty_consecutive_nights))))
    (EMul (weight_equally_distributed_workplaces config)
          (ESum (EVar <$> penalty_workplace_distribution))))
    (EMul (weight_preferred_day_assignment config)
          (EAdd penalty_preferential_assignment_day
                penalty_preferential_assignment_day_unconnected)))
    (EMul (weight_preferred_workplace_assignment config)
          penalty_preferential_workplace))
    (EMul (-1 * weight_weekend_travmaprip config)
          bonus_weekend_travmaprip_senior).

(** The model construction: everything up to [model.Minimize]. *)
Definition construct : M (list var * list Worker) :=
  create_work;;
  preschedule_constraints ← set_preschedule;
  check_unconnected_availability preschedule_constraints;;
  one_worker_per_site preschedule_constraints;;
  not_all_workplaces;;
  unconnected_quotas;;
  night_then_day;;
  workday_day_and_night;;
  unconnected_exclusive;;
  no_three_consecutive_days;;
  weekends;;
  availability;;
  limited_day_shifts;;
  night_shift_window;;
  krozeci;;
  omejeno;;
  preferential_assignment;;
  preferential_workplace;;
  weekend_travmaprip_1;;
  weekend_travmaprip_senior;;
  penalty_consecutive_nights ← consecutive_nights;
  penalty_workplace_distribution ← workplace_distribution;
  workloads ← equal_workload;
  Minimize (objective_function penalty_consecutive_nights
              penalty_workplace_distribution);;
  mret workloads.

(** *** The schedule table *)

(** [array[i][j] = x] *)
Definition set_cell (array : list (list string)) (i j : nat) (x : string)
    : list (list string) :=
  alter (fun row => <[j := x]> row) i array.

Definition workplaces_header : list string := "DATUM" :: wps.ALL_WORKPLACES.

(** The table built from the values [Value] of a solved model.  The lookups
    of the preschedule loop succeeded during the model construction. *)
Definition schedule_array (Value : valuation) : list (list string) :=
  (* generate an empty schedule array *)
  let ncols := (length wps.ALL_WORKPLACES + 2)%nat in
  let nrows := (num_days + 1)%nat in
  let schedule_array := replicate nrows (replicate ncols "") in
  (* add workplaces as the header *)
  let schedule_array := <[0%nat := workplaces_header]> schedule_array in
  (* add dates in the first column *)
  let schedule_array :=
    foldl (fun array ii =>
             set_cell array ii 0
               (default "" (date <$> day_list !! (ii - 1)%nat)))
          schedule_array (wps.range 1 (length schedule_array)) in
  (* fill in the preschedule *)
  let schedule_array :=
    foldl (fun array '(name, day, workplace) =>
             match day_index day_list day,
                   wps.index wps.ALL_WORKPLACES workplace with
             | Some day_index, Some workplace_index =>
                 set_cell array (day_index + 1) (workplace_index + 1) name
             | _, _ => array
             end)
          schedule_array preschedule in
  (* fill in the schedule *)
  foldl (fun array '(dd, day) =>
    foldl (fun array '(ww, worker) =>
      foldl (fun array '(pp, workplace) =>
               if bool_decide (Value (work ww dd pp) = 1)
               then set_cell array (dd + 1) (pp + 1) (name worker)
               else array)
            array (enumerate wps.ALL_WORKPLACES))
      array (enumerate worker_list))
    schedule_array (enumerate day_list).

End model_construction.

(** The state in which [construct_and_optimize] starts: nothing printed, an
    empty model. *)
Definition initial : state :=
  {| printed := [];
     model := {| variables := []; constraints := []; objective := None |} |}.

(** The solver is external.  [Solve] stands for [solver.Solve(model)] followed
    by [solver.Value]: it returns a status and a value for every variable. *)
Inductive CpSolverStatus :=
| UNKNOWN
| MODEL_INVALID
| FEASIBLE
| INFEASIBLE
| OPTIMAL.

Definition StatusName (st : CpSolverStatus) : string :=
  match st with
  | UNKNOWN => "UNKNOWN"
  | MODEL_INVALID => "MODEL_INVALID"
  | FEASIBLE => "FEASIBLE"
  | INFEASIBLE => "INFEASIBLE"
  | OPTIMAL => "OPTIMAL"
  end.

Definition get_model : M CpModel := fun s => (Ok (model s), s).

(** The whole function, up to the schedule table it returns.  The console
    summary, the statistics table and the two csv files are left out. *)
Definition construct_and_optimize
    (Solve : CpModel → CpSolverStatus * valuation)
    (worker_list : list Worker) (day_list : list Day)
    (preschedule : list (string * Day * string)) (config : Config)
    : M (list (list string)) :=
  construct worker_list day_list preschedule config;;
  m ← get_model;
  let '(st, Value) := Solve m in
  match st with
  | OPTIMAL | FEASIBLE =>
      mret (schedule_array worker_list day_list preschedule Value)
  | _ => raise (NotSuccessful (StatusName st))
  end.

(** ** parsing.py *)

(** A field of a DataFrame row as the parsing functions see it: the float NaN
    of an empty field, some other number, or a string. *)
Inductive field :=
| NaN
| Number
| Str (s : string).

#[global] Instance field_eq_dec : EqDecision field.
Proof. solve_decision. Defined.

(** What the parsing functions raise. *)
Inductive parse_exn :=
| StopIteration                     (* [next] on an exhausted generator *)
| MaxOfEmpty                        (* [max] of an empty sequence *)
| AttributeError                    (* [.lower()] on a number *)
| Unrecognized (entry : string)     (* the [raise] of [parse_work_dates] *)
| MissingColumn (column : string)   (* [row[workplace]] *)
| UnknownKey (wp_data : field).     (* [wp_dict[wp_data]] *)

Inductive parsed (A : Type) :=
| Parsed (a : A)
| Failed (e : parse_exn).

Arguments Parsed {A} a.
Arguments Failed {A} e.

#[global] Instance parsed_ret : MRet parsed := fun A a => Parsed a.

#[global] Instance parsed_bind : MBind parsed := fun A B f m =>
  match m with
  | Parsed a => f a
  | Failed e => Failed e
  end.

(** A [for] loop that updates a local value. *)
Fixpoint for_parsed {A S} (l : list A) (acc : S) (body : A → S → parsed S)
    : parsed S :=
  match l with
  | [] => mret acc
  | x :: l' => acc' ← body x acc; for_parsed l' acc' body
  end.

(** [transform_nan] *)
Definition transform_nan (entry transform_to : field) : field :=
  match entry with
  | NaN => transform_to
  | _ => entry
  end.

(** [parse_workplaces]; the row maps column names to fields. *)
Definition parse_workplaces (row : gmap string field) : parsed wp_dict :=
  for_parsed (enumerate wps.STANDARD_WORKPLACES)
    {| YES := []; MAYBE := []; NO := [] |}
    (fun '(ii, workplace) wp_dict =>
      match row !! workplace with
      | None => Failed (MissingColumn workplace)
      | Some wp_data =>
          (* nans are transformed to "NO" *)
          let wp_data := transform_nan wp_data (Str "NO") in
          if bool_decide (wp_data = Str "YES") then
            mret {| YES := YES wp_dict ++ [ii]; MAYBE := MAYBE wp_dict;
                    NO := NO wp_dict |}
          else if bool_decide (wp_data = Str "MAYBE") then
            mret {| YES := YES wp_dict; MAYBE := MAYBE wp_dict ++ [ii];
                    NO := NO wp_dict |}
          else if bool_decide (wp_data = Str "NO") then
            mret {| YES := YES wp_dict; MAYBE := MAYBE wp_dict;
                    NO := NO wp_dict ++ [ii] |}
          else Failed (UnknownKey wp_data)
      end).

(** The generator [(i for i, s in enumerate(columns)
    if s.startswith("Razpolo"))]. *)
Definition razpolo_indices (columns : list string) : list nat :=
  omap (fun '(i, s) => if String.prefix "Razpolo" s then Some i else None)
       (enumerate columns).

(** [next(...)] and [max(...)] of a generator of indices. *)
Definition next (l : list nat) : parsed nat :=
  match l with
  | [] => Failed StopIteration
  | i :: _ => Parsed i
  end.

Definition max_of (l : list nat) : parsed nat :=
  match l with
  | [] => Failed MaxOfEmpty
  | i :: l' => Parsed (foldl Nat.max i l')
  end.

(** [l[a:b]] for indices that are not negative. *)
Definition slice {A} (l : list A) (a b : nat) : list A := drop a (take b l).

Section parse_work_dates.

(** [str.lower] *)
Variable lower : string → string.

(** The body of the loop of [parse_work_dates]: one field to one pair. *)
Definition parse_work_date (entry : field) : parsed workdate :=
  (* nans are transformed to "Mi je vseeno" *)
  match transform_nan entry (Str "Mi je vseeno") with
  | Str entry =>
      let entry := lower entry in
      if bool_decide (entry ∈ ["da (želim delati)"]) then
        Parsed (WList 1 1)
      else if bool_decide
                (entry ∈ ["ld (letni dopust)"; "dežurstvo, matični dan"]) then
        Parsed (WList (-1) (-1))
      else if bool_decide (entry ∈ ["mi je vseeno"]) then
        Parsed (WList 0 0)
      else if bool_decide (entry ∈ ["samo podnevi (do 24.00)"]) then
        Parsed (WList 0 (-1))
      else if bool_decide (entry ∈ ["samo ponoči (po 19.00)"]) then
        Parsed (WList (-1) 0)
      else Failed (Unrecognized entry)
  | _ => Failed AttributeError
  end.

(** [parse_work_dates] *)
Definition parse_work_dates (entries : list field) (columns : list string)
    : parsed (list workdate) :=
  first_idx ← next (razpolo_indices columns);
  last_idx ← max_of (razpolo_indices columns);
  for_parsed (slice entries first_idx (last_idx + 1)) []
    (fun entry result =>
      res ← parse_work_date entry;
      mret (result ++ [res])).

End parse_work_dates.

(** ** Notions used in the statements *)

(** The model only grows: later states keep the variables and constraints of
    earlier ones. *)
Definition extends (s s' : state) : Prop :=
  variables (model s) ⊆ variables (model s')
  ∧ constraints (model s) ⊆ constraints (model s').

Definition mono {A} (m : M A) : Prop := ∀ s, extends s (m s).2.

(** A block [m] ran successfully with result [a] at some point of a run
    that ended in [s]. *)
Definition ran {A} (m : M A) (a : A) (s : state) : Prop :=
  ∃ s1 s2, m s1 = (Ok a, s2) ∧ extends s2 s.

(** [v] is a solved schedule of the instance: the construction ends without
    [exit()] or an exception, and the solver's values satisfy the model. *)
Definition solved (wl : list Worker) (dl : list Day)
    (pre : list (string * Day * string)) (cfg : Config) (v : valuation)
    : Prop :=
  match construct wl dl pre cfg initial with
  | (Ok _, s) => solves v (model s)
  | _ => False
  end.

(** The table of the interface section, row by row: status string, year of
    specialization, minimal number of night shifts.  The status strings are
    those of the source. *)
Definition status_rows : list (string * (Z * Z)) :=
  [ ("1. leto specializacije", (1, 0));
    ("2. leto specializacije", (2, 5));
    ("3. leto specializacije", (3, 4));
    ("4. leto specializacije", (4, 3));
    ("5. leto specializacije", (5, 2));
    ("6. leto specializacije", (6, 1));
    ("Manj kot 6 mesecev do specialističnega izpita", (6, 0));
    ("Specialist", (6, 0)) ].

(** The row of a status string, if the table has one. *)
Fixpoint status_row_of (table : list (string * (Z * Z))) (s : string)
    : option (Z * Z) :=
  match table with
  | [] => None
  | (k, r) :: table' => if decide (k = s) then Some r else status_row_of table' s
  end.

(** The number of night-workplace assignments of worker [ww] over the
    [n] days of the month. *)
Definition night_assignments (v : valuation) (ww n : nat) : Z :=
  Zsum ((fun dd =>
           Zsum ((fun pp => v (work ww dd pp)) <$> wps.range_night_workplaces))
        <$> range n).

(** The list [mop24_list] at the end of the loop over the days. *)
Definition mop24_vars (dl : list Day) (ww : nat) : list var :=
  flat_map (fun '(dd, day) =>
              if is_weekend day || is_holiday day
              then [works_24_mop_day ww dd; works_24_mop_night ww dd]
              else [])
           (enumerate dl).

(** Worker [ww] is assigned to workplace [pp] on day [dd]. *)
Definition assigned (v : valuation) (ww dd pp : nat) : Prop :=
  v (work ww dd pp) = 1.

Definition exactly_one (P Q : Prop) : Prop := (P ∧ ¬ Q) ∨ (¬ P ∧ Q).

(** The 24h pattern on day [dd]: MOP-day with one of the two other night
    stations, or MOP-night with one of the two other day stations. *)
Definition pattern_24h (v : valuation) (ww dd : nat) : Prop :=
  (assigned v ww dd wps.mop_day_ndx
   ∧ (assigned v ww dd wps.abd_night_ndx ∨ assigned v ww dd wps.b_night_ndx))
  ∨ (assigned v ww dd wps.mop_night_ndx
     ∧ (assigned v ww dd wps.abd_day_ndx ∨ assigned v ww dd wps.b_day_ndx)).

(** No assignment at all on day [dd]. *)
Definition day_off (v : valuation) (ww dd : nat) : Prop :=
  ∀ pp, (pp < num_workplaces)%nat → ¬ assigned v ww dd pp.

Definition weekend_or_holiday (day : Day) : Prop :=
  is_weekend day || is_holiday day = true.

(** The weight of one assignment in the workload of [worker]: the entry
    night_<year> of the configured workplace weights for a night workplace;
    for a day workplace the entry workday on a workday and the entry weekend
    otherwise; an unconnected workplace contributes nothing. *)
Definition workload_weight (cfg : Config) (worker : Worker) (day : Day) (pp : nat)
    : option Z :=
  if mem pp wps.range_night_workplaces then
    year ← year_of_specialization worker;
    workplace_weights cfg !! ("night_" +:+ pretty year)
  else if mem pp wps.range_day_workplaces then
    workplace_weights cfg !! (if is_workday day then "workday" else "weekend")
  else Some 0.

(** The weighted workload of worker [ww] in the schedule [v]. *)
Definition workload (cfg : Config) (dl : list Day) (v : valuation)
    (x : nat * Worker) : Z :=
  Zsum ((fun '(dd, day) =>
           Zsum ((fun pp =>
                    default 0 (workload_weight cfg x.2 day pp) * v (work x.1 dd pp))
                 <$> range num_workplaces))
        <$> enumerate dl).

(** A rotating worker, as the specification has it: the sentinel "Krožeči"
    in the wishes slot or in the master slot of the specialty. *)
Definition rotating (worker : Worker) : Prop :=
  specialty_wishes worker = "Krožeči" ∨ specialty_master worker = "Krožeči".

#[global] Instance rotating_dec worker : Decision (rotating worker).
Proof. unfold rotating. apply _. Defined.

(** The workers that take part in the equalization, with their positions in
    the roster: those that are not rotating, that is, with "Krožeči" in
    neither specialty slot. *)
Definition workload_pool (wl : list Worker) : list (nat * Worker) :=
  List.filter (fun x => bool_decide (¬ rotating x.2)) (enumerate wl).

(** The model of an instance, when the construction ends normally. *)
Definition built (wl : list Worker) (dl : list Day)
    (pre : list (string * Day * string)) (cfg : Config) : option CpModel :=
  match construct wl dl pre cfg initial with
  | (Ok _, s) => Some (model s)
  | _ => None
  end.

(** Whether a run ended without [exit()] and without an exception. *)
Definition ended_ok {A} (r : result A) : bool :=
  match r with
  | Ok _ => true
  | _ => false
  end.

(** The preferential-assignment count of the objective: the two counters
    the weight [weight_preferred_day_assignment] multiplies. *)
Definition preferred_count (v : valuation) : Z :=
  eval v (EAdd penalty_preferential_assignment_day
               penalty_preferential_assignment_day_unconnected).

(** Worker [worker] holds a trauma on-call quota and is available for a
    24h duty on day [dd]. *)
Definition travma_available (worker : Worker) (dd : nat) : Prop :=
  ∃ e, workdates worker !! dd = Some e
       ∧ in_1_0 (unpack e).1 = true
       ∧ in_1_0 (unpack e).2 = true
       ∧ works_travma_prip worker > 0.

(** The slots of the preschedule entries whose name is not in the roster. *)
Definition off_roster_slots (wl : list Worker) (dl : list Day)
    (pre : list (string * Day * string)) : list (nat * nat) :=
  omap (fun '(n, day, workplace) =>
          if bool_decide (n ∈ worker_names wl) then None
          else
            dd ← day_index dl day;
            pp ← wps.index wps.ALL_WORKPLACES workplace;
            Some (dd, pp))
       pre.

(** The number of workplaces among [places] that worker [ww] is assigned to
    on day [dd]. *)
Definition count_on (v : valuation) (ww dd : nat) (places : list nat) : Z :=
  Zsum ((fun pp => v (work ww dd pp)) <$> places).

(** The number of workers, out of the first [n], assigned to the slot
    ([dd], [pp]). *)
Definition workers_on (v : valuation) (n dd pp : nat) : Z :=
  Zsum ((fun ww => v (work ww dd pp)) <$> range n).

(** The number of days among [days] on which worker [ww] is assigned to
    workplace [pp]. *)
Definition days_on (v : valuation) (ww pp : nat) (days : list nat) : Z :=
  Zsum ((fun dd => v (work ww dd pp)) <$> days).

(** The indices of the workdays of a day list. *)
Definition workday_indices (dl : list Day) : list nat :=
  fst <$> List.filter (fun '(dd, day) => is_workday day) (enumerate dl).

(** The number of assignments of worker [ww] to workplaces among [places]
    over [n] days. *)
Definition total_on (v : valuation) (ww n : nat) (places : list nat) : Z :=
  Zsum ((fun dd => count_on v ww dd places) <$> range n).

(** Worker [ww] has some assignment on day [dd]. *)
Definition works_on (v : valuation) (ww dd : nat) : Prop :=
  ∃ pp, (pp < num_workplaces)%nat ∧ assigned v ww dd pp.

(** The number of days, among the first [n], on which the day slot of the
    worker is 0 or +1; a missing entry counts as not eligible. *)
Definition eligible_days (worker : Worker) (n : nat) : Z :=
  Z.of_nat (length (List.filter
    (fun dd => match workdates worker !! dd with
               | Some e => in_1_0 (unpack e).1
               | None => false
               end)
    (range n))).

(** Worker [ww] has a day-workplace assignment on day [dd]. *)
Definition works_day_on (v : valuation) (ww dd : nat) : Prop :=
  ∃ pd, pd ∈ wps.range_day_workplaces ∧ assigned v ww dd pd.

(** Worker [worker] holds a positive quota [quota] and is available for a
    24h duty on day [dd]: both slots are 0 or +1. *)
Definition available_for (quota : Worker → Z) (worker : Worker) (dd : nat)
    : Prop :=
  ∃ e, workdates worker !! dd = Some e
       ∧ in_1_0 (unpack e).1 = true
       ∧ in_1_0 (unpack e).2 = true
       ∧ quota worker > 0.

(** [array[i][j]] of the schedule table, if the table has that cell. *)
Definition cell (array : list (list string)) (i j : nat) : option string :=
  row ← array !! i; row !! j.

(** Column [i] is an availability column: its name starts with "Razpolo". *)
Definition availability_column (columns : list string) (i : nat) : Prop :=
  ∃ s, columns !! i = Some s ∧ String.prefix "Razpolo" s = true.

(** The five pairs [parse_work_dates] produces. *)
Definition availability_pairs : list (Z * Z) :=
  [(1, 1); (-1, -1); (0, 0); (0, -1); (-1, 0)].

(** ** Concrete instances *)

(** Preschedule entries for a person outside the roster on every slot of
    [days] that is not listed in [open_slots]. *)
Definition fill_with_outsider (days : list Day)
    (open_slots : list (string * string)) : list (string * Day * string) :=
  flat_map (fun day =>
    flat_map (fun workplace =>
      if bool_decide ((date day, workplace) ∈ open_slots) then []
      else [("ZUNANJI", day, workplace)])
      wps.ALL_WORKPLACES)
    days.

Definition demo_weights : gmap string Z :=
  list_to_map
    [ ("night_1", 3); ("night_2", 3); ("night_3", 3); ("night_4", 3);
      ("night_5", 3); ("night_6", 3); ("workday", 1); ("weekend", 2) ].

Definition demo_config (krozeci_scheduled : Z) : Config :=
  {| krozeci_scheduled := krozeci_scheduled;
     workplace_weights := demo_weights;
     weight_equal_workload := 10;
     weight_consecutive_nights := 5;
     weight_equally_distributed_workplaces := 1;
     weight_preferred_day_assignment := 2;
     weight_preferred_workplace_assignment := 1;
     weight_weekend_travmaprip := 1;
     print_logs := false;
     time_limit := 10 |}.

Definition monday : Day :=
  {| date := "2025-01-06"; is_workday := true;
     is_weekend := false; is_holiday := false |}.

(** A long weekend with three workers: a trainee on night shifts who works
    the 24h pattern on Saturday, a specialist on trauma on-call, and a
    rotating worker. *)
Module Demo.

Definition friday : Day :=
  {| date := "2025-01-03"; is_workday := true;
     is_weekend := false; is_holiday := false |}.
Definition saturday : Day :=
  {| date := "2025-01-04"; is_workday := false;
     is_weekend := true; is_holiday := false |}.
Definition sunday : Day :=
  {| date := "2025-01-05"; is_workday := false;
     is_weekend := true; is_holiday := false |}.
Definition days : list Day := [friday; saturday; sunday].

Definition novak : Worker :=
  mk_worker "NOVAK" "DA" ("Splošna kirurgija", "Splošna kirurgija")
    "6. leto specializacije"
    {| YES := [1; 2]%nat; MAYBE := [5]%nat; NO := [0; 3; 4; 6; 7]%nat |}
    [WList 0 0; WList 1 1; WList 0 0] 0 0 0 0 None None None.
Definition kos : Worker :=
  mk_worker "KOS" "DA" ("Travmatologija", "Travmatologija") "Specialist"
    {| YES := []; MAYBE := []; NO := [0; 1; 2; 3; 4; 5; 6; 7]%nat |}
    [WList 0 0; WList 0 0; WList 0 0] 0 0 0 2 None None None.
Definition zupan : Worker :=
  mk_worker "ZUPAN" "DA" ("Krožeči", "Krožeči") "Specialist"
    {| YES := [0]%nat; MAYBE := []; NO := [1; 2; 3; 4; 5; 6; 7]%nat |}
    [WList 0 0; WList 0 0; WList 0 0] 0 0 0 0 None None None.
Definition roster : list Worker := [novak; kos; zupan].

Definition preschedule : list (string * Day * string) :=
  fill_with_outsider days
    [ ("2025-01-03", "KRG 1"); ("2025-01-03", "TRAVMA");
      ("2025-01-04", "KRG 3"); ("2025-01-04", "KRG N - B");
      ("2025-01-04", "TRAVMA");
      ("2025-01-04", "ABD prip."); ("2025-01-05", "ABD prip.") ].

Definition config : Config := demo_config 1.

(** NOVAK works KRG 3 and KRG N - B on Saturday, KOS is on trauma on-call on
    Friday and Saturday, ZUPAN works KRG 1 on Friday. *)
Definition schedule : valuation := fun x =>
  match x with
  | work 0 1 2 | work 0 1 5 | work 1 0 10 | work 1 1 10 | work 2 0 0 => 1
  | is_at_unconnected 1 0 | is_at_unconnected 1 1 => 1
  | is_working 0 1 | is_working 1 0 | is_working 1 1 | is_working 2 0 => 1
  | works_24_mop_day 0 1 | works_24_day 0 1 => 1
  | penalty_preferential_assignment_day => 2
  | penalty_preferential_workplace => -1
  | night_tomorrow 0 0 | night_today 0 1 => 1
  | max_count 0 | range_var 0 => 1
  | total 0 | max_workload => 5
  | _ => 0
  end.

End Demo.

(** One Monday with one open day station that either of two specialists can
    take; HORVAT asked to work that day, KRANJC did not. *)
Module Preference.

Definition horvat : Worker :=
  mk_worker "HORVAT" "DA" ("Splošna kirurgija", "Splošna kirurgija")
    "Specialist"
    {| YES := [0]%nat; MAYBE := []; NO := [1; 2; 3; 4; 5; 6; 7]%nat |}
    [WList 1 1] 0 0 0 0 None None None.
Definition kranjc : Worker :=
  mk_worker "KRANJC" "DA" ("Splošna kirurgija", "Splošna kirurgija")
    "Specialist"
    {| YES := [0]%nat; MAYBE := []; NO := [1; 2; 3; 4; 5; 6; 7]%nat |}
    [WList 0 0] 0 0 0 0 None None None.
Definition kos : Worker :=
  mk_worker "KOS" "DA" ("Travmatologija", "Travmatologija") "Specialist"
    {| YES := []; MAYBE := []; NO := [0; 1; 2; 3; 4; 5; 6; 7]%nat |}
    [WList 0 0] 0 0 0 1 None None None.
Definition roster : list Worker := [horvat; kranjc; kos].

Definition preschedule : list (string * Day * string) :=
  fill_with_outsider [monday]
    [ ("2025-01-06", "KRG 1"); ("2025-01-06", "TRAVMA") ].

Definition config : Config := demo_config 1.

(** HORVAT, who asked for the day, works KRG 1. *)
Definition preferred : valuation := fun x =>
  match x with
  | work 0 0 0 | work 2 0 10 => 1
  | is_at_unconnected 2 0 => 1
  | is_working 0 0 | is_working 2 0 => 1
  | penalty_preferential_assignment_day => 1
  | penalty_preferential_workplace => -1
  | total 0 | max_workload => 1
  | _ => 0
  end.

(** KRANJC, who did not ask, works KRG 1. *)
Definition indifferent : valuation := fun x =>
  match x with
  | work 1 0 0 | work 2 0 10 => 1
  | is_at_unconnected 2 0 => 1
  | is_working 1 0 | is_working 2 0 => 1
  | penalty_preferential_workplace => -1
  | total 1 | max_workload => 1
  | _ => 0
  end.

End Preference.

(** One Monday on which the three unconnected workplaces are preassigned to
    a person outside the roster. *)
Module Preassigned.

Definition horvat : Worker := Preference.horvat.
Definition roster : list Worker := [horvat].

Definition preschedule : list (string * Day * string) :=
  [ ("ZUNANJI", monday, "ABDOMEN");
    ("ZUNANJI", monday, "ABD prip.");
    ("ZUNANJI", monday, "TRAVMA") ].

End Preassigned.

(** One Monday with a worker who holds the quotas of the two abdominal
    workplaces, and the trauma on-call preassigned outside the roster. *)
Module OutsideTrauma.

Definition kovac : Worker :=
  mk_worker "KOVAC" "DA" ("Abdominalna kirurgija", "Abdominalna kirurgija")
    "Specialist"
    {| YES := []; MAYBE := []; NO := [0; 1; 2; 3; 4; 5; 6; 7]%nat |}
    [WList 0 0] 0 1 1 0 None None None.
Definition roster : list Worker := [kovac].

Definition preschedule : list (string * Day * string) :=
  [ ("ZUNANJI", monday, "TRAVMA") ].

End OutsideTrauma.

(** One Monday with a worker who is "Krožeči" in the wishes file only. *)
Module Rotating.

Definition zupan (specialty : string * string) : Worker :=
  mk_worker "ZUPAN" "DA" specialty "Specialist"
    {| YES := [0]%nat; MAYBE := []; NO := [1; 2; 3; 4; 5; 6; 7]%nat |}
    [WList 0 0] 0 0 0 0 None None None.
Definition wishes_only : Worker := zupan ("Krožeči", "Splošna kirurgija").
Definition master_only : Worker := zupan ("Splošna kirurgija", "Krožeči").

Definition roster (rotating : Worker) : list Worker :=
  [rotating; Preference.kranjc; Preference.kos].

Definition preschedule : list (string * Day * string) :=
  Preference.preschedule.

(** Five assignments are asked of rotating workers. *)
Definition config : Config := demo_config 5.

(** KRANJC works KRG 1, KOS is on trauma on-call, ZUPAN works nothing. *)
Definition schedule : valuation := Preference.indifferent.

(** The number of assignments of worker [ww] over [n] days. *)
Definition assignments (v : valuation) (ww n : nat) : Z :=
  Zsum ((fun dd => Zsum ((fun pp => v (work ww dd pp)) <$> range num_workplaces))
        <$> range n).

End Rotating.

(** One Monday with a worker on a limited schedule (OMEJENO): one day
    shift, no night shift, and at most one day shift. *)
Module Limited.

Definition kranjc : Worker :=
  mk_worker "KRANJC" "OMEJENO" ("Splošna kirurgija", "Splošna kirurgija")
    "Specialist"
    {| YES := [0]%nat; MAYBE := []; NO := [1; 2; 3; 4; 5; 6; 7]%nat |}
    [WList 0 0] 0 0 0 0 (Some 1) (Some 1) (Some 0).
Definition roster : list Worker := [kranjc; Preference.kos].

Definition preschedule : list (string * Day * string) :=
  Preference.preschedule.

Definition config : Config := demo_config 1.

(** KRANJC works KRG 1, KOS is on trauma on-call. *)
Definition schedule : valuation := fun x =>
  match x with
  | work 0 0 0 | work 1 0 10 => 1
  | is_at_unconnected 1 0 => 1
  | is_working 0 0 | is_working 1 0 => 1
  | penalty_preferential_workplace => -1
  | total 0 | max_workload => 1
  | _ => 0
  end.

End Limited.

(** The Monday of [Preference] with KRANJC prescheduled on KRG 1. *)
Module Pinned.

Definition preschedule : list (string * Day * string) :=
  Preference.preschedule ++ [("KRANJC", monday, "KRG 1")].

End Pinned.

(** A weekend of two days: BABIC, who works no night shifts, works KRG 1 on
    both days, KOS is on trauma on-call on both days. *)
Module Weekend.

Definition days : list Day := [Demo.saturday; Demo.sunday].

Definition babic : Worker :=
  mk_worker "BABIC" "DA" ("Splošna kirurgija", "Splošna kirurgija")
    "Specialist"
    {| YES := [0]%nat; MAYBE := []; NO := [1; 2; 3; 4; 5; 6; 7]%nat |}
    [WList 0 0; WList 0 0] 0 0 0 0 None None None.
Definition kos : Worker :=
  mk_worker "KOS" "DA" ("Travmatologija", "Travmatologija") "Specialist"
    {| YES := []; MAYBE := []; NO := [0; 1; 2; 3; 4; 5; 6; 7]%nat |}
    [WList 0 0; WList 0 0] 0 0 0 2 None None None.
Definition roster : list Worker := [babic; kos].

Definition preschedule : list (string * Day * string) :=
  fill_with_outsider days
    [ ("2025-01-04", "KRG 1"); ("2025-01-05", "KRG 1");
      ("2025-01-04", "TRAVMA"); ("2025-01-05", "TRAVMA");
      ("2025-01-04", "ABD prip."); ("2025-01-05", "ABD prip.") ].

Definition config : Config := demo_config 1.

Definition schedule : valuation := fun x =>
  match x with
  | work 0 0 0 | work 0 1 0 | work 1 0 10 | work 1 1 10 => 1
  | is_at_unconnected 1 0 | is_at_unconnected 1 1 => 1
  | is_working 0 0 | is_working 0 1 | is_working 1 0 | is_working 1 1 => 1
  | works_dd1 0 0 | works_dd2 0 0 | works_pair 0 0 => 1
  | penalty_preferential_workplace => -2
  | both_1 1 0 1 | both 1 0 1 => 1
  | bonus_weekend_travmaprip_1 | bonus_weekend_travmaprip => 1
  | bonus_weekend_travmaprip_senior => 128
  | total 0 | max_workload => 4
  | _ => 0
  end.

End Weekend.

(** One row of the wishes file and of the master sheet. *)
Module Sheet.

(** A lowering function that agrees with [str.lower] on ASCII letters and
    leaves every other byte as it is. *)
Definition lower_char (c : Ascii.ascii) : Ascii.ascii :=
  let n := Ascii.nat_of_ascii c in
  if (65 <=? n)%nat && (n <=? 90)%nat then Ascii.ascii_of_nat (n + 32) else c.

Fixpoint lower (s : string) : string :=
  match s with
  | EmptyString => EmptyString
  | String c s' => String (lower_char c) (lower s')
  end.

Definition columns : list string :=
  [ "Priimek Ime"; "Razpoložljivost [1.1.]"; "Opomba";
    "Razpoložljivost [2.1.]"; "Razpoložljivost [3.1.]"; "Status" ].

Definition entries : list field :=
  [ Str "NOVAK"; Str "DA (želim delati)"; NaN;
    Str "Samo podnevi (do 24.00)"; Str "LD (letni dopust)"; Str "Specialist" ].

Definition workplaces_row : gmap string field :=
  list_to_map
    [ ("KRG 1", Str "YES"); ("KRG 2", Str "MAYBE"); ("KRG 3", NaN);
      ("KRG 4", Str "NO"); ("KRG 5", Str "YES"); ("KRG N - B", Str "MAYBE");
      ("KRG N - MOP", NaN); ("KRG N - ABD", Str "NO") ].

Definition wp : wp_dict :=
  {| YES := [0; 4]%nat; MAYBE := [1; 5]%nat; NO := [2; 3; 6; 7]%nat |}.

End Sheet.

(** One Monday for the quota sums. *)
Module Quota.

(** The quotas of the two abdominal workplaces add up, the trauma on-call
    quota is one too many. *)
Definition kos : Worker :=
  mk_worker "KOS" "DA" ("Travmatologija", "Travmatologija") "Specialist"
    {| YES := []; MAYBE := []; NO := [0; 1; 2; 3; 4; 5; 6; 7]%nat |}
    [WList 0 0] 0 1 1 2 None None None.

(** The trauma on-call quota adds up, the abdominal-duty quota is missing
    (its slot is preassigned). *)
Definition kovac : Worker :=
  mk_worker "KOVAC" "DA" ("Travmatologija", "Travmatologija") "Specialist"
    {| YES := []; MAYBE := []; NO := [0; 1; 2; 3; 4; 5; 6; 7]%nat |}
    [WList 0 0] 0 0 1 1 None None None.

Definition abdomen_preassigned : list (string * Day * string) :=
  [ ("ZUNANJI", monday, "ABDOMEN") ].

End Quota.

(** ** Reasoning about runs of the construction *)

#[global] Instance extends_preorder : PreOrder extends.
Proof.
  split.
  - intros s. split; reflexivity.
  - intros s1 s2 s3 [Hv1 Hc1] [Hv2 Hc2]. split; etrans; eauto.
Qed.

Lemma bind_ok {A B} (m : M A) (f : A → M B) s b s' :
  (m ≫= f) s = (Ok b, s') →
  ∃ a s1, m s = (Ok a, s1) ∧ f a s1 = (Ok b, s').
Proof.
  unfold mbind, M_bind. destruct (m s) as [[a| |e] s1]; intros H;
    try discriminate. eauto.
Qed.

Lemma mono_ret {A} (a : A) : mono (mret a).
Proof. intros s. reflexivity. Qed.

Lemma mono_bind {A B} (m : M A) (f : A → M B) :
  mono m → (∀ a, mono (f a)) → mono (m ≫= f).
Proof.
  intros Hm Hf s. specialize (Hm s). unfold mbind, M_bind.
  destruct (m s) as [[a| |e] s1]; simpl in *; auto.
  etrans; [exact Hm | apply Hf].
Qed.

Lemma mono_exit {A} : mono (@exit A).
Proof. intros s. reflexivity. Qed.

Lemma mono_raise {A} e : mono (@raise A e).
Proof. intros s. reflexivity. Qed.

Lemma mono_print msg : mono (print msg).
Proof. intros s. split; reflexivity. Qed.

Lemma mono_NewBoolVar x : mono (NewBoolVar x).
Proof. intros s. split; simpl; [set_solver | reflexivity]. Qed.

Lemma mono_NewIntVar lb ub x : mono (NewIntVar lb ub x).
Proof. intros s. split; simpl; [set_solver | reflexivity]. Qed.

Lemma mono_Add c : mono (Add c).
Proof. intros s. split; simpl; [reflexivity | set_solver]. Qed.

Lemma mono_Minimize e : mono (Minimize e).
Proof. intros s. split; reflexivity. Qed.

Lemma mono_lookup_or {A} e (o : option A) : mono (lookup_or e o).
Proof. destruct o; [apply mono_ret | apply mono_raise]. Qed.

Lemma mono_when c body : mono body → mono (when c body).
Proof. destruct c; [done | intros _; apply mono_ret]. Qed.

Lemma mono_for {A} (l : list A) body :
  (∀ x, mono (body x)) → mono (for_ l body).
Proof.
  intros Hb. induction l as [|x l IH]; simpl.
  - apply mono_ret.
  - apply mono_bind; auto.
Qed.

Lemma mono_for_acc {A S} (l : list A) (acc : S) body :
  (∀ x a, mono (body x a)) → mono (for_acc l acc body).
Proof.
  intros Hb. revert acc. induction l as [|x l IH]; intros acc; simpl.
  - apply mono_ret.
  - apply mono_bind; auto.
Qed.

Create HintDb mono discriminated.
#[global] Hint Resolve mono_ret mono_exit mono_raise mono_print mono_NewBoolVar
  mono_NewIntVar mono_Add mono_Minimize mono_lookup_or mono_when : mono.

(** Monotonicity of a block follows its syntax. *)
Ltac mono_step :=
  lazymatch goal with
  | |- mono (mbind _ _) => apply mono_bind
  | |- mono (for_ _ _) => apply mono_for
  | |- mono (for_acc _ _ _) => apply mono_for_acc
  | |- mono (when _ _) => apply mono_when
  | |- mono (let _ := _ in _) => cbv zeta
  | |- mono _ =>
      first [ solve [auto with mono]
            | match goal with
              | |- context [match ?x with _ => _ end] => destruct x
              end ]
  end.
Ltac solve_mono := repeat (intros; mono_step).

(** Every step of a successful loop ran successfully, and what it added is
    still there at the end. *)
Lemma for_ok {A} (l : list A) body s s' :
  (∀ x, mono (body x)) →
  for_ l body s = (Ok (), s') →
  extends s s' ∧
  ∀ x, x ∈ l → ∃ s1 s2, body x s1 = (Ok (), s2) ∧ extends s s1 ∧ extends s2 s'.
Proof.
  intros Hb. revert s. induction l as [|x l IH]; intros s H; simpl in H.
  - inversion H; subst. split; [reflexivity | intros x Hx; inversion Hx].
  - apply bind_ok in H as ([] & s1 & H1 & H2).
    destruct (IH _ H2) as [He IH'].
    assert (extends s s1) as Hs by (specialize (Hb x s); by rewrite H1 in Hb).
    split; [by etrans|]. intros y Hy. apply elem_of_cons in Hy as [->|Hy].
    + exists s, s1. split; [done|]. split; [reflexivity | done].
    + destruct (IH' y Hy) as (sa & sb & ? & ? & ?).
      exists sa, sb. split; [done|]. split; [by etrans | done].
Qed.

Lemma for_acc_ok {A S} (l : list A) (acc : S) body s r s' :
  (∀ x a, mono (body x a)) →
  for_acc l acc body s = (Ok r, s') →
  extends s s' ∧
  ∀ x, x ∈ l →
    ∃ a a' s1 s2, body x a s1 = (Ok a', s2) ∧ extends s s1 ∧ extends s2 s'.
Proof.
  intros Hb. revert acc s. induction l as [|x l IH]; intros acc s H; simpl in H.
  - inversion H; subst. split; [reflexivity | intros x Hx; inversion Hx].
  - apply bind_ok in H as (acc' & s1 & H1 & H2).
    destruct (IH _ _ H2) as [He IH'].
    assert (extends s s1) as Hs by (specialize (Hb x acc s); by rewrite H1 in Hb).
    split; [by etrans|]. intros y Hy. apply elem_of_cons in Hy as [->|Hy].
    + exists acc, acc', s, s1. split; [done|]. split; [reflexivity | done].
    + destruct (IH' y Hy) as (a & a' & sa & sb & ? & ? & ?).
      exists a, a', sa, sb. split; [done|]. split; [by etrans | done].
Qed.

Lemma Add_ok c s u s' :
  Add c s = (Ok u, s') → c ∈ constraints (model s').
Proof. intros H. inversion H; subst; simpl. set_solver. Qed.

Lemma NewBoolVar_ok x s u s' :
  NewBoolVar x s = (Ok u, s') → (x, (0, 1)) ∈ variables (model s').
Proof. intros H. inversion H; subst; simpl. set_solver. Qed.

Lemma NewIntVar_ok lb ub x s u s' :
  NewIntVar lb ub x s = (Ok u, s') → (x, (lb, ub)) ∈ variables (model s').
Proof. intros H. inversion H; subst; simpl. set_solver. Qed.

Lemma lookup_or_ok {A} e (o : option A) s a s' :
  lookup_or e o s = (Ok a, s') → o = Some a ∧ s' = s.
Proof. destruct o; intros H; inversion H; auto. Qed.

Lemma mret_ok {A} (a b : A) (s s' : state) :
  (mret a : M A) s = (Ok b, s') → b = a ∧ s' = s.
Proof. intros H. inversion H; auto. Qed.

Lemma extends_constraint s s' c :
  extends s s' → c ∈ constraints (model s) → c ∈ constraints (model s').
Proof. intros [_ H]. apply H. Qed.

Lemma extends_variable s s' d :
  extends s s' → d ∈ variables (model s) → d ∈ variables (model s').
Proof. intros [H _]. apply H. Qed.

Lemma solves_constraint v m c :
  solves v m → c ∈ constraints m → holds v c.
Proof. intros [_ H] Hc. by eapply Forall_forall in H. Qed.

Lemma solves_variable v m x lb ub :
  solves v m → (x, (lb, ub)) ∈ variables m → lb ≤ v x ≤ ub.
Proof. intros [H _] Hx. by eapply Forall_forall in H; [|exact Hx]. Qed.

Lemma mono_create_work wl dl : mono (create_work wl dl).
Proof. unfold create_work. solve_mono. Qed.

Lemma mono_set_preschedule wl dl pre : mono (set_preschedule wl dl pre).
Proof. unfold set_preschedule. solve_mono. Qed.

Lemma mono_collect_available wl dd day a : mono (collect_available wl dd day a).
Proof. unfold collect_available. solve_mono. Qed.
#[global] Hint Resolve mono_collect_available : mono.

Lemma mono_check_unconnected_availability wl dl pc :
  mono (check_unconnected_availability wl dl pc).
Proof. unfold check_unconnected_availability. solve_mono. Qed.

Lemma mono_one_worker_per_site wl dl pc : mono (one_worker_per_site wl dl pc).
Proof. unfold one_worker_per_site. solve_mono. Qed.

Lemma mono_not_all_workplaces wl dl : mono (not_all_workplaces wl dl).
Proof. unfold not_all_workplaces. solve_mono. Qed.

Lemma mono_unconnected_quotas wl dl : mono (unconnected_quotas wl dl).
Proof. unfold unconnected_quotas. solve_mono. Qed.

Lemma mono_night_then_day wl dl : mono (night_then_day wl dl).
Proof. unfold night_then_day. solve_mono. Qed.

Lemma mono_workday_day_and_night wl dl : mono (workday_day_and_night wl dl).
Proof. unfold workday_day_and_night. solve_mono. Qed.

Lemma mono_unconnected_exclusive wl dl : mono (unconnected_exclusive wl dl).
Proof. unfold unconnected_exclusive. solve_mono. Qed.

Lemma mono_no_three_consecutive_days wl dl :
  mono (no_three_consecutive_days wl dl).
Proof. unfold no_three_consecutive_days. solve_mono. Qed.

Lemma mono_weekend_24h_day dl ww x acc : mono (weekend_24h_day dl ww x acc).
Proof. unfold weekend_24h_day. solve_mono. Qed.
#[global] Hint Resolve mono_weekend_24h_day : mono.

Lemma mono_weekend_24h dl ww : mono (weekend_24h dl ww).
Proof. unfold weekend_24h. solve_mono. Qed.

Lemma mono_weekend_pairs_worked dl ww : mono (weekend_pairs_worked dl ww).
Proof. unfold weekend_pairs_worked. solve_mono. Qed.
#[global] Hint Resolve mono_weekend_24h mono_weekend_pairs_worked : mono.

Lemma mono_weekends wl dl : mono (weekends wl dl).
Proof. unfold weekends. solve_mono. Qed.

Lemma mono_availability wl dl : mono (availability wl dl).
Proof. unfold availability. solve_mono. Qed.

Lemma mono_limited_day_shifts wl dl : mono (limited_day_shifts wl dl).
Proof. unfold limited_day_shifts. solve_mono. Qed.

Lemma mono_night_shift_window wl dl : mono (night_shift_window wl dl).
Proof. unfold night_shift_window. solve_mono. Qed.

Lemma mono_krozeci wl dl cfg : mono (krozeci wl dl cfg).
Proof. unfold krozeci. solve_mono. Qed.

Lemma mono_omejeno wl dl : mono (omejeno wl dl).
Proof. unfold omejeno. solve_mono. Qed.

Lemma mono_preferential_assignment wl dl : mono (preferential_assignment wl dl).
Proof. unfold preferential_assignment. solve_mono. Qed.

Lemma mono_preferential_workplace wl dl : mono (preferential_workplace wl dl).
Proof. unfold preferential_workplace. solve_mono. Qed.

Lemma mono_years_of_workers wl : mono (years_of_workers wl).
Proof. unfold years_of_workers. solve_mono. Qed.
#[global] Hint Resolve mono_years_of_workers : mono.

Lemma mono_weekend_travmaprip_1 wl dl : mono (weekend_travmaprip_1 wl dl).
Proof. unfold weekend_travmaprip_1. solve_mono. Qed.

Lemma mono_weekend_travmaprip_senior wl dl :
  mono (weekend_travmaprip_senior wl dl).
Proof. unfold weekend_travmaprip_senior. solve_mono. Qed.

Lemma mono_consecutive_nights wl dl : mono (consecutive_nights wl dl).
Proof. unfold consecutive_nights. solve_mono. Qed.

Lemma mono_workplace_distribution wl dl : mono (workplace_distribution wl dl).
Proof. unfold workplace_distribution. solve_mono. Qed.

Lemma mono_workload_of_worker dl cfg m x acc :
  mono (workload_of_worker dl cfg m x acc).
Proof. unfold workload_of_worker. solve_mono. Qed.
#[global] Hint Resolve mono_workload_of_worker : mono.

Lemma mono_equal_workload wl dl cfg : mono (equal_workload wl dl cfg).
Proof. unfold equal_workload. solve_mono. Qed.

#[global] Hint Resolve mono_create_work mono_set_preschedule
  mono_check_unconnected_availability mono_one_worker_per_site
  mono_not_all_workplaces mono_unconnected_quotas mono_night_then_day
  mono_workday_day_and_night mono_unconnected_exclusive
  mono_no_three_consecutive_days mono_weekends mono_availability
  mono_limited_day_shifts mono_night_shift_window mono_krozeci mono_omejeno
  mono_preferential_assignment mono_preferential_workplace
  mono_weekend_travmaprip_1 mono_weekend_travmaprip_senior
  mono_consecutive_nights mono_workplace_distribution mono_equal_workload
  : mono.

Lemma ok_extends {A} (m : M A) a s1 s2 :
  mono m → m s1 = (Ok a, s2) → extends s1 s2.
Proof. intros Hm H. specialize (Hm s1). by rewrite H in Hm. Qed.

Ltac note_extends H :=
  lazymatch type of H with
  | ?m ?sa = (Ok _, ?sb) =>
      let E := fresh "E" in
      assert (extends sa sb) as E
        by (eapply (ok_extends m); [auto with mono | exact H])
  end.

Ltac chain_extends :=
  first [ reflexivity | assumption
        | match goal with
          | H : extends ?a ?b |- extends ?a _ =>
              transitivity b; [exact H | chain_extends]
          end ].

(** The successful runs of the blocks inside a successful construction. *)
Lemma construct_runs wl dl pre cfg r s :
  construct wl dl pre cfg initial = (Ok r, s) →
  ∃ pc nights dist,
    ran (create_work wl dl) () s
    ∧ ran (set_preschedule wl dl pre) pc s
    ∧ (∃ e, ran (check_unconnected_availability wl dl pc) e s)
    ∧ ran (one_worker_per_site wl dl pc) () s
    ∧ ran (not_all_workplaces wl dl) () s
    ∧ ran (unconnected_quotas wl dl) () s
    ∧ ran (night_then_day wl dl) () s
    ∧ ran (workday_day_and_night wl dl) () s
    ∧ ran (unconnected_exclusive wl dl) () s
    ∧ ran (no_three_consecutive_days wl dl) () s
    ∧ ran (weekends wl dl) () s
    ∧ ran (availability wl dl) () s
    ∧ ran (limited_day_shifts wl dl) () s
    ∧ ran (night_shift_window wl dl) () s
    ∧ ran (krozeci wl dl cfg) () s
    ∧ ran (omejeno wl dl) () s
    ∧ ran (preferential_assignment wl dl) () s
    ∧ ran (preferential_workplace wl dl) () s
    ∧ ran (weekend_travmaprip_1 wl dl) () s
    ∧ ran (weekend_travmaprip_senior wl dl) () s
    ∧ ran (consecutive_nights wl dl) nights s
    ∧ ran (workplace_distribution wl dl) dist s
    ∧ ran (equal_workload wl dl cfg) r s
    ∧ objective (model s) = Some (objective_function cfg nights dist).
Proof.
  unfold construct. intros H.
  apply bind_ok in H as ([] & s1 & H1 & H).
  apply bind_ok in H as (pc & s2 & H2 & H).
  apply bind_ok in H as (e & s3 & H3 & H).
  apply bind_ok in H as ([] & s4 & H4 & H).
  apply bind_ok in H as ([] & s5 & H5 & H).
  apply bind_ok in H as ([] & s6 & H6 & H).
  apply bind_ok in H as ([] & s7 & H7 & H).
  apply bind_ok in H as ([] & s8 & H8 & H).
  apply bind_ok in H as ([] & s9 & H9 & H).
  apply bind_ok in H as ([] & s10 & H10 & H).
  apply bind_ok in H as ([] & s11 & H11 & H).
  apply bind_ok in H as ([] & s12 & H12 & H).
  apply bind_ok in H as ([] & s13 & H13 & H).
  apply bind_ok in H as ([] & s14 & H14 & H).
  apply bind_ok in H as ([] & s15 & H15 & H).
  apply bind_ok in H as ([] & s16 & H16 & H).
  apply bind_ok in H as ([] & s17 & H17 & H).
  apply bind_ok in H as ([] & s18 & H18 & H).
  apply bind_ok in H as ([] & s19 & H19 & H).
  apply bind_ok in H as ([] & s20 & H20 & H).
  apply bind_ok in H as (nights & s21 & H21 & H).
  apply bind_ok in H as (dist & s22 & H22 & H).
  apply bind_ok in H as (r' & s23 & H23 & H).
  apply bind_ok in H as ([] & s24 & H24 & H).
  apply mret_ok in H as [-> ->].
  note_extends H1. note_extends H2. note_extends H3. note_extends H4.
  note_extends H5. note_extends H6. note_extends H7. note_extends H8.
  note_extends H9. note_extends H10. note_extends H11. note_extends H12.
  note_extends H13. note_extends H14. note_extends H15. note_extends H16.
  note_extends H17. note_extends H18. note_extends H19. note_extends H20.
  note_extends H21. note_extends H22. note_extends H23. note_extends H24.
  exists pc, nights, dist.
  repeat match goal with
         | |- _ ∧ _ => split
         | |- ∃ _, ran _ _ _ => eexists
         | |- ran _ _ _ => eexists _, _; split; [eassumption | chain_extends]
         end.
  by inversion H24.
Qed.

(** Name the runs of the blocks in the context. *)
Ltac runs_of H :=
  apply construct_runs in H as
    (pc & nights & dist & Hcreate & Hpre & [empty Hcheck] & Hsite & Hnot
     & Hquotas & Hnd & Hwd & Hue & H3d & Hweekends & Havail & Hlimited
     & Hwindow & Hkrozeci & Homejeno & Hprefa & Hprefw & Htr1 & Htrs
     & Hnights & Hdist & Hworkload & Hobjective).

#[global] Instance solved_dec wl dl pre cfg v : Decision (solved wl dl pre cfg v).
Proof.
  unfold solved. destruct (construct wl dl pre cfg initial) as [[?| |?] ?];
    apply _.
Defined.

Lemma solved_inv wl dl pre cfg v :
  solved wl dl pre cfg v →
  ∃ r s, construct wl dl pre cfg initial = (Ok r, s) ∧ solves v (model s).
Proof.
  unfold solved. destruct (construct wl dl pre cfg initial) as [[r| |?] s];
    try done. eauto.
Qed.

(** ** The status table *)

Lemma lookup_dict (l : list (string * Z)) (s : string) :
  NoDup l.*1 →
  (list_to_map l : gmap string Z) !! s
  = (fix go l := match l with
                 | [] => None
                 | (k, x) :: l' => if decide (k = s) then Some x else go l'
                 end) l.
Proof.
  induction l as [|[k x] l IH]; intros Hnd; simpl.
  - apply lookup_empty.
  - apply NoDup_cons in Hnd as [_ Hnd].
    rewrite lookup_insert. case_decide; [done | by apply IH].
Qed.

(** C9: for every worker, the year of specialization and the minimal number
    of night shifts are the pair of the worker's row in the status table
    (years 1..6 with 0, 5, 4, 3, 2, 1 nights; less than six months to the exam
    and specialist with year 6 and 0 nights), and a status string without a
    row is mapped by neither property. *)
Theorem status_pair_is_table_row (w : Worker) :
  match status_row_of status_rows (status w) with
  | Some (year, nights) =>
      year_of_specialization w = Some year ∧ min_night_shifts w = Some nights
  | None =>
      year_of_specialization w = None ∧ min_night_shifts w = None
  end.
Proof.
  unfold year_of_specialization, min_night_shifts,
    status_to_year_dict, min_shifts_dict.
  rewrite !lookup_dict by (apply (bool_decide_unpack _); vm_compute; exact I).
  unfold status_rows, status_row_of.
  repeat (case_decide; [done|]). done.
Qed.

(** ** Lists, sums and expressions *)

Lemma enumerate_from_lookup {A} (l : list A) (n i : nat) :
  zip (seq n (length l)) l !! i = (fun x => ((n + i)%nat, x)) <$> l !! i.
Proof.
  revert n i. induction l as [|x l IH]; intros n i; simpl; [done|].
  destruct i as [|i]; simpl.
  - by rewrite Nat.add_0_r.
  - rewrite IH. by replace (S n + i)%nat with (n + S i)%nat by lia.
Qed.

Lemma elem_of_enumerate {A} (l : list A) (i : nat) (x : A) :
  (i, x) ∈ enumerate l ↔ l !! i = Some x.
Proof.
  unfold enumerate. rewrite list_elem_of_lookup. split.
  - intros [j Hj]. rewrite enumerate_from_lookup in Hj.
    destruct (l !! j) eqn:E; simplify_eq/=. done.
  - intros H. exists i. by rewrite enumerate_from_lookup, H.
Qed.

Lemma elem_of_range (n i : nat) : i ∈ range n ↔ (i < n)%nat.
Proof. unfold range. rewrite elem_of_seq. lia. Qed.

Arguments Zsum : simpl never.

Lemma Zsum_nil : Zsum [] = 0.
Proof. done. Qed.

Lemma Zsum_cons (x : Z) (l : list Z) : Zsum (x :: l) = x + Zsum l.
Proof. done. Qed.

Lemma Zsum_app (l1 l2 : list Z) : Zsum (l1 ++ l2) = Zsum l1 + Zsum l2.
Proof.
  induction l1 as [|x l1 IH]; simpl; [done|]. rewrite !Zsum_cons, IH. lia.
Qed.

Lemma eval_ESum (v : valuation) (es : list expr) :
  eval v (ESum es) = Zsum (eval v <$> es).
Proof.
  induction es as [|e es IH]; [done|].
  rewrite fmap_cons, Zsum_cons, <- IH. done.
Qed.

Lemma Zsum_flat_map {A} (f : A → list Z) (l : list A) :
  Zsum (flat_map f l) = Zsum ((fun x => Zsum (f x)) <$> l).
Proof.
  induction l as [|x l IH]; simpl; [done|].
  by rewrite Zsum_app, Zsum_cons, IH.
Qed.

Lemma fmap_flat_map {A B C} (g : B → C) (f : A → list B) (l : list A) :
  g <$> flat_map f l = flat_map (fun x => g <$> f x) l.
Proof.
  induction l as [|x l IH]; simpl; [done|]. by rewrite fmap_app, IH.
Qed.

Lemma Zsum_fmap_add {A} (f g : A → Z) (l : list A) :
  Zsum ((fun x => f x + g x) <$> l) = Zsum (f <$> l) + Zsum (g <$> l).
Proof.
  induction l as [|x l IH]; [done|].
  rewrite !fmap_cons, !Zsum_cons, IH. lia.
Qed.

Lemma Zsum_fmap_ext {A} (f g : A → Z) (l : list A) :
  (∀ x, x ∈ l → f x = g x) → Zsum (f <$> l) = Zsum (g <$> l).
Proof.
  induction l as [|x l IH]; intros H; [done|].
  rewrite !fmap_cons, !Zsum_cons, H, IH; [done | | left].
  intros y Hy. apply H. by right.
Qed.

Lemma Zsum_nonneg (l : list Z) : Forall (fun x => 0 ≤ x) l → 0 ≤ Zsum l.
Proof. induction 1; [done|]. rewrite Zsum_cons. lia. Qed.

Lemma Zsum_elem_le (l : list Z) (x : Z) :
  Forall (fun x => 0 ≤ x) l → x ∈ l → x ≤ Zsum l.
Proof.
  induction 1 as [|y l Hy Hl IH]; intros Hx; [inversion Hx|].
  apply Zsum_nonneg in Hl as Hs. rewrite Zsum_cons.
  apply elem_of_cons in Hx as [->|Hx]; [lia|]. specialize (IH Hx). lia.
Qed.

Lemma holds_Linear v a r b :
  holds v (Linear a r b None) → rel_holds r (eval v a) (eval v b).
Proof. intros H. by apply H. Qed.

Lemma holds_Linear_if v a r b l :
  holds v (Linear a r b (Some l)) → lit_true v l →
  rel_holds r (eval v a) (eval v b).
Proof. intros H Hl. by apply H. Qed.

(** ** The night-shift window *)

Lemma eval_shifts_by_place_night v dl ww :
  eval v (shifts_by_place dl ww wps.range_night_workplaces)
  = night_assignments v ww (length dl).
Proof.
  unfold shifts_by_place, night_assignments, num_days.
  rewrite eval_ESum, fmap_flat_map, Zsum_flat_map.
  generalize (range (length dl)). intros l.
  cbn [wps.range_night_workplaces wps.range seq Nat.sub fmap list_fmap].
  rewrite !Zsum_cons, Zsum_nil.
  induction l as [|d l IH]; cbn [fmap list_fmap eval];
    rewrite ?Zsum_cons, ?Zsum_nil in *; [done|].
  lia.
Qed.

Lemma night_shift_window_constraints wl dl s ww worker :
  ran (night_shift_window wl dl) () s →
  wl !! ww = Some worker →
  works_night_shifts worker = true →
  ∃ mn, min_night_shifts worker = Some mn
    ∧ Linear (shifts_by_place dl ww wps.range_night_workplaces) Rge mn None
        ∈ constraints (model s)
    ∧ Linear (shifts_by_place dl ww wps.range_night_workplaces) Rle
        (Z.max mn (5 - reduce_shifts worker)) None
        ∈ constraints (model s).
Proof.
  intros (s1 & s2 & Hrun & Hext) Hww Hnight.
  unfold night_shift_window in Hrun.
  apply bind_ok in Hrun as ([tmin tmax] & sa & _ & Hrun).
  apply bind_ok in Hrun as ([] & sb & _ & Hrun).
  apply bind_ok in Hrun as ([] & sc & _ & Hrun).
  apply for_ok in Hrun as [_ Hrun]; [|solve_mono].
  destruct (Hrun (ww, worker)) as (sd & se & Hbody & _ & Hse);
    [by apply elem_of_enumerate|].
  rewrite Hnight in Hbody.
  apply bind_ok in Hbody as (mn & sf & Hmn & Hbody).
  apply lookup_or_ok in Hmn as [Hmn ->].
  exists mn. split; [done|].
  case_bool_decide; [lia|].
  apply bind_ok in Hbody as ([] & sg & Hge & Hle).
  assert (extends sg se) as Hsg
    by (eapply ok_extends; [apply mono_Add | done]).
  apply Add_ok in Hle, Hge.
  split.
  - eapply extends_constraint; [exact Hext|].
    eapply extends_constraint; [exact Hse|].
    eapply extends_constraint; [exact Hsg|]. done.
  - eapply extends_constraint; [exact Hext|].
    eapply extends_constraint; [exact Hse|]. done.
Qed.

(** C4: in every solved schedule, the number of night-workplace assignments
    of a night-eligible worker lies between [mn], the minimum of the worker's
    status, and [mx = max(mn, 5 - reduce_shifts)]; when [mx = mn = 0] the
    worker has no night assignment. *)
Theorem night_shift_window_holds wl dl pre cfg v ww worker :
  solved wl dl pre cfg v →
  wl !! ww = Some worker →
  works_night_shifts worker = true →
  ∃ mn, min_night_shifts worker = Some mn
    ∧ let mx := Z.max mn (5 - reduce_shifts worker) in
      mn ≤ night_assignments v ww (length dl) ≤ mx
      ∧ (mx = 0 → mn = 0 → night_assignments v ww (length dl) = 0).
Proof.
  intros Hs Hww Hnight.
  apply solved_inv in Hs as (r & s & Hc & Hv).
  runs_of Hc.
  destruct (night_shift_window_constraints _ _ _ _ _ Hwindow Hww Hnight)
    as (mn & Hmn & Hge & Hle).
  exists mn. split; [done|].
  apply (solves_constraint v) in Hge, Hle; [|done..].
  apply holds_Linear in Hge, Hle.
  rewrite eval_shifts_by_place_night in Hge, Hle. simpl in Hge, Hle. lia.
Qed.

(** ** The weekend rule of workers on night shifts *)

(** Split a successful run of a sequence into the runs of its steps. *)
Ltac inv_binds H :=
  repeat
    (let a := fresh "a" in
     let s := fresh "s" in
     let H' := fresh "Hstep" in
     apply bind_ok in H as (a & s & H' & H)).

(** Record, for every step of the context, that it only grew the model. *)
Ltac note_all_extends :=
  repeat match goal with
         | H : ?m ?sa = (Ok _, ?sb) |- _ =>
             lazymatch goal with
             | _ : extends sa sb |- _ => fail
             | _ => note_extends H
             end
         end.

(** A constraint added by a step of the context is in every later model. *)
Ltac added_constraint :=
  lazymatch goal with
  | |- ?c ∈ constraints (model ?s) =>
      match goal with
      | H : Add c _ = (Ok _, ?sb) |- _ =>
          apply (extends_constraint sb s); [chain_extends | exact (Add_ok _ _ _ _ H)]
      | H : when true (Add c) _ = (Ok _, ?sb) |- _ =>
          apply (extends_constraint sb s); [chain_extends | exact (Add_ok _ _ _ _ H)]
      end
  end.

Ltac declared_bool :=
  lazymatch goal with
  | |- (?x, (0, 1)) ∈ variables (model ?s) =>
      match goal with
      | H : NewBoolVar x _ = (Ok _, ?sb) |- _ =>
          apply (extends_variable sb s);
          [chain_extends | exact (NewBoolVar_ok _ _ _ _ H)]
      end
  end.

Lemma weekend_24h_result dl ww s r s' :
  weekend_24h dl ww s = (Ok r, s') → r = mop24_vars dl ww.
Proof.
  unfold weekend_24h, mop24_vars.
  assert (∀ l acc s,
    for_acc l acc (weekend_24h_day dl ww) s = (Ok r, s') →
    r = acc ++ flat_map (fun '(dd, day) =>
                           if is_weekend day || is_holiday day
                           then [works_24_mop_day ww dd;
                                 works_24_mop_night ww dd]
                           else []) l) as Hgen; [|intros H; by apply Hgen in H].
  clear s. induction l as [|[dd day] l IH]; intros acc s H; simpl in H.
  - apply mret_ok in H as [-> _]. by rewrite app_nil_r.
  - apply bind_ok in H as (acc' & s1 & Hbody & H). apply IH in H as ->.
    simpl. destruct (is_weekend day || is_holiday day).
    + inv_binds Hbody. apply mret_ok in Hbody as [-> _].
      by rewrite <- !app_assoc.
    + apply mret_ok in Hbody as [-> _]. done.
Qed.

(** What the solver's values satisfy on a weekend day or holiday [dd] for a
    worker [ww] on night shifts. *)
Lemma weekend_day_values wl dl s v ww worker dd day :
  ran (weekends wl dl) () s →
  solves v (model s) →
  wl !! ww = Some worker →
  works_night_shifts worker = true →
  dl !! dd = Some day →
  is_weekend day || is_holiday day = true →
  let mop_day := v (work ww dd wps.mop_day_ndx) in
  let mop_night := v (work ww dd wps.mop_night_ndx) in
  let nights := v (work ww dd wps.abd_night_ndx) + v (work ww dd wps.b_night_ndx) in
  let days := v (work ww dd wps.abd_day_ndx) + v (work ww dd wps.b_day_ndx) in
  v (works_24_mop_day ww dd) = mop_day
  ∧ v (works_24_mop_night ww dd) = mop_night
  ∧ 0 ≤ mop_day ≤ 1 ∧ 0 ≤ mop_night ≤ 1
  ∧ (mop_day = 1 → nights = 1) ∧ (mop_day = 0 → nights ≤ 1)
  ∧ (mop_night = 1 → days = 1) ∧ (mop_night = 0 → days ≤ 1)
  ∧ (mop_day = 1 ∨ mop_night = 1 →
     ((dd < length dl - 1)%nat →
      eval v (shifts ww (dd + 1) (range num_workplaces)) = 0)
     ∧ ((0 < dd)%nat →
        eval v (shifts ww (dd - 1) (range num_workplaces)) = 0)).
Proof.
  intros (s1 & s2 & Hrun & Hext) Hv Hww Hnight Hdd Hwe.
  unfold weekends in Hrun.
  apply for_ok in Hrun as [_ Hrun]; [|solve_mono].
  destruct (Hrun (ww, worker)) as (sa & sb & Hbody & _ & Hsb);
    [by apply elem_of_enumerate|].
  rewrite Hnight in Hbody.
  apply bind_ok in Hbody as (mop24 & sc & Hloop & Hadd).
  unfold weekend_24h in Hloop.
  apply for_acc_ok in Hloop as [_ Hloop]; [|solve_mono].
  destruct (Hloop (dd, day)) as (acc & acc' & sd & se & Hday & _ & Hse);
    [by apply elem_of_enumerate|].
  unfold weekend_24h_day in Hday. rewrite Hwe in Hday.
  inv_binds Hday. apply mret_ok in Hday as [_ Heq]. rewrite Heq in Hse.
  note_all_extends.
  assert (∀ c, c ∈ constraints (model s) → holds v c) as Hc
    by (intros c Hin; by eapply solves_constraint).
  assert (∀ x, (x, (0, 1)) ∈ variables (model s) → 0 ≤ v x ≤ 1) as Hd
    by (intros x Hin; by eapply solves_variable).
  intros mop_day mop_night nights days.
  assert (v (works_24_mop_day ww dd) = mop_day) as Emd.
  { symmetry. apply (holds_Linear v (work ww dd wps.mop_day_ndx) Req
                       (works_24_mop_day ww dd)).
    apply Hc. added_constraint. }
  assert (v (works_24_mop_night ww dd) = mop_night) as Emn.
  { symmetry. apply (holds_Linear v (work ww dd wps.mop_night_ndx) Req
                       (works_24_mop_night ww dd)).
    apply Hc. added_constraint. }
  assert (0 ≤ mop_day ≤ 1) as Dmd.
  { rewrite <- Emd. apply Hd. declared_bool. }
  assert (0 ≤ mop_night ≤ 1) as Dmn.
  { rewrite <- Emn. apply Hd. declared_bool. }
  assert (0 ≤ v (works_24_day ww dd) ≤ 1) as D24.
  { apply Hd. declared_bool. }
  assert (v (works_24_day ww dd) = Z.max mop_day mop_night) as E24.
  { assert (holds v (MaxEquality (works_24_day ww dd)
                       [EVar (works_24_mop_day ww dd);
                        EVar (works_24_mop_night ww dd)])) as Hmax
      by (apply Hc; added_constraint).
    simpl in Hmax. rewrite Emd, Emn in Hmax. by inversion Hmax. }
  repeat split; try done; try lia.
  - intros H1.
    apply (holds_Linear_if v (EAdd (work ww dd wps.abd_night_ndx)
                                   (work ww dd wps.b_night_ndx)) Req 1
             (Pos (works_24_mop_day ww dd)));
      [apply Hc; added_constraint | simpl; lia].
  - intros H0.
    apply (holds_Linear_if v (EAdd (work ww dd wps.abd_night_ndx)
                                   (work ww dd wps.b_night_ndx)) Rle 1
             (Not (works_24_mop_day ww dd)));
      [apply Hc; added_constraint | simpl; lia].
  - intros H1.
    apply (holds_Linear_if v (EAdd (work ww dd wps.abd_day_ndx)
                                   (work ww dd wps.b_day_ndx)) Req 1
             (Pos (works_24_mop_night ww dd)));
      [apply Hc; added_constraint | simpl; lia].
  - intros H0.
    apply (holds_Linear_if v (EAdd (work ww dd wps.abd_day_ndx)
                                   (work ww dd wps.b_day_ndx)) Rle 1
             (Not (works_24_mop_night ww dd)));
      [apply Hc; added_constraint | simpl; lia].
  - intros Hlt.
    assert (bool_decide (dd < num_days dl - 1)%nat = true) as Hb
      by (apply bool_decide_eq_true; exact Hlt).
    rewrite Hb in *.
    apply (holds_Linear_if v (shifts ww (dd + 1) (range num_workplaces)) Req 0
             (Pos (works_24_day ww dd)));
      [apply Hc; added_constraint | simpl; lia].
  - intros Hlt.
    assert (bool_decide (0 < dd)%nat = true) as Hb
      by (apply bool_decide_eq_true; exact Hlt).
    rewrite Hb in *.
    apply (holds_Linear_if v (shifts ww (dd - 1) (range num_workplaces)) Req 0
             (Pos (works_24_day ww dd)));
      [apply Hc; added_constraint | simpl; lia].
Qed.

Lemma Zsum_two_le {A} (g : A → Z) (l : list A) (i j : nat) (x y : A) :
  (∀ z, z ∈ l → 0 ≤ g z) → i ≠ j →
  l !! i = Some x → l !! j = Some y →
  g x + g y ≤ Zsum (g <$> l).
Proof.
  revert i j. induction l as [|z l IH]; intros i j Hpos Hij Hi Hj; [done|].
  rewrite fmap_cons, Zsum_cons.
  assert (Forall (fun x => 0 ≤ x) (g <$> l)) as Hl.
  { apply Forall_fmap, Forall_forall. intros w Hw. apply Hpos. by right. }
  assert (0 ≤ g z) as Hz by (apply Hpos; left).
  destruct i as [|i], j as [|j]; simpl in *; simplify_eq.
  - assert (g y ≤ Zsum (g <$> l)); [|lia].
    apply Zsum_elem_le; [done|]. apply list_elem_of_fmap. exists y.
    split; [done|]. by eapply list_elem_of_lookup_2.
  - assert (g x ≤ Zsum (g <$> l)); [|lia].
    apply Zsum_elem_le; [done|]. apply list_elem_of_fmap. exists x.
    split; [done|]. by eapply list_elem_of_lookup_2.
  - assert (g x + g y ≤ Zsum (g <$> l)); [|lia].
    apply (IH i j); auto. intros w Hw. apply Hpos. by right.
Qed.

Lemma enumerate_lookup {A} (l : list A) (i : nat) (x : A) :
  l !! i = Some x → enumerate l !! i = Some (i, x).
Proof.
  intros H. unfold enumerate. by rewrite enumerate_from_lookup, H.
Qed.

(** Every [work] variable is declared Boolean. *)
Lemma create_work_declares wl dl s ww dd pp :
  ran (create_work wl dl) () s →
  (ww < length wl)%nat → (dd < length dl)%nat → (pp < num_workplaces)%nat →
  (work ww dd pp, (0, 1)) ∈ variables (model s).
Proof.
  intros (s1 & s2 & Hrun & Hext) Hww Hdd Hpp.
  unfold create_work in Hrun.
  apply for_ok in Hrun as [_ Hrun]; [|solve_mono].
  destruct (Hrun ww) as (sa & sb & Hb & _ & Hsb); [by apply elem_of_range|].
  apply for_ok in Hb as [_ Hb]; [|solve_mono].
  destruct (Hb dd) as (sc & sd & Hc & _ & Hsd); [by apply elem_of_range|].
  apply for_ok in Hc as [_ Hc]; [|solve_mono].
  destruct (Hc pp) as (se & sf & He & _ & Hsf); [by apply elem_of_range|].
  apply NewBoolVar_ok in He.
  eapply extends_variable; [|exact He]. chain_extends.
Qed.

Lemma work_is_boolean wl dl pre cfg v ww dd pp :
  solved wl dl pre cfg v →
  (ww < length wl)%nat → (dd < length dl)%nat → (pp < num_workplaces)%nat →
  v (work ww dd pp) = 0 ∨ v (work ww dd pp) = 1.
Proof.
  intros Hs Hww Hdd Hpp.
  apply solved_inv in Hs as (r & s & Hc & Hv).
  runs_of Hc.
  pose proof (create_work_declares _ _ _ _ _ _ Hcreate Hww Hdd Hpp) as Hin.
  apply (solves_variable v) in Hin; [lia | done].
Qed.

(** At most one 24h day per month: the values on two different weekend days
    or holidays. *)
Lemma weekend_month_values wl dl s v ww worker d1 d2 day1 day2 :
  ran (weekends wl dl) () s →
  solves v (model s) →
  wl !! ww = Some worker →
  works_night_shifts worker = true →
  dl !! d1 = Some day1 → is_weekend day1 || is_holiday day1 = true →
  dl !! d2 = Some day2 → is_weekend day2 || is_holiday day2 = true →
  d1 ≠ d2 →
  v (work ww d1 wps.mop_day_ndx) + v (work ww d1 wps.mop_night_ndx)
  + (v (work ww d2 wps.mop_day_ndx) + v (work ww d2 wps.mop_night_ndx)) ≤ 1.
Proof.
  intros Hran Hv Hww Hnight Hd1 Hw1 Hd2 Hw2 Hne.
  pose proof Hran as (s1 & s2 & Hrun & Hext).
  unfold weekends in Hrun.
  apply for_ok in Hrun as [_ Hrun]; [|solve_mono].
  destruct (Hrun (ww, worker)) as (sa & sb & Hbody & _ & Hsb);
    [by apply elem_of_enumerate|].
  rewrite Hnight in Hbody.
  apply bind_ok in Hbody as (mop24 & sc & Hloop & Hadd).
  apply weekend_24h_result in Hloop as ->.
  apply Add_ok in Hadd.
  assert (holds v (Linear (ESum (EVar <$> mop24_vars dl ww)) Rle 1 None)) as H.
  { eapply solves_constraint; [done|].
    eapply extends_constraint; [|exact Hadd]. chain_extends. }
  apply holds_Linear in H. simpl in H.
  change (foldr _ 0 ?es) with (eval v (ESum es)) in H.
  rewrite eval_ESum, <- list_fmap_compose in H. unfold mop24_vars in H.
  rewrite fmap_flat_map, Zsum_flat_map in H.
  set (g := fun x : nat * Day =>
              if is_weekend x.2 || is_holiday x.2
              then v (work ww x.1 wps.mop_day_ndx)
                   + v (work ww x.1 wps.mop_night_ndx)
              else 0).
  erewrite (Zsum_fmap_ext _ g) in H.
  - etrans; [|exact H].
    pose proof (Zsum_two_le g (enumerate dl) d1 d2 (d1, day1) (d2, day2)) as L.
    unfold g at 2 3 in L. simpl in L. rewrite Hw1, Hw2 in L. apply L; auto.
    + intros [dd day] Hin. apply elem_of_enumerate in Hin. unfold g. simpl.
      destruct (is_weekend day || is_holiday day) eqn:Hw; [|done].
      pose proof (weekend_day_values _ _ _ _ _ _ _ _ Hran Hv Hww Hnight Hin Hw).
      simpl in *. lia.
    + by apply enumerate_lookup.
    + by apply enumerate_lookup.
  - intros [dd day] Hin. apply elem_of_enumerate in Hin. unfold g. simpl.
    destruct (is_weekend day || is_holiday day) eqn:Hw; [|done].
    pose proof (weekend_day_values _ _ _ _ _ _ _ _ Hran Hv Hww Hnight Hin Hw)
      as (E1 & E2 & _).
    unfold compose. cbn [fmap list_fmap eval].
    rewrite !Zsum_cons, Zsum_nil, E1, E2. lia.
Qed.

Lemma shifts_zero v ww dd places pp :
  (∀ pp, pp ∈ places → 0 ≤ v (work ww dd pp)) →
  eval v (shifts ww dd places) = 0 →
  pp ∈ places → v (work ww dd pp) = 0.
Proof.
  intros Hpos Hz Hpp. unfold shifts in Hz.
  rewrite eval_ESum, <- list_fmap_compose in Hz.
  assert (v (work ww dd pp) ≤ 0); [|specialize (Hpos pp Hpp); lia].
  rewrite <- Hz.
  apply (Zsum_elem_le ((eval v ∘ (fun pp => EVar (work ww dd pp))) <$> places)).
  - apply Forall_fmap, Forall_forall. intros q Hq. by apply Hpos.
  - apply list_elem_of_fmap. by exists pp.
Qed.

(** C5: for a worker on night shifts and a weekend day or holiday [dd] of a
    solved schedule: MOP-day comes with exactly one of the two other night
    stations and MOP-night with exactly one of the two other day stations;
    without either MOP, at most one of those night stations and at most one of
    those day stations is assigned; a day with the 24h pattern has the worker
    off on the day before and the day after, where these exist; and the 24h
    pattern occurs on at most one day of the month. *)
Theorem weekend_24h_rule wl dl pre cfg v ww worker :
  solved wl dl pre cfg v →
  wl !! ww = Some worker →
  works_night_shifts worker = true →
  (∀ dd day,
     dl !! dd = Some day → weekend_or_holiday day →
     (assigned v ww dd wps.mop_day_ndx →
      exactly_one (assigned v ww dd wps.abd_night_ndx)
                  (assigned v ww dd wps.b_night_ndx))
     ∧ (assigned v ww dd wps.mop_night_ndx →
        exactly_one (assigned v ww dd wps.abd_day_ndx)
                    (assigned v ww dd wps.b_day_ndx))
     ∧ (¬ assigned v ww dd wps.mop_day_ndx →
        ¬ assigned v ww dd wps.mop_night_ndx →
        ¬ (assigned v ww dd wps.abd_night_ndx
           ∧ assigned v ww dd wps.b_night_ndx)
        ∧ ¬ (assigned v ww dd wps.abd_day_ndx
             ∧ assigned v ww dd wps.b_day_ndx))
     ∧ (pattern_24h v ww dd →
        ((0 < dd)%nat → day_off v ww (dd - 1))
        ∧ ((dd + 1 < length dl)%nat → day_off v ww (dd + 1))))
  ∧ (∀ d1 d2 day1 day2,
       dl !! d1 = Some day1 → weekend_or_holiday day1 →
       dl !! d2 = Some day2 → weekend_or_holiday day2 →
       pattern_24h v ww d1 → pattern_24h v ww d2 → d1 = d2).
Proof.
  intros Hs Hww Hnight.
  assert (∀ dd pp, (dd < length dl)%nat → (pp < num_workplaces)%nat →
            v (work ww dd pp) = 0 ∨ v (work ww dd pp) = 1) as Hbool.
  { intros dd pp Hdd Hpp. eapply work_is_boolean; eauto.
    by eapply lookup_lt_Some. }
  apply solved_inv in Hs as (r & s & Hc & Hv).
  runs_of Hc. rename Hweekends into Hran.
  clear - Hbool Hran Hv Hww Hnight.
  split.
  - intros dd day Hdd Hwe.
    pose proof (weekend_day_values _ _ _ _ _ _ _ _ Hran Hv Hww Hnight Hdd Hwe)
      as (_ & _ & Dmd & Dmn & Hmd1 & Hmd0 & Hmn1 & Hmn0 & Hnb).
    apply lookup_lt_Some in Hdd as Hlt.
    unfold assigned, exactly_one, pattern_24h, day_off, assigned.
    pose proof (Hbool dd wps.abd_night_ndx Hlt ltac:(vm_compute; lia)).
    pose proof (Hbool dd wps.b_night_ndx Hlt ltac:(vm_compute; lia)).
    pose proof (Hbool dd wps.abd_day_ndx Hlt ltac:(vm_compute; lia)).
    pose proof (Hbool dd wps.b_day_ndx Hlt ltac:(vm_compute; lia)).
    split; [|split; [|split]].
    + intros Ha. specialize (Hmd1 Ha). lia.
    + intros Ha. specialize (Hmn1 Ha). lia.
    + intros Ha Hb. lia.
    + intros Hpat.
      assert (v (work ww dd wps.mop_day_ndx) = 1
              ∨ v (work ww dd wps.mop_night_ndx) = 1) as Hmop by tauto.
      destruct (Hnb Hmop) as [Hnext Hprev].
      split.
      * intros Hpos pp Hpp.
        assert (dd - 1 < length dl)%nat as Hin by (clear - Hlt; lia).
        rewrite (shifts_zero v ww (dd - 1) (range num_workplaces) pp);
          [discriminate | | exact (Hprev Hpos) | by apply elem_of_range].
        intros q Hq. apply elem_of_range in Hq.
        destruct (Hbool _ _ Hin Hq) as [-> | ->]; discriminate.
      * intros Hlast pp Hpp.
        assert (dd < length dl - 1)%nat as Hin' by (clear - Hlast; lia).
        rewrite (shifts_zero v ww (dd + 1) (range num_workplaces) pp);
          [discriminate | | exact (Hnext Hin') | by apply elem_of_range].
        intros q Hq. apply elem_of_range in Hq.
        destruct (Hbool _ _ Hlast Hq) as [-> | ->]; discriminate.
  - intros d1 d2 day1 day2 Hd1 Hw1 Hd2 Hw2 Hp1 Hp2.
    destruct (decide (d1 = d2)) as [|Hne]; [done|]. exfalso.
    pose proof (weekend_month_values _ _ _ _ _ _ _ _ _ _
                  Hran Hv Hww Hnight Hd1 Hw1 Hd2 Hw2 Hne) as Hsum.
    pose proof (weekend_day_values _ _ _ _ _ _ _ _ Hran Hv Hww Hnight Hd1 Hw1)
      as (_ & _ & ? & ? & _).
    pose proof (weekend_day_values _ _ _ _ _ _ _ _ Hran Hv Hww Hnight Hd2 Hw2)
      as (_ & _ & ? & ? & _).
    unfold pattern_24h, assigned in Hp1, Hp2. lia.
Qed.

(** ** The workload-equalization term *)

Lemma workload_loop_result dl cfg m l acc s r s' :
  for_acc l acc (workload_of_worker dl cfg m) s = (Ok r, s') →
  r.1 = acc.1
        ++ ((fun x => total x.1)
            <$> List.filter (fun x => negb (is_krozeci x.2)) l).
Proof.
  revert acc s. induction l as [|[ww w] l IH]; intros [tw wlw] s H; simpl in H.
  - apply mret_ok in H as [-> _]. simpl. by rewrite app_nil_r.
  - apply bind_ok in H as (acc' & s1 & Hbody & H). apply IH in H as ->.
    simpl. destruct (is_krozeci w); simpl.
    + apply mret_ok in Hbody as [-> _]. done.
    + inv_binds Hbody. apply mret_ok in Hbody as [-> _]. simpl.
      by rewrite <- app_assoc.
Qed.

(** The sum the code builds for one day is the weighted sum over all
    workplaces. *)
Lemma workload_day_sum cfg worker v ww dd day year wn wd we :
  year_of_specialization worker = Some year →
  workplace_weights cfg !! ("night_" +:+ pretty year) = Some wn →
  workplace_weights cfg !! "workday" = Some wd →
  workplace_weights cfg !! "weekend" = Some we →
  Zsum (eval v <$> ((fun pp => EMul (wp_weight wn wd we day pp) (work ww dd pp))
                    <$> (wps.range_day_workplaces
                         ++ wps.range_night_workplaces)))
  = Zsum ((fun pp => default 0 (workload_weight cfg worker day pp) * v (work ww dd pp))
          <$> range num_workplaces).
Proof.
  intros Hy Hn Hd He. unfold workload_weight, wp_weight. rewrite Hy. simpl.
  rewrite Hn.
  cbv [wps.range_day_workplaces wps.range_night_workplaces wps.range range
       num_workplaces wps.ALL_WORKPLACES wps.STANDARD_WORKPLACES
       wps.UNCONNECTED_WORKPLACES app length Nat.sub seq fmap list_fmap].
  repeat match goal with
         | |- context [mem ?k ?l] =>
             let b := eval vm_compute in (mem k l) in
             change (mem k l) with b
         end.
  cbn [eval]. destruct (is_workday day); rewrite ?Hd, ?He; simpl;
    rewrite !Zsum_cons, !Zsum_nil; lia.
Qed.

(** The test that skips a worker in the workload loop is the test for a
    rotating worker: the sentinel in either specialty slot. *)
Lemma is_krozeci_rotating (worker : Worker) :
  negb (is_krozeci worker) = bool_decide (¬ rotating worker).
Proof.
  unfold is_krozeci, rotating.
  destruct (decide (specialty_wishes worker = "Krožeči")) as [Hw|Hw];
    destruct (decide (specialty_master worker = "Krožeči")) as [Hm|Hm];
    rewrite ?(bool_decide_eq_true_2 _ Hw), ?(bool_decide_eq_true_2 _ Hm),
      ?(bool_decide_eq_false_2 _ Hw), ?(bool_decide_eq_false_2 _ Hm);
    simpl; symmetry;
    [apply bool_decide_eq_false_2 | apply bool_decide_eq_false_2
    | apply bool_decide_eq_false_2 | apply bool_decide_eq_true_2];
    tauto.
Qed.

Lemma workload_pool_filter (wl : list Worker) :
  List.filter (fun x : nat * Worker => negb (is_krozeci x.2)) (enumerate wl)
  = workload_pool wl.
Proof.
  unfold workload_pool. induction (enumerate wl) as [|x l IH]; [done|].
  simpl. by rewrite IH, is_krozeci_rotating.
Qed.

Lemma ran_equal_workload wl dl cfg r s :
  ran (equal_workload wl dl cfg) r s →
  r.1 = (fun x => total x.1) <$> workload_pool wl
  ∧ MaxEquality max_workload (EVar <$> r.1) ∈ constraints (model s)
  ∧ MinEquality min_workload (EVar <$> r.1) ∈ constraints (model s).
Proof.
  intros (s1 & s2 & Hrun & Hext). unfold equal_workload in Hrun.
  apply bind_ok in Hrun as (mw & sa & _ & Hrun).
  apply bind_ok in Hrun as ([tw wlw] & sb & Hloop & Hrest).
  apply workload_loop_result in Hloop. simpl in Hloop.
  rewrite workload_pool_filter in Hloop. subst tw.
  inv_binds Hrest. apply mret_ok in Hrest as [-> Heq]. subst.
  note_all_extends.
  split; [done|]. split; simpl; added_constraint.
Qed.

Lemma total_value wl dl cfg r s v ww worker :
  ran (equal_workload wl dl cfg) r s →
  solves v (model s) →
  (ww, worker) ∈ workload_pool wl →
  v (total ww) = workload cfg dl v (ww, worker).
Proof.
  intros (s1 & s2 & Hrun & Hext) Hv Hin.
  unfold equal_workload in Hrun.
  apply bind_ok in Hrun as (mw & sa & _ & Hrun).
  apply bind_ok in Hrun as ([tw wlw] & sb & Hloop & Hrest).
  assert (extends sb s2) as Hsb
    by (eapply ok_extends; [|exact Hrest]; solve_mono).
  apply for_acc_ok in Hloop as [_ Hloop]; [|solve_mono].
  rewrite <- workload_pool_filter in Hin.
  apply list_elem_of_In, filter_In in Hin as [Hin Hk].
  apply list_elem_of_In in Hin.
  destruct (Hloop _ Hin) as ([tw' wlw'] & acc' & sc & sd & Hbody & _ & Hsd).
  simpl in Hbody, Hk. apply negb_true_iff in Hk. rewrite Hk in Hbody.
  inv_binds Hbody. apply mret_ok in Hbody as [_ Heq]. rewrite Heq in Hsd.
  apply lookup_or_ok in Hstep as [Hy ->].
  apply lookup_or_ok in Hstep0 as [Hn ->].
  apply lookup_or_ok in Hstep1 as [Hd ->].
  apply lookup_or_ok in Hstep2 as [He ->].
  apply Add_ok in Hstep4.
  match type of Hstep4 with
  | ?c ∈ _ => assert (holds v c) as H
  end.
  { eapply solves_constraint; [done|].
    eapply extends_constraint; [|exact Hstep4]. chain_extends. }
  apply holds_Linear in H. cbn [rel_holds] in H.
  rewrite eval_ESum, fmap_flat_map, Zsum_flat_map in H.
  cbn [eval] in H. rewrite H. unfold workload.
  apply Zsum_fmap_ext. intros [dd day] _. simpl.
  by eapply workload_day_sum.
Qed.

(** C6: in a solved schedule the two variables of the equalization term hold
    the largest and the smallest workload of the pool, so the term
    [max_workload - min_workload], the first summand of the objective, is
    their difference.  The workload of a worker sums the weighted day and
    night assignments (unconnected workplaces contribute nothing), and the
    pool leaves out every worker with "Krožeči" in either specialty slot:
    it holds exactly the workers of the roster with the sentinel in neither
    slot, and the workload variable of each of them holds its workload. *)
Theorem workload_equalization_term wl dl pre cfg v :
  solved wl dl pre cfg v →
  let totals := workload cfg dl v <$> workload_pool wl in
  (∃ hi lo,
    Zmax_list totals = Some hi
    ∧ Zmin_list totals = Some lo
    ∧ eval v (ESub max_workload min_workload) = hi - lo
    ∧ ∃ m s4 s5 s12 s3 s6,
        built wl dl pre cfg = Some m
        ∧ objective m
          = Some (EAdd (EAdd (EAdd (EAdd (EAdd
              (EMul (weight_equal_workload cfg)
                    (ESub max_workload min_workload)) s4) s5) s12) s3) s6))
  ∧ (∀ ww worker,
       (ww, worker) ∈ workload_pool wl
       ↔ wl !! ww = Some worker
         ∧ specialty_wishes worker ≠ "Krožeči"
         ∧ specialty_master worker ≠ "Krožeči")
  ∧ (∀ ww worker,
       (ww, worker) ∈ workload_pool wl →
       v (total ww) = workload cfg dl v (ww, worker)).
Proof.
  intros Hs totals.
  assert (∀ ww worker,
            (ww, worker) ∈ workload_pool wl
            ↔ wl !! ww = Some worker
              ∧ specialty_wishes worker ≠ "Krožeči"
              ∧ specialty_master worker ≠ "Krožeči") as Hpool.
  { intros ww worker. unfold workload_pool.
    rewrite list_elem_of_In, filter_In, <- list_elem_of_In.
    rewrite elem_of_enumerate, bool_decide_eq_true. unfold rotating. simpl.
    tauto. }
  split; [|split; [exact Hpool|]]; cycle 1.
  { intros ww worker Hin.
    apply solved_inv in Hs as (r & s & Hc & Hv). runs_of Hc.
    by eapply total_value. }
  apply solved_inv in Hs as (r & s & Hc & Hv).
  assert (built wl dl pre cfg = Some (model s)) as Hb
    by (unfold built; by rewrite Hc).
  runs_of Hc.
  destruct (ran_equal_workload _ _ _ _ _ Hworkload)
    as (Hr & Hmax & Hmin).
  apply (solves_constraint v) in Hmax, Hmin; [|done..].
  simpl in Hmax, Hmin.
  assert (eval v <$> (EVar <$> r.1) = totals) as Ht.
  { rewrite Hr, <- !list_fmap_compose. unfold totals.
    apply list_eq_Forall2, Forall2_fmap, Forall_Forall2_diag, Forall_forall.
    intros [ww worker] Hin. simpl.
    by eapply total_value. }
  rewrite Ht in Hmax, Hmin.
  exists (v max_workload), (v min_workload).
  split; [done|]. split; [done|]. split; [done|].
  exists (model s). rewrite Hobjective. unfold objective_function. eauto 10.
Qed.

(** ** The instances *)

Lemma decide_solved wl dl pre cfg v :
  bool_decide (solved wl dl pre cfg v) = true → solved wl dl pre cfg v.
Proof. apply bool_decide_eq_true_1. Qed.

Lemma demo_solved :
  solved Demo.roster Demo.days Demo.preschedule Demo.config Demo.schedule.
Proof. apply decide_solved. vm_compute. reflexivity. Qed.

Lemma preference_solved_preferred :
  solved Preference.roster [monday] Preference.preschedule Preference.config
         Preference.preferred.
Proof. apply decide_solved. vm_compute. reflexivity. Qed.

Lemma preference_solved_indifferent :
  solved Preference.roster [monday] Preference.preschedule Preference.config
         Preference.indifferent.
Proof. apply decide_solved. vm_compute. reflexivity. Qed.

Lemma rotating_solved :
  solved (Rotating.roster Rotating.wishes_only) [monday] Rotating.preschedule
         Rotating.config Rotating.schedule.
Proof. apply decide_solved. vm_compute. reflexivity. Qed.

(** ** Witnesses of the confirmed properties *)

Lemma night_shift_window_witness :
  solved Demo.roster Demo.days Demo.preschedule Demo.config Demo.schedule
  ∧ Demo.roster !! 0%nat = Some Demo.novak
  ∧ works_night_shifts Demo.novak = true
  ∧ ∃ mn, min_night_shifts Demo.novak = Some mn
      ∧ let mx := Z.max mn (5 - reduce_shifts Demo.novak) in
        mn ≤ night_assignments Demo.schedule 0 (length Demo.days) ≤ mx
        ∧ (mx = 0 → mn = 0 →
           night_assignments Demo.schedule 0 (length Demo.days) = 0).
Proof.
  assert (solved Demo.roster Demo.days Demo.preschedule Demo.config
                 Demo.schedule) as Hs
    by (apply decide_solved; vm_compute; reflexivity).
  split; [exact Hs|]. split; [reflexivity|]. split; [reflexivity|].
  apply (night_shift_window_holds Demo.roster Demo.days Demo.preschedule
           Demo.config Demo.schedule 0 Demo.novak);
    [exact Hs | reflexivity | reflexivity].
Defined.

Lemma weekend_24h_rule_witness :
  solved Demo.roster Demo.days Demo.preschedule Demo.config Demo.schedule
  ∧ Demo.roster !! 0%nat = Some Demo.novak
  ∧ works_night_shifts Demo.novak = true
  ∧ pattern_24h Demo.schedule 0 1
  ∧ day_off Demo.schedule 0 0
  ∧ day_off Demo.schedule 0 2.
Proof.
  assert (solved Demo.roster Demo.days Demo.preschedule Demo.config
                 Demo.schedule) as Hs
    by (apply decide_solved; vm_compute; reflexivity).
  split; [exact Hs|]. split; [reflexivity|]. split; [reflexivity|].
  destruct (weekend_24h_rule Demo.roster Demo.days Demo.preschedule
              Demo.config Demo.schedule 0 Demo.novak Hs eq_refl eq_refl)
    as [Hday _].
  assert (pattern_24h Demo.schedule 0 1) as Hp
    by (left; split; [reflexivity | right; reflexivity]).
  split; [exact Hp|].
  destruct (Hday 1%nat Demo.saturday eq_refl eq_refl) as (_ & _ & _ & Hoff).
  destruct (Hoff Hp) as [Hbefore Hafter].
  split; [apply Hbefore | apply Hafter]; simpl; lia.
Defined.

Lemma workload_equalization_term_witness :
  solved (Rotating.roster Rotating.wishes_only) [monday] Rotating.preschedule
         Rotating.config Rotating.schedule
  ∧ specialty_wishes Rotating.wishes_only = "Krožeči"
  ∧ specialty_master Rotating.wishes_only ≠ "Krožeči"
  ∧ workload_pool (Rotating.roster Rotating.wishes_only)
    = [(1%nat, Preference.kranjc); (2%nat, Preference.kos)]
  ∧ ∃ hi lo,
      Zmax_list (workload Rotating.config [monday] Rotating.schedule
                 <$> workload_pool (Rotating.roster Rotating.wishes_only))
      = Some hi
      ∧ Zmin_list (workload Rotating.config [monday] Rotating.schedule
                   <$> workload_pool (Rotating.roster Rotating.wishes_only))
        = Some lo
      ∧ eval Rotating.schedule (ESub max_workload min_workload) = hi - lo.
Proof.
  assert (solved (Rotating.roster Rotating.wishes_only) [monday]
                 Rotating.preschedule Rotating.config Rotating.schedule)
    as Hs by (apply decide_solved; vm_compute; reflexivity).
  split; [exact Hs|]. split; [reflexivity|].
  split; [vm_compute; discriminate|].
  split; [vm_compute; reflexivity|].
  destruct (workload_equalization_term (Rotating.roster Rotating.wishes_only)
              [monday] Rotating.preschedule Rotating.config Rotating.schedule
              Hs) as ((hi & lo & Hhi & Hlo & Hd & _) & _).
  exists hi, lo. split; [exact Hhi | split; [exact Hlo | exact Hd]].
Defined.

(** ** The shape of the schedule table *)

Lemma lengths_set_cell (array : list (list string)) i j x :
  length <$> set_cell array i j x = length <$> array.
Proof.
  unfold set_cell. revert i. induction array as [|row array IH]; intros i.
  - done.
  - destruct i as [|i]; simpl.
    + by rewrite length_insert.
    + f_equal. apply IH.
Qed.

Lemma foldl_invariant {A B} (I : A → Prop) (f : A → B → A) (l : list B) a :
  (∀ a x, I a → I (f a x)) → I a → I (foldl f a l).
Proof.
  intros Hf. revert a. induction l as [|x l IH]; intros a Ha; simpl; auto.
Qed.

(** X29: in every schedule table the header has one entry per workplace
    after the date column, and every date row has one entry more than the
    header. *)
Lemma schedule_array_row_lengths wl dl pre Value :
  length <$> schedule_array wl dl pre Value
  = length workplaces_header
    :: replicate (length dl) (length wps.ALL_WORKPLACES + 2)%nat.
Proof.
  unfold schedule_array.
  set (L := length workplaces_header
            :: replicate (length dl) (length wps.ALL_WORKPLACES + 2)%nat).
  set (I := fun array : list (list string) => length <$> array = L).
  apply (foldl_invariant I).
  { intros array [dd day] Ha. apply (foldl_invariant I); [|done].
    intros array' [ww worker] Ha'. apply (foldl_invariant I); [|done].
    intros array'' [pp workplace] Ha''. case_bool_decide; [|done].
    unfold I. by rewrite lengths_set_cell. }
  apply (foldl_invariant I).
  { intros array [[n day] workplace] Ha.
    destruct (day_index dl day); [|done].
    destruct (wps.index wps.ALL_WORKPLACES workplace); [|done].
    unfold I. by rewrite lengths_set_cell. }
  apply (foldl_invariant I).
  { intros array ii Ha. unfold I. by rewrite lengths_set_cell. }
  unfold I, L, num_days.
  rewrite list_fmap_insert, fmap_replicate, length_replicate.
  by rewrite Nat.add_1_r.
Qed.

(** ** What the quota check prints *)

Lemma for_Add_printed {A} (l : list A) (c : A → M unit) s :
  (∀ x s, printed (c x s).2 = printed s) →
  printed (for_ l c s).2 = printed s.
Proof.
  intros Hc. revert s. induction l as [|x l IH]; intros s; simpl; [done|].
  unfold mbind, M_bind. specialize (Hc x s).
  destruct (c x s) as [[[]| |e] s1]; simpl in *; [|done..].
  by rewrite IH.
Qed.

(** X30: the quota check of [unconnected_quotas] prints a warning for the
    abdominal-duty quotas when they do not add up to the number of days, one
    for the ABD prip. quotas when they do not add up to the number of
    workdays, and the warning about the trauma on-call quota exactly when the
    abdominal-duty quotas do not add up to the number of days; the
    constraints added afterwards print nothing. *)
Lemma unconnected_quotas_printed wl dl s :
  let sum_abd_dez := Zsum (works_abd_dez <$> wl) in
  let sum_abd_prip := Zsum (works_abd_prip <$> wl) in
  let sum_travma_prip := Zsum (works_travma_prip <$> wl) in
  printed (unconnected_quotas wl dl s).2
  = printed s
    ++ (if bool_decide (sum_abd_dez ≠ Z.of_nat (num_days dl))
        then [TotalAbdDez sum_abd_dez (num_days dl)] else [])
    ++ (if bool_decide (sum_abd_prip ≠ Z.of_nat (num_workdays dl))
        then [TotalAbdPrip sum_abd_prip (num_workdays dl)] else [])
    ++ (if bool_decide (sum_abd_dez ≠ Z.of_nat (num_days dl))
        then [TotalTravmaPrip sum_travma_prip (num_days dl)] else []).
Proof.
  intros sum_abd_dez sum_abd_prip sum_travma_prip.
  unfold unconnected_quotas. fold sum_abd_dez sum_abd_prip sum_travma_prip.
  unfold mbind, M_bind.
  destruct (bool_decide (sum_abd_dez ≠ Z.of_nat (num_days dl)));
    destruct (bool_decide (sum_abd_prip ≠ Z.of_nat (num_workdays dl)));
    simpl;
    (rewrite for_Add_printed;
     [simpl; by rewrite <- ?app_assoc, ?app_nil_r | by intros [ww worker] s']).
Qed.

(** ** What the availability check requires for TRAVMA *)

Lemma collect_available_travma wl dd day a s r s' :
  collect_available wl dd day a s = (Ok r, s') →
  avail_workers_travma r ≠ [] →
  avail_workers_travma a ≠ [] ∨ ∃ w, w ∈ wl ∧ travma_available w dd.
Proof.
  unfold collect_available. revert a s.
  induction wl as [|w wl IH]; intros a s H Hr; simpl in H.
  - apply mret_ok in H as [-> _]. by left.
  - apply bind_ok in H as (a' & s1 & Hbody & H).
    destruct (IH _ _ H Hr) as [Ha'|(w' & Hw' & Hav)];
      [|right; exists w'; split; [by right | done]].
    apply bind_ok in Hbody as (e & s2 & He & Hbody).
    apply lookup_or_ok in He as [He ->].
    destruct (unpack e) as [avail_day avail_night] eqn:Eu.
    destruct (in_1_0 avail_day) eqn:Ed; simpl in Hbody;
      [destruct (in_1_0 avail_night) eqn:En; simpl in Hbody|];
      apply mret_ok in Hbody as [-> _]; [|by left..].
    simpl in Ha'. case_bool_decide as Hq; [|by left].
    destruct (avail_workers_travma a) eqn:Ea; [|by left].
    right. exists w. split; [by left|]. exists e. rewrite Eu. done.
Qed.

Lemma when_exit_ok c m1 m2 s u s' :
  when c (print m1;; print m2;; exit) s = (Ok u, s') → c = false.
Proof. destruct c; [discriminate | done]. Qed.

(** The check passes only if, on every day, some worker with a trauma
    on-call quota is available: a preassigned TRAVMA slot does not help. *)
Lemma check_requires_travma_worker wl dl pc s e s' :
  check_unconnected_availability wl dl pc s = (Ok e, s') →
  ∀ dd day, dl !! dd = Some day → ∃ w, w ∈ wl ∧ travma_available w dd.
Proof.
  intros H dd day Hdd. unfold check_unconnected_availability in H.
  apply for_acc_ok in H as [_ H]; [|solve_mono].
  destruct (H (dd, day)) as (acc & acc' & s1 & s2 & Hbody & _);
    [by apply elem_of_enumerate|].
  cbv zeta in Hbody.
  apply bind_ok in Hbody as (a & s3 & Hcollect & Hbody).
  apply bind_ok in Hbody as ([] & s4 & _ & Hbody).
  apply bind_ok in Hbody as ([] & s5 & _ & Hbody).
  apply bind_ok in Hbody as ([] & s6 & Htravma & _).
  apply when_exit_ok in Htravma.
  apply bool_decide_eq_false in Htravma.
  destruct (collect_available_travma _ _ _ _ _ _ _ Hcollect)
    as [Hnil|Hw]; [| done | done].
  intros Hnil. apply Htravma. by rewrite Hnil.
Qed.

(** ** What the preschedule binding records *)

(** Only the entries of people outside the roster are recorded as
    preassigned slots. *)
Lemma set_preschedule_result wl dl pre s pc s' :
  set_preschedule wl dl pre s = (Ok pc, s') →
  pc = off_roster_slots wl dl pre.
Proof.
  unfold set_preschedule.
  enough (∀ acc s,
    for_acc pre acc
      (fun '(n, day, workplace) preschedule_constraints =>
         day_ndx ← lookup_or ValueError (day_index dl day);
         workplace_ndx ←
           lookup_or ValueError (wps.index wps.ALL_WORKPLACES workplace);
         if bool_decide (n ∈ worker_names wl) then
           ww_ndx ← lookup_or ValueError (wps.index (worker_names wl) n);
           Add (Linear (work ww_ndx day_ndx workplace_ndx) Req 1 None);;
           mret preschedule_constraints
         else
           for_ (range (num_workers wl)) (fun ww =>
             Add (Linear (work ww day_ndx workplace_ndx) Req 0 None));;
           mret (preschedule_constraints ++ [(day_ndx, workplace_ndx)])) s
    = (Ok pc, s') →
    pc = acc ++ off_roster_slots wl dl pre) as Hgen
    by (intros H; by apply Hgen in H).
  unfold off_roster_slots.
  induction pre as [|[[n day] wp] pre IH]; intros acc s0 H; simpl in H.
  - apply mret_ok in H as [-> _]. simpl. by rewrite app_nil_r.
  - apply bind_ok in H as (acc' & s1 & Hbody & H). apply IH in H.
    apply bind_ok in Hbody as (dd & s2 & Hdd & Hbody).
    apply lookup_or_ok in Hdd as [Hdd ->].
    apply bind_ok in Hbody as (pp & s3 & Hpp & Hbody).
    apply lookup_or_ok in Hpp as [Hpp ->].
    simpl. rewrite Hdd, Hpp. simpl.
    destruct (bool_decide (n ∈ worker_names wl)).
    + inv_binds Hbody. apply mret_ok in Hbody as [-> _]. done.
    + inv_binds Hbody. apply mret_ok in Hbody as [-> _].
      rewrite H. simpl. by rewrite <- app_assoc.
Qed.

(** An entry that names a worker of the roster pins that worker's variable
    to 1. *)
Lemma set_preschedule_pins wl dl pre s pc s' n day workplace :
  set_preschedule wl dl pre s = (Ok pc, s') →
  (n, day, workplace) ∈ pre →
  n ∈ worker_names wl →
  ∃ ww dd pp,
    wps.index (worker_names wl) n = Some ww
    ∧ day_index dl day = Some dd
    ∧ wps.index wps.ALL_WORKPLACES workplace = Some pp
    ∧ Linear (work ww dd pp) Req 1 None ∈ constraints (model s').
Proof.
  intros H Hin Hn. unfold set_preschedule in H.
  apply for_acc_ok in H as [_ H]; [|solve_mono].
  destruct (H _ Hin) as (acc & acc' & s1 & s2 & Hbody & _ & Hs2).
  simpl in Hbody.
  apply bind_ok in Hbody as (dd & s3 & Hdd & Hbody).
  apply lookup_or_ok in Hdd as [Hdd ->].
  apply bind_ok in Hbody as (pp & s4 & Hpp & Hbody).
  apply lookup_or_ok in Hpp as [Hpp ->].
  rewrite (bool_decide_eq_true_2 _ Hn) in Hbody.
  apply bind_ok in Hbody as (ww & s5 & Hww & Hbody).
  apply lookup_or_ok in Hww as [Hww ->].
  apply bind_ok in Hbody as ([] & s6 & Hadd & Hret).
  apply mret_ok in Hret as [_ ->].
  exists ww, dd, pp. repeat split; try done.
  eapply extends_constraint; [exact Hs2|]. by eapply Add_ok.
Qed.

(** ** Where the code departs from the stated properties *)

(** The value of the objective, term by term. *)
Lemma objective_value cfg nights dist v :
  eval v (objective_function cfg nights dist)
  = weight_equal_workload cfg * (v max_workload - v min_workload)
    + weight_consecutive_nights cfg * Zsum (v <$> nights)
    + weight_equally_distributed_workplaces cfg * Zsum (v <$> dist)
    + weight_preferred_day_assignment cfg * preferred_count v
    + weight_preferred_workplace_assignment cfg
      * v penalty_preferential_workplace
    - weight_weekend_travmaprip cfg * v bonus_weekend_travmaprip_senior.
Proof.
  unfold objective_function, preferred_count. cbn [eval].
  change (foldr _ 0 ?es) with (eval v (ESum es)).
  rewrite !eval_ESum, <- !list_fmap_compose.
  change (eval v ∘ EVar) with v. lia.
Qed.

(** C1, evaluated on an instance: one Monday, one open day station, two
    specialists who can take it; HORVAT marked the day +1, KRANJC did not.
    Both schedules are solutions, they differ in the preferential-assignment
    count (1 against 0) and agree on every other term of the objective, the
    weight is positive, and the schedule with the preferred assignment has
    the larger value of the minimized objective: 11 against 9. *)
Theorem preferred_assignment_raises_objective :
  solved Preference.roster [monday] Preference.preschedule Preference.config
         Preference.preferred
  ∧ solved Preference.roster [monday] Preference.preschedule Preference.config
           Preference.indifferent
  ∧ preferred_count Preference.preferred = 1
  ∧ preferred_count Preference.indifferent = 0
  ∧ Preference.preferred max_workload = Preference.indifferent max_workload
  ∧ Preference.preferred min_workload = Preference.indifferent min_workload
  ∧ Preference.preferred penalty_preferential_workplace
    = Preference.indifferent penalty_preferential_workplace
  ∧ Preference.preferred bonus_weekend_travmaprip_senior
    = Preference.indifferent bonus_weekend_travmaprip_senior
  ∧ weight_preferred_day_assignment Preference.config = 2
  ∧ (objective
     <$> built Preference.roster [monday] Preference.preschedule
               Preference.config)
    = Some (Some (objective_function Preference.config [] []))
  ∧ eval Preference.preferred (objective_function Preference.config [] [])
    = 11
  ∧ eval Preference.indifferent (objective_function Preference.config [] [])
    = 9.
Proof.
  split; [exact preference_solved_preferred|].
  split; [exact preference_solved_indifferent|].
  repeat split; vm_compute; reflexivity.
Qed.

(** C2, evaluated on an instance: one Monday on which ABDOMEN, ABD prip.
    and TRAVMA are all preassigned to a person outside the roster.  The three
    slots are recorded as preassigned, the checks of ABDOMEN and ABD prip.
    pass, and the run still stops at the TRAVMA check and reports TRAVMA on
    that day. *)
Theorem preassigned_travma_day_aborts :
  let run := construct Preassigned.roster [monday] Preassigned.preschedule
               (demo_config 1) initial in
  (set_preschedule Preassigned.roster [monday] Preassigned.preschedule
     initial).1
  = Ok [(0, wps.abdomen_ndx); (0, wps.abd_prip_ndx); (0, wps.travma_ndx)]%nat
  ∧ run.1 = Exit
  ∧ printed run.2 = [NobodyAvailable "TRAVMA" monday; AddFakeEntry].
Proof. repeat split; vm_compute; reflexivity. Qed.

(** C3, evaluated on an instance: ZUPAN is "Krožeči" in the wishes slot
    only, and the configuration asks for five assignments on a one-day
    horizon.  The construction ends normally, and the schedule in which
    ZUPAN has no assignment is a solution; with the sentinel in the master
    slot the same input is aborted for lack of eligible days. *)
Theorem wishes_only_rotating_worker_is_not_pinned :
  specialty_wishes Rotating.wishes_only = "Krožeči"
  ∧ krozeci_scheduled Rotating.config = 5
  ∧ solved (Rotating.roster Rotating.wishes_only) [monday]
           Rotating.preschedule Rotating.config Rotating.schedule
  ∧ Rotating.assignments Rotating.schedule 0 1 = 0
  ∧ (construct (Rotating.roster Rotating.master_only) [monday]
       Rotating.preschedule Rotating.config initial).1
    = Raise (KrozeciException "ZUPAN" 5 1).
Proof.
  split; [reflexivity|]. split; [reflexivity|].
  split; [exact rotating_solved|].
  split; vm_compute; reflexivity.
Qed.

(** C7, evaluated on an instance: the solved long weekend.  The table has
    D+1 = 4 rows; the header has |workplaces|+1 = 12 entries, and every date
    row has 13: one more column than the header, always empty. *)
Theorem schedule_rows_have_an_extra_column :
  solved Demo.roster Demo.days Demo.preschedule Demo.config Demo.schedule
  ∧ (length wps.ALL_WORKPLACES + 1 = 12)%nat
  ∧ length <$> schedule_array Demo.roster Demo.days Demo.preschedule
                 Demo.schedule
    = [12; 13; 13; 13]%nat
  ∧ schedule_array Demo.roster Demo.days Demo.preschedule Demo.schedule
    = [ workplaces_header;
        [ "2025-01-03"; "ZUPAN"; "ZUNANJI"; "ZUNANJI"; "ZUNANJI"; "ZUNANJI";
          "ZUNANJI"; "ZUNANJI"; "ZUNANJI"; "ZUNANJI"; "ZUNANJI"; "KOS"; "" ];
        [ "2025-01-04"; "ZUNANJI"; "ZUNANJI"; "NOVAK"; "ZUNANJI"; "ZUNANJI";
          "NOVAK"; "ZUNANJI"; "ZUNANJI"; "ZUNANJI"; ""; "KOS"; "" ];
        [ "2025-01-05"; "ZUNANJI"; "ZUNANJI"; "ZUNANJI"; "ZUNANJI"; "ZUNANJI";
          "ZUNANJI"; "ZUNANJI"; "ZUNANJI"; "ZUNANJI"; ""; "ZUNANJI"; "" ] ].
Proof.
  split; [exact demo_solved|]. repeat split; vm_compute; reflexivity.
Qed.

(** C8, evaluated on two instances: with one day and a trauma on-call quota
    sum of 2, the construction ends normally and no quota warning is printed,
    because the abdominal-duty sum equals the number of days; and with a
    trauma on-call sum equal to the number of days but an abdominal-duty sum
    of 0, the trauma warning is printed. *)
Theorem travma_quota_warning_follows_abd_dez :
  let run := construct [Quota.kos] [monday] [] (demo_config 1) initial in
  let run' := construct [Quota.kovac] [monday] Quota.abdomen_preassigned
                (demo_config 1) initial in
  Zsum (works_travma_prip <$> [Quota.kos]) = 2
  ∧ Zsum (works_abd_dez <$> [Quota.kos]) = 1
  ∧ num_days [monday] = 1%nat
  ∧ ended_ok run.1 = true
  ∧ printed run.2 = [ProblemMaxNights 0 3]
  ∧ Zsum (works_travma_prip <$> [Quota.kovac]) = 1
  ∧ Zsum (works_abd_dez <$> [Quota.kovac]) = 0
  ∧ ended_ok run'.1 = true
  ∧ printed run'.2
    = [TotalAbdDez 0 1; TotalTravmaPrip 1 1; ProblemMaxNights 0 3].
Proof. repeat split; vm_compute; reflexivity. Qed.

(** C10, evaluated on an instance: one Monday whose TRAVMA slot is
    preassigned to a person outside the roster, with a worker available for
    the two abdominal workplaces.  The slot is recorded as preassigned and
    its coverage constraint would ask for nobody, yet the pre-model check
    does not count it as covered: the run stops and reports TRAVMA. *)
Theorem outside_trauma_slot_is_not_covered :
  let run := construct OutsideTrauma.roster [monday]
               OutsideTrauma.preschedule (demo_config 1) initial in
  bool_decide ("ZUNANJI" ∈ worker_names OutsideTrauma.roster) = false
  ∧ (set_preschedule OutsideTrauma.roster [monday] OutsideTrauma.preschedule
       initial).1
    = Ok [(0%nat, wps.travma_ndx)]
  ∧ coverage_total [(0%nat, wps.travma_ndx)] 0 monday wps.travma_ndx = 0
  ∧ run.1 = Exit
  ∧ printed run.2 = [NobodyAvailable "TRAVMA" monday; AddFakeEntry].
Proof. repeat split; vm_compute; reflexivity. Qed.

(** ** Further properties of solved schedules: the hard constraints *)

Lemma eval_shifts v ww dd places :
  eval v (shifts ww dd places) = count_on v ww dd places.
Proof.
  unfold shifts, count_on. by rewrite eval_ESum, <- list_fmap_compose.
Qed.

Lemma ran_set_preschedule_slots wl dl pre pc s :
  ran (set_preschedule wl dl pre) pc s → pc = off_roster_slots wl dl pre.
Proof. intros (s1 & s2 & H & _). by eapply set_preschedule_result. Qed.

(** The value each coverage sum is pinned to. *)
Lemma coverage_value wl dl pre cfg v dd day pp :
  solved wl dl pre cfg v →
  dl !! dd = Some day →
  (pp < num_workplaces)%nat →
  workers_on v (length wl) dd pp
  = coverage_total (off_roster_slots wl dl pre) dd day pp.
Proof.
  intros Hs Hdd Hpp.
  apply solved_inv in Hs as (r & s & Hc & Hv). runs_of Hc.
  apply ran_set_preschedule_slots in Hpre as ->.
  destruct Hsite as (s1 & s2 & Hrun & Hext).
  unfold one_worker_per_site in Hrun.
  apply for_ok in Hrun as [_ Hrun]; [|solve_mono].
  destruct (Hrun (dd, day)) as (sa & sb & Hb & _ & Hsb);
    [by apply elem_of_enumerate|].
  apply for_ok in Hb as [_ Hb]; [|solve_mono].
  destruct (Hb pp) as (sc & sd & Hadd & _ & Hsd); [by apply elem_of_range|].
  apply Add_ok in Hadd.
  match type of Hadd with ?c ∈ _ => assert (holds v c) as H end.
  { eapply solves_constraint; [done|].
    eapply extends_constraint; [|exact Hadd]. chain_extends. }
  apply holds_Linear in H. cbn [rel_holds] in H.
  rewrite eval_ESum, <- list_fmap_compose in H. cbn [eval] in H.
  unfold workers_on. unfold num_workers, compose in H. cbn [eval] in H.
  by rewrite H.
Qed.

(** X1: in every solved schedule each slot is covered as the coverage
    constraint asks: nobody works a slot preassigned to a person outside the
    roster, nobody works ABD prip. on a day that is not a workday, and every
    other slot has exactly one worker. *)
Theorem coverage_of_slots wl dl pre cfg v dd day pp :
  solved wl dl pre cfg v →
  dl !! dd = Some day →
  (pp < num_workplaces)%nat →
  workers_on v (length wl) dd pp
  = if bool_decide ((dd, pp) ∈ off_roster_slots wl dl pre) then 0
    else if bool_decide (pp = wps.abd_prip_ndx) && negb (is_workday day) then 0
    else 1.
Proof.
  intros Hs Hdd Hpp.
  rewrite (coverage_value _ _ _ _ _ _ _ _ Hs Hdd Hpp).
  unfold coverage_total, is_preassigned.
  by destruct (bool_decide _).
Qed.

Lemma coverage_of_slots_witness :
  solved Demo.roster Demo.days Demo.preschedule Demo.config Demo.schedule
  ∧ Demo.days !! 1%nat = Some Demo.saturday
  ∧ (2 < num_workplaces)%nat
  ∧ workers_on Demo.schedule (length Demo.roster) 1 2 = 1.
Proof.
  assert (solved Demo.roster Demo.days Demo.preschedule Demo.config
                 Demo.schedule) as Hs
    by (apply decide_solved; vm_compute; reflexivity).
  split; [exact Hs|]. split; [reflexivity|].
  split; [vm_compute; lia|].
  exact (coverage_of_slots Demo.roster Demo.days Demo.preschedule Demo.config
           Demo.schedule 1 Demo.saturday 2 Hs eq_refl
           ltac:(vm_compute; lia)).
Defined.

(** X2: in every solved schedule a worker is never assigned to a workplace
    listed under NO in the worker's workplace dictionary. *)
Theorem never_works_a_NO_workplace wl dl pre cfg v ww worker dd pp :
  solved wl dl pre cfg v →
  wl !! ww = Some worker →
  (dd < length dl)%nat →
  (pp < num_workplaces)%nat →
  pp ∈ NO (workplaces worker) →
  v (work ww dd pp) = 0.
Proof.
  intros Hs Hww Hdd Hpp Hno.
  apply solved_inv in Hs as (r & s & Hc & Hv). runs_of Hc.
  destruct Hnot as (s1 & s2 & Hrun & Hext).
  unfold not_all_workplaces in Hrun.
  apply for_ok in Hrun as [_ Hrun]; [|solve_mono].
  destruct (Hrun (ww, worker)) as (sa & sb & Hb & _ & Hsb);
    [by apply elem_of_enumerate|].
  apply for_ok in Hb as [_ Hb]; [|solve_mono].
  destruct (Hb dd) as (sc & sd & Hd & _ & Hsd); [by apply elem_of_range|].
  apply for_ok in Hd as [_ Hd]; [|solve_mono].
  destruct (Hd pp) as (se & sf & Hadd & _ & Hsf); [by apply elem_of_range|].
  unfold mem in Hadd. rewrite (bool_decide_eq_true_2 _ Hno) in Hadd.
  apply Add_ok in Hadd.
  match type of Hadd with ?c ∈ _ => assert (holds v c) as H end.
  { eapply solves_constraint; [done|].
    eapply extends_constraint; [|exact Hadd]. chain_extends. }
  by apply holds_Linear in H.
Qed.

Lemma never_works_a_NO_workplace_witness :
  solved Demo.roster Demo.days Demo.preschedule Demo.config Demo.schedule
  ∧ Demo.schedule (work 1 0 0) = 0.
Proof.
  assert (solved Demo.roster Demo.days Demo.preschedule Demo.config
                 Demo.schedule) as Hs
    by (apply decide_solved; vm_compute; reflexivity).
  split; [exact Hs|].
  apply (never_works_a_NO_workplace Demo.roster Demo.days Demo.preschedule
           Demo.config Demo.schedule 1 Demo.kos 0 0 Hs eq_refl).
  - vm_compute; lia.
  - vm_compute; lia.
  - apply (bool_decide_unpack _). vm_compute. exact I.
Defined.

(** X3: in every solved schedule each worker is assigned to ABDOMEN and to
    TRAVMA exactly as many times as the worker's quota says, and to ABD prip.
    exactly as many workdays as its quota says. *)
Theorem unconnected_quotas_are_met wl dl pre cfg v ww worker :
  solved wl dl pre cfg v →
  wl !! ww = Some worker →
  days_on v ww wps.abdomen_ndx (range (length dl)) = works_abd_dez worker
  ∧ days_on v ww wps.abd_prip_ndx (workday_indices dl) = works_abd_prip worker
  ∧ days_on v ww wps.travma_ndx (range (length dl)) = works_travma_prip worker.
Proof.
  intros Hs Hww.
  apply solved_inv in Hs as (r & s & Hc & Hv). runs_of Hc.
  destruct Hquotas as (s1 & s2 & Hrun & Hext).
  unfold unconnected_quotas in Hrun. cbv zeta in Hrun.
  inv_binds Hrun.
  apply for_ok in Hrun as [_ Hrun]; [|solve_mono].
  destruct (Hrun (ww, worker)) as (sa & sb & Hb & _ & Hsb);
    [by apply elem_of_enumerate|].
  inv_binds Hb. note_all_extends.
  apply Add_ok in Hb.
  assert (∀ c s', c ∈ constraints (model s') → extends s' s → holds v c) as Hc.
  { intros c s' Hin He. eapply solves_constraint; [done|].
    eapply extends_constraint; [exact He | exact Hin]. }
  apply Add_ok in Hstep2, Hstep3.
  apply Hc in Hstep2, Hstep3, Hb; [| chain_extends..].
  apply holds_Linear in Hstep2, Hstep3, Hb. cbn [rel_holds] in *.
  rewrite eval_ESum, <- list_fmap_compose in Hstep2.
  rewrite eval_ESum, <- list_fmap_compose in Hstep3.
  rewrite eval_ESum, <- list_fmap_compose in Hb.
  cbn [eval] in *.
  unfold days_on, workday_indices. rewrite <- list_fmap_compose.
  split; [exact Hstep2|]. split; [|exact Hb].
  rewrite <- Hstep3. f_equal. apply list_fmap_ext. by intros _ [dd day] _.
Qed.

Lemma unconnected_quotas_are_met_witness :
  solved Demo.roster Demo.days Demo.preschedule Demo.config Demo.schedule
  ∧ Demo.roster !! 1%nat = Some Demo.kos
  ∧ days_on Demo.schedule 1 wps.travma_ndx (range (length Demo.days)) = 2.
Proof.
  assert (solved Demo.roster Demo.days Demo.preschedule Demo.config
                 Demo.schedule) as Hs
    by (apply decide_solved; vm_compute; reflexivity).
  split; [exact Hs|]. split; [reflexivity|].
  destruct (unconnected_quotas_are_met Demo.roster Demo.days Demo.preschedule
              Demo.config Demo.schedule 1 Demo.kos Hs eq_refl)
    as (_ & _ & H).
  exact H.
Defined.

Lemma count_on_nonneg v ww dd places :
  (∀ q, q ∈ places → 0 ≤ v (work ww dd q)) → 0 ≤ count_on v ww dd places.
Proof.
  intros H. apply Zsum_nonneg, Forall_fmap, Forall_forall. intros q Hq.
  by apply H.
Qed.

Lemma count_on_ge v ww dd places pp :
  (∀ q, q ∈ places → 0 ≤ v (work ww dd q)) →
  pp ∈ places → v (work ww dd pp) ≤ count_on v ww dd places.
Proof.
  intros H Hpp. apply Zsum_elem_le.
  - apply Forall_fmap, Forall_forall. intros q Hq. by apply H.
  - apply list_elem_of_fmap. by exists pp.
Qed.

Lemma count_on_two v ww dd places p q :
  (∀ r, r ∈ places → 0 ≤ v (work ww dd r)) →
  p ∈ places → q ∈ places → p ≠ q →
  v (work ww dd p) + v (work ww dd q) ≤ count_on v ww dd places.
Proof.
  intros H Hp Hq Hne.
  apply list_elem_of_lookup in Hp as [i Hi].
  apply list_elem_of_lookup in Hq as [j Hj].
  apply (Zsum_two_le (fun r => v (work ww dd r)) places i j p q); auto.
  intros ->. congruence.
Qed.

Lemma places_in_range places pp :
  places = wps.range_day_workplaces ∨ places = wps.range_night_workplaces
  ∨ places = wps.range_unconnected_workplaces →
  pp ∈ places → (pp < num_workplaces)%nat.
Proof.
  intros [->|[->| ->]] H; apply elem_of_seq in H; vm_compute in H |- *; lia.
Qed.

(** Inside a solved schedule the [work] variables of the roster are 0 or 1. *)
Lemma work_values wl dl pre cfg v ww dd :
  solved wl dl pre cfg v →
  (ww < length wl)%nat → (dd < length dl)%nat →
  ∀ pp, (pp < num_workplaces)%nat →
        0 ≤ v (work ww dd pp) ≤ 1.
Proof.
  intros Hs Hww Hdd pp Hpp.
  destruct (work_is_boolean _ _ _ _ _ _ _ _ Hs Hww Hdd Hpp) as [-> | ->]; lia.
Qed.

(** X4: in every solved schedule nobody works a night workplace on one day
    and a day workplace on the next day. *)
Theorem no_day_shift_after_night wl dl pre cfg v ww dd pn pd :
  solved wl dl pre cfg v →
  (ww < length wl)%nat →
  (S dd < length dl)%nat →
  pn ∈ wps.range_night_workplaces →
  pd ∈ wps.range_day_workplaces →
  ¬ (assigned v ww dd pn ∧ assigned v ww (S dd) pd).
Proof.
  intros Hs Hww Hdd Hpn Hpd [Hn Hd]. unfold assigned in *.
  assert (∀ d, (d < length dl)%nat → ∀ places q,
            places = wps.range_day_workplaces
            ∨ places = wps.range_night_workplaces
            ∨ places = wps.range_unconnected_workplaces →
            q ∈ places → 0 ≤ v (work ww d q)) as Hpos.
  { intros d Hd' places q Hpl Hq.
    eapply work_values; eauto using places_in_range. }
  apply solved_inv in Hs as (r & s & Hc & Hv). runs_of Hc.
  destruct Hnd as (s1 & s2 & Hrun & Hext).
  unfold night_then_day in Hrun.
  apply for_ok in Hrun as [_ Hrun]; [|solve_mono].
  apply lookup_lt_is_Some in Hww as [worker Hw].
  destruct (Hrun (ww, worker)) as (sa & sb & Hb & _ & Hsb);
    [by apply elem_of_enumerate|].
  apply for_ok in Hb as [_ Hb]; [|solve_mono].
  destruct (Hb dd) as (sc & sd & Hadd & _ & Hsd).
  { apply elem_of_range. unfold num_days. clear - Hdd. lia. }
  apply Add_ok in Hadd.
  match type of Hadd with ?c ∈ _ => assert (holds v c) as H end.
  { eapply solves_constraint; [done|].
    eapply extends_constraint; [|exact Hadd]. chain_extends. }
  apply holds_Linear in H. cbn [rel_holds eval] in H.
  rewrite !eval_shifts in H. replace (dd + 1)%nat with (S dd) in H by lia.
  assert (dd < length dl)%nat as Hdd0 by (clear - Hdd; lia).
  assert (v (work ww dd pn) ≤ count_on v ww dd wps.range_night_workplaces)
    as L1'.
  { apply count_on_ge; [|done]. intros q Hq.
    apply (Hpos dd Hdd0 wps.range_night_workplaces); auto. }
  assert (v (work ww (S dd) pd)
          ≤ count_on v ww (S dd) wps.range_day_workplaces) as L2'.
  { apply count_on_ge; [|done]. intros q Hq.
    apply (Hpos (S dd) Hdd wps.range_day_workplaces); auto. }
  clear - H L1' L2' Hn Hd. lia.
Qed.

Lemma no_day_shift_after_night_witness :
  solved Demo.roster Demo.days Demo.preschedule Demo.config Demo.schedule
  ∧ ¬ (assigned Demo.schedule 0 1 5 ∧ assigned Demo.schedule 0 2 0).
Proof.
  assert (solved Demo.roster Demo.days Demo.preschedule Demo.config
                 Demo.schedule) as Hs
    by (apply decide_solved; vm_compute; reflexivity).
  split; [exact Hs|].
  apply (no_day_shift_after_night Demo.roster Demo.days Demo.preschedule
           Demo.config Demo.schedule 0 1 5 0 Hs).
  - vm_compute; lia.
  - vm_compute; lia.
  - apply (bool_decide_unpack _). vm_compute. exact I.
  - apply (bool_decide_unpack _). vm_compute. exact I.
Defined.

Lemma work_nonneg_on wl dl pre cfg v ww dd places :
  solved wl dl pre cfg v →
  (ww < length wl)%nat → (dd < length dl)%nat →
  places = wps.range_day_workplaces ∨ places = wps.range_night_workplaces
  ∨ places = wps.range_unconnected_workplaces →
  ∀ q, q ∈ places → 0 ≤ v (work ww dd q).
Proof.
  intros Hs Hww Hdd Hpl q Hq.
  eapply work_values; eauto using places_in_range.
Qed.

(** X5: in every solved schedule nobody works a day workplace and a night
    workplace on the same workday. *)
Theorem no_day_and_night_on_a_workday wl dl pre cfg v ww dd day pd pn :
  solved wl dl pre cfg v →
  (ww < length wl)%nat →
  dl !! dd = Some day →
  is_workday day = true →
  pd ∈ wps.range_day_workplaces →
  pn ∈ wps.range_night_workplaces →
  ¬ (assigned v ww dd pd ∧ assigned v ww dd pn).
Proof.
  intros Hs Hww Hdd Hwork Hpd Hpn [Hd Hn]. unfold assigned in *.
  apply lookup_lt_Some in Hdd as Hlt.
  pose proof (work_nonneg_on _ _ _ _ _ _ _ wps.range_day_workplaces
                Hs Hww Hlt ltac:(auto)) as Pd.
  pose proof (work_nonneg_on _ _ _ _ _ _ _ wps.range_night_workplaces
                Hs Hww Hlt ltac:(auto)) as Pn.
  apply solved_inv in Hs as (r & s & Hc & Hv). runs_of Hc.
  destruct Hwd as (s1 & s2 & Hrun & Hext).
  unfold workday_day_and_night in Hrun.
  apply for_ok in Hrun as [_ Hrun]; [|solve_mono].
  apply lookup_lt_is_Some in Hww as [worker Hw].
  destruct (Hrun (ww, worker)) as (sa & sb & Hb & _ & Hsb);
    [by apply elem_of_enumerate|].
  apply for_ok in Hb as [_ Hb]; [|solve_mono].
  destruct (Hb (dd, day)) as (sc & sd & Hadd & _ & Hsd);
    [by apply elem_of_enumerate|].
  rewrite Hwork in Hadd. apply Add_ok in Hadd.
  match type of Hadd with ?c ∈ _ => assert (holds v c) as H end.
  { eapply solves_constraint; [done|].
    eapply extends_constraint; [|exact Hadd]. chain_extends. }
  apply holds_Linear in H. cbn [rel_holds eval] in H.
  rewrite !eval_shifts in H.
  pose proof (count_on_ge v ww dd _ pd Pd Hpd).
  pose proof (count_on_ge v ww dd _ pn Pn Hpn).
  clear - H H0 H1 Hd Hn. lia.
Qed.

Lemma no_day_and_night_on_a_workday_witness :
  solved Demo.roster Demo.days Demo.preschedule Demo.config Demo.schedule
  ∧ ¬ (assigned Demo.schedule 2 0 0 ∧ assigned Demo.schedule 2 0 5).
Proof.
  assert (solved Demo.roster Demo.days Demo.preschedule Demo.config
                 Demo.schedule) as Hs
    by (apply decide_solved; vm_compute; reflexivity).
  split; [exact Hs|].
  apply (no_day_and_night_on_a_workday Demo.roster Demo.days Demo.preschedule
           Demo.config Demo.schedule 2 0 Demo.friday 0 5 Hs).
  - vm_compute; lia.
  - reflexivity.
  - reflexivity.
  - apply (bool_decide_unpack _). vm_compute. exact I.
  - apply (bool_decide_unpack _). vm_compute. exact I.
Defined.

(** The three availability constraints of one worker and day. *)
Lemma availability_values wl dl pre cfg v ww worker dd e :
  solved wl dl pre cfg v →
  wl !! ww = Some worker →
  (dd < length dl)%nat →
  workdates worker !! dd = Some e →
  let day_count := count_on v ww dd wps.range_day_workplaces in
  let night_count := count_on v ww dd wps.range_night_workplaces in
  let unconnected_count :=
    count_on v ww dd wps.range_unconnected_workplaces in
  day_count ≤ 1 ∧ (in_1_0 (unpack e).1 = false → day_count = 0)
  ∧ night_count ≤ 1 ∧ (in_1_0 (unpack e).2 = false → night_count = 0)
  ∧ unconnected_count ≤ 1
  ∧ (in_1_0 (unpack e).1 && in_1_0 (unpack e).2 = false →
     unconnected_count = 0).
Proof.
  intros Hs Hww Hdd He day_count night_count unconnected_count.
  apply solved_inv in Hs as (r & s & Hc & Hv). runs_of Hc.
  destruct Havail as (s1 & s2 & Hrun & Hext).
  unfold availability in Hrun.
  apply for_ok in Hrun as [_ Hrun]; [|solve_mono].
  destruct (Hrun (ww, worker)) as (sa & sb & Hb & _ & Hsb);
    [by apply elem_of_enumerate|].
  apply for_ok in Hb as [_ Hb]; [|solve_mono].
  destruct (Hb dd) as (sc & sd & Hbody & _ & Hsd); [by apply elem_of_range|].
  apply bind_ok in Hbody as (e' & se & He' & Hbody).
  apply lookup_or_ok in He' as [He' ->]. rewrite He in He'. simplify_eq.
  destruct (unpack e') as [ad an]. cbn [fst snd].
  apply bind_ok in Hbody as ([] & sf & Hday & Hbody).
  apply bind_ok in Hbody as ([] & sg & Hnight & Hunc).
  assert (extends sf sg) as Efg.
  { eapply ok_extends; [|exact Hnight]. destruct (in_1_0 an); solve_mono. }
  assert (extends sg sd) as Egd.
  { eapply ok_extends; [|exact Hunc].
    destruct (in_1_0 ad && in_1_0 an); solve_mono. }
  assert (∀ c s', c ∈ constraints (model s') → extends s' sd → holds v c)
    as Hh.
  { intros c s' Hin He0. eapply solves_constraint; [done|].
    eapply extends_constraint; [|exact Hin]. chain_extends. }
  assert (day_count ≤ 1 ∧ (in_1_0 ad = false → day_count = 0)) as Hd.
  { destruct (in_1_0 ad); apply Add_ok in Hday;
      apply Hh in Hday; [| chain_extends | | chain_extends];
      apply holds_Linear in Hday; cbn [rel_holds eval] in Hday;
      rewrite eval_shifts in Hday; fold day_count in Hday;
      split; [done | done | lia | done]. }
  assert (night_count ≤ 1 ∧ (in_1_0 an = false → night_count = 0)) as Hn.
  { destruct (in_1_0 an); apply Add_ok in Hnight;
      apply Hh in Hnight; [| chain_extends | | chain_extends];
      apply holds_Linear in Hnight; cbn [rel_holds eval] in Hnight;
      rewrite eval_shifts in Hnight; fold night_count in Hnight;
      split; [done | done | lia | done]. }
  assert (unconnected_count ≤ 1
          ∧ (in_1_0 ad && in_1_0 an = false → unconnected_count = 0)) as Hu.
  { destruct (in_1_0 ad && in_1_0 an); apply Add_ok in Hunc;
      apply Hh in Hunc; [| reflexivity | | reflexivity];
      apply holds_Linear in Hunc; cbn [rel_holds eval] in Hunc;
      rewrite eval_shifts in Hunc; fold unconnected_count in Hunc;
      split; [done | done | lia | done]. }
  tauto.
Qed.

Lemma at_most_one_assigned v ww dd places :
  (∀ q, q ∈ places → 0 ≤ v (work ww dd q)) →
  count_on v ww dd places ≤ 1 →
  ∀ p q, p ∈ places → q ∈ places →
         assigned v ww dd p → assigned v ww dd q → p = q.
Proof.
  intros Hpos Hle p q Hp Hq Ap Aq. unfold assigned in *.
  destruct (decide (p = q)) as [|Hne]; [done|]. exfalso.
  pose proof (count_on_two v ww dd places p q Hpos Hp Hq Hne). lia.
Qed.

Lemma none_assigned v ww dd places :
  (∀ q, q ∈ places → 0 ≤ v (work ww dd q)) →
  count_on v ww dd places = 0 →
  ∀ p, p ∈ places → ¬ assigned v ww dd p.
Proof.
  intros Hpos Hz p Hp Ap. unfold assigned in *.
  pose proof (count_on_ge v ww dd places p Hpos Hp). lia.
Qed.

(** X6: in every solved schedule a worker has at most one day workplace, at
    most one night workplace and at most one unconnected workplace per day; no
    day workplace on a day whose day slot is not 0 or +1, no night workplace
    when the night slot is not 0 or +1, and no unconnected workplace unless
    both slots are. *)
Theorem availability_is_respected wl dl pre cfg v ww worker dd e :
  solved wl dl pre cfg v →
  wl !! ww = Some worker →
  (dd < length dl)%nat →
  workdates worker !! dd = Some e →
  (∀ places,
     places = wps.range_day_workplaces ∨ places = wps.range_night_workplaces
     ∨ places = wps.range_unconnected_workplaces →
     ∀ p q, p ∈ places → q ∈ places →
            assigned v ww dd p → assigned v ww dd q → p = q)
  ∧ (in_1_0 (unpack e).1 = false →
     ∀ p, p ∈ wps.range_day_workplaces → ¬ assigned v ww dd p)
  ∧ (in_1_0 (unpack e).2 = false →
     ∀ p, p ∈ wps.range_night_workplaces → ¬ assigned v ww dd p)
  ∧ (in_1_0 (unpack e).1 && in_1_0 (unpack e).2 = false →
     ∀ p, p ∈ wps.range_unconnected_workplaces → ¬ assigned v ww dd p).
Proof.
  intros Hs Hww Hdd He.
  apply lookup_lt_Some in Hww as Hlt.
  pose proof (work_nonneg_on _ _ _ _ _ _ _ wps.range_day_workplaces
                Hs Hlt Hdd ltac:(auto)) as Pd.
  pose proof (work_nonneg_on _ _ _ _ _ _ _ wps.range_night_workplaces
                Hs Hlt Hdd ltac:(auto)) as Pn.
  pose proof (work_nonneg_on _ _ _ _ _ _ _ wps.range_unconnected_workplaces
                Hs Hlt Hdd ltac:(auto)) as Pu.
  destruct (availability_values _ _ _ _ _ _ _ _ _ Hs Hww Hdd He)
    as (D1 & D0 & N1 & N0 & U1 & U0).
  split; [|split; [|split]].
  - intros places [->|[->| ->]]; by apply at_most_one_assigned.
  - intros H. apply none_assigned; auto.
  - intros H. apply none_assigned; auto.
  - intros H. apply none_assigned; auto.
Qed.

Lemma availability_is_respected_witness :
  solved Demo.roster Demo.days Demo.preschedule Demo.config Demo.schedule
  ∧ ∀ p q, p ∈ wps.range_day_workplaces → q ∈ wps.range_day_workplaces →
           assigned Demo.schedule 0 1 p → assigned Demo.schedule 0 1 q →
           p = q.
Proof.
  assert (solved Demo.roster Demo.days Demo.preschedule Demo.config
                 Demo.schedule) as Hs
    by (apply decide_solved; vm_compute; reflexivity).
  split; [exact Hs|].
  destruct (availability_is_respected Demo.roster Demo.days Demo.preschedule
              Demo.config Demo.schedule 0 Demo.novak 1 (WList 1 1) Hs eq_refl
              ltac:(vm_compute; lia) eq_refl) as [H _].
  apply H. left. reflexivity.
Defined.

Lemma eval_shifts_by_day v dl ww places :
  eval v (shifts_by_day dl ww places) = total_on v ww (length dl) places.
Proof.
  unfold shifts_by_day, total_on, count_on, num_days.
  rewrite eval_ESum, fmap_flat_map, Zsum_flat_map.
  apply Zsum_fmap_ext. intros dd _. by rewrite <- list_fmap_compose.
Qed.

(** X7: in every solved schedule a worker with a defined maximal number of
    day shifts has at most that many day-workplace assignments in the
    month. *)
Theorem day_shift_cap_holds wl dl pre cfg v ww worker cap :
  solved wl dl pre cfg v →
  wl !! ww = Some worker →
  max_num_dayshifts worker = Some cap →
  total_on v ww (length dl) wps.range_day_workplaces ≤ cap.
Proof.
  intros Hs Hww Hcap.
  apply solved_inv in Hs as (r & s & Hc & Hv). runs_of Hc.
  destruct Hlimited as (s1 & s2 & Hrun & Hext).
  unfold limited_day_shifts in Hrun.
  apply for_ok in Hrun as [_ Hrun]; [|solve_mono].
  destruct (Hrun (ww, worker)) as (sa & sb & Hadd & _ & Hsb);
    [by apply elem_of_enumerate|].
  rewrite Hcap in Hadd. apply Add_ok in Hadd.
  match type of Hadd with ?c ∈ _ => assert (holds v c) as H end.
  { eapply solves_constraint; [done|].
    eapply extends_constraint; [|exact Hadd]. chain_extends. }
  apply holds_Linear in H. cbn [rel_holds] in H.
  by rewrite eval_shifts_by_day in H.
Qed.

Lemma day_shift_cap_holds_witness :
  solved Limited.roster [monday] Limited.preschedule Limited.config
         Limited.schedule
  ∧ Limited.roster !! 0%nat = Some Limited.kranjc
  ∧ max_num_dayshifts Limited.kranjc = Some 1
  ∧ total_on Limited.schedule 0 (length [monday]) wps.range_day_workplaces ≤ 1.
Proof.
  assert (solved Limited.roster [monday] Limited.preschedule Limited.config
                 Limited.schedule) as Hs
    by (apply decide_solved; vm_compute; reflexivity).
  split; [exact Hs|]. split; [reflexivity|]. split; [reflexivity|].
  exact (day_shift_cap_holds Limited.roster [monday] Limited.preschedule
           Limited.config Limited.schedule 0 Limited.kranjc 1 Hs eq_refl
           eq_refl).
Defined.

(** X8: in every solved schedule a worker with [included = "OMEJENO"] has
    both pinned numbers defined and works exactly that many day-workplace and
    night-workplace assignments in the month. *)
Theorem omejeno_counts_are_pinned wl dl pre cfg v ww worker :
  solved wl dl pre cfg v →
  wl !! ww = Some worker →
  included worker = "OMEJENO" →
  ∃ num_day num_night,
    num_dayshifts_omejeno worker = Some num_day
    ∧ num_nightshifts_omejeno worker = Some num_night
    ∧ total_on v ww (length dl) wps.range_day_workplaces = num_day
    ∧ total_on v ww (length dl) wps.range_night_workplaces = num_night.
Proof.
  intros Hs Hww Hinc.
  apply solved_inv in Hs as (r & s & Hc & Hv). runs_of Hc.
  destruct Homejeno as (s1 & s2 & Hrun & Hext).
  unfold omejeno in Hrun.
  apply for_ok in Hrun as [_ Hrun]; [|solve_mono].
  destruct (Hrun (ww, worker)) as (sa & sb & Hb & _ & Hsb);
    [by apply elem_of_enumerate|].
  rewrite (bool_decide_eq_true_2 _ Hinc) in Hb. simpl in Hb.
  apply bind_ok in Hb as (nd & sc & Hnumd & Hb).
  apply lookup_or_ok in Hnumd as [Hnumd ->].
  apply bind_ok in Hb as (nn & sd & Hnumn & Hb).
  apply lookup_or_ok in Hnumn as [Hnumn ->].
  apply bind_ok in Hb as ([] & se & Hd & Hn).
  note_all_extends. apply Add_ok in Hd, Hn.
  exists nd, nn. split; [done|]. split; [done|].
  assert (∀ c s', c ∈ constraints (model s') → extends s' s → holds v c) as Hh.
  { intros c s' Hin He. eapply solves_constraint; [done|].
    eapply extends_constraint; [exact He | exact Hin]. }
  apply Hh in Hd, Hn; [| chain_extends..].
  apply holds_Linear in Hd, Hn. cbn [rel_holds eval] in Hd, Hn.
  by rewrite eval_shifts_by_day in Hd, Hn.
Qed.

Lemma omejeno_counts_are_pinned_witness :
  solved Limited.roster [monday] Limited.preschedule Limited.config
         Limited.schedule
  ∧ Limited.roster !! 0%nat = Some Limited.kranjc
  ∧ included Limited.kranjc = "OMEJENO"
  ∧ ∃ num_day num_night,
      num_dayshifts_omejeno Limited.kranjc = Some num_day
      ∧ num_nightshifts_omejeno Limited.kranjc = Some num_night
      ∧ total_on Limited.schedule 0 (length [monday])
          wps.range_day_workplaces = num_day
      ∧ total_on Limited.schedule 0 (length [monday])
          wps.range_night_workplaces = num_night.
Proof.
  assert (solved Limited.roster [monday] Limited.preschedule Limited.config
                 Limited.schedule) as Hs
    by (apply decide_solved; vm_compute; reflexivity).
  split; [exact Hs|]. split; [reflexivity|]. split; [reflexivity|].
  exact (omejeno_counts_are_pinned Limited.roster [monday]
           Limited.preschedule Limited.config Limited.schedule 0
           Limited.kranjc Hs eq_refl eq_refl).
Defined.

Lemma eligible_days_loop worker l acc s r s' :
  for_acc l acc
    (fun dd eligible_days =>
       e ← lookup_or IndexError (workdates worker !! dd);
       if in_1_0 (unpack e).1 then mret (eligible_days + 1)
       else mret eligible_days) s
  = (Ok r, s') →
  r = acc
      + Z.of_nat (length (List.filter
          (fun dd => match workdates worker !! dd with
                     | Some e => in_1_0 (unpack e).1
                     | None => false
                     end) l))
  ∧ s' = s.
Proof.
  revert acc s. induction l as [|dd l IH]; intros acc s H; simpl in H.
  - apply mret_ok in H as [-> ->]. simpl. split; [lia | done].
  - apply bind_ok in H as (acc' & s1 & Hbody & H).
    apply bind_ok in Hbody as (e & s2 & He & Hbody).
    apply lookup_or_ok in He as [He ->].
    apply IH in H as [-> ->]. simpl. rewrite He.
    destruct (in_1_0 (unpack e).1); apply mret_ok in Hbody as [-> ->];
      simpl; split; try done; lia.
Qed.

(** X9: for a worker with "Krožeči" in the master specialty slot, the
    construction ends normally only if the worker has at least
    [krozeci_scheduled] days with a day slot of 0 or +1, whether or not the
    model has a solution; and in every solved schedule the worker's total
    number of assignments over all days and workplaces is exactly
    [krozeci_scheduled]. *)
Theorem master_rotating_worker_is_pinned wl dl pre cfg ww worker :
  ended_ok (construct wl dl pre cfg initial).1 = true →
  wl !! ww = Some worker →
  specialty_master worker = "Krožeči" →
  krozeci_scheduled cfg ≤ eligible_days worker (length dl)
  ∧ ∀ v, solved wl dl pre cfg v →
         total_on v ww (length dl) (range num_workplaces)
         = krozeci_scheduled cfg.
Proof.
  intros Hok Hww Hk.
  destruct (construct wl dl pre cfg initial) as [[r| |?] s] eqn:Hc;
    try discriminate.
  pose proof Hc as Hruns. runs_of Hruns.
  destruct Hkrozeci as (s1 & s2 & Hrun & Hext).
  unfold krozeci in Hrun.
  apply for_ok in Hrun as [_ Hrun]; [|solve_mono].
  destruct (Hrun (ww, worker)) as (sa & sb & Hb & _ & Hsb);
    [by apply elem_of_enumerate|].
  rewrite (bool_decide_eq_true_2 _ Hk) in Hb. simpl in Hb.
  apply bind_ok in Hb as (ed & sc & Hloop & Hb).
  apply eligible_days_loop in Hloop as [-> ->].
  apply bind_ok in Hb as ([] & sd & Hcheck' & Hadd).
  unfold eligible_days, num_days in *.
  case_bool_decide as Hlt; [discriminate|]. apply mret_ok in Hcheck' as [_ ->].
  split; [lia|].
  intros v Hs. unfold solved in Hs. rewrite Hc in Hs.
  note_all_extends. apply Add_ok in Hadd.
  match type of Hadd with ?c ∈ _ => assert (holds v c) as H end.
  { eapply solves_constraint; [done|].
    eapply extends_constraint; [|exact Hadd]. chain_extends. }
  apply holds_Linear in H. cbn [rel_holds eval] in H.
  by rewrite eval_shifts_by_day in H.
Qed.

Lemma master_rotating_worker_is_pinned_witness :
  ended_ok (construct Demo.roster Demo.days Demo.preschedule Demo.config
              initial).1 = true
  ∧ Demo.roster !! 2%nat = Some Demo.zupan
  ∧ specialty_master Demo.zupan = "Krožeči"
  ∧ krozeci_scheduled Demo.config ≤ eligible_days Demo.zupan (length Demo.days)
  ∧ solved Demo.roster Demo.days Demo.preschedule Demo.config Demo.schedule
  ∧ total_on Demo.schedule 2 (length Demo.days) (range num_workplaces)
    = krozeci_scheduled Demo.config.
Proof.
  assert (ended_ok (construct Demo.roster Demo.days Demo.preschedule
                      Demo.config initial).1 = true) as Hok
    by (vm_compute; reflexivity).
  assert (solved Demo.roster Demo.days Demo.preschedule Demo.config
                 Demo.schedule) as Hs
    by (apply decide_solved; vm_compute; reflexivity).
  destruct (master_rotating_worker_is_pinned Demo.roster Demo.days
              Demo.preschedule Demo.config 2 Demo.zupan Hok eq_refl eq_refl)
    as [He Ht].
  split; [exact Hok|]. split; [reflexivity|]. split; [reflexivity|].
  split; [exact He|]. split; [exact Hs | exact (Ht Demo.schedule Hs)].
Defined.

(** ** Maxima and minima of lists *)

Lemma foldl_max_ge (l : list Z) (a : Z) :
  a ≤ foldl Z.max a l ∧ ∀ x, x ∈ l → x ≤ foldl Z.max a l.
Proof.
  revert a. induction l as [|y l IH]; intros a; simpl.
  - split; [lia | intros x Hx; inversion Hx].
  - destruct (IH (Z.max a y)) as [H1 H2]. split; [lia|].
    intros x Hx. apply elem_of_cons in Hx as [->|Hx]; [lia | auto].
Qed.

Lemma foldl_max_in (l : list Z) (a : Z) :
  foldl Z.max a l = a ∨ foldl Z.max a l ∈ l.
Proof.
  revert a. induction l as [|y l IH]; intros a; simpl; [by left|].
  destruct (IH (Z.max a y)) as [H|H].
  - rewrite H. destruct (Z.max_spec a y) as [[_ ->]|[_ ->]];
      [right; left | by left].
  - right. by right.
Qed.

Lemma Zmax_list_ge (l : list Z) (m x : Z) :
  Zmax_list l = Some m → x ∈ l → x ≤ m.
Proof.
  destruct l as [|a l]; [done|]. intros [= <-] Hx.
  destruct (foldl_max_ge l a) as [H1 H2].
  apply elem_of_cons in Hx as [->|Hx]; auto.
Qed.

Lemma Zmax_list_in (l : list Z) (m : Z) : Zmax_list l = Some m → m ∈ l.
Proof.
  destruct l as [|a l]; [done|]. intros [= <-].
  destruct (foldl_max_in l a) as [->|H]; [left | by right].
Qed.

Lemma foldl_min_le (l : list Z) (a : Z) :
  foldl Z.min a l ≤ a ∧ ∀ x, x ∈ l → foldl Z.min a l ≤ x.
Proof.
  revert a. induction l as [|y l IH]; intros a; simpl.
  - split; [lia | intros x Hx; inversion Hx].
  - destruct (IH (Z.min a y)) as [H1 H2]. split; [lia|].
    intros x Hx. apply elem_of_cons in Hx as [->|Hx]; [lia | auto].
Qed.

Lemma foldl_min_in (l : list Z) (a : Z) :
  foldl Z.min a l = a ∨ foldl Z.min a l ∈ l.
Proof.
  revert a. induction l as [|y l IH]; intros a; simpl; [by left|].
  destruct (IH (Z.min a y)) as [H|H].
  - rewrite H. destruct (Z.min_spec a y) as [[_ ->]|[_ ->]];
      [by left | right; left].
  - right. by right.
Qed.

Lemma Zmin_list_le (l : list Z) (m x : Z) :
  Zmin_list l = Some m → x ∈ l → m ≤ x.
Proof.
  destruct l as [|a l]; [done|]. intros [= <-] Hx.
  destruct (foldl_min_le l a) as [H1 H2].
  apply elem_of_cons in Hx as [->|Hx]; auto.
Qed.

Lemma Zmin_list_in (l : list Z) (m : Z) : Zmin_list l = Some m → m ∈ l.
Proof.
  destruct l as [|a l]; [done|]. intros [= <-].
  destruct (foldl_min_in l a) as [->|H]; [left | by right].
Qed.

(** ** Exclusive unconnected workplaces and consecutive working days *)

Lemma count_on_all_two v ww dd p q :
  (∀ r, (r < num_workplaces)%nat → 0 ≤ v (work ww dd r)) →
  (p < num_workplaces)%nat → (q < num_workplaces)%nat → p ≠ q →
  v (work ww dd p) + v (work ww dd q)
  ≤ count_on v ww dd (range num_workplaces).
Proof.
  intros H Hp Hq Hne. apply count_on_two; auto.
  - intros r Hr. apply H. by apply elem_of_range.
  - by apply elem_of_range.
  - by apply elem_of_range.
Qed.

(** X10: in every solved schedule a worker assigned to an unconnected
    workplace on a day has no other assignment on that day. *)
Theorem unconnected_workplace_is_exclusive wl dl pre cfg v ww dd pu pp :
  solved wl dl pre cfg v →
  (ww < length wl)%nat →
  (dd < length dl)%nat →
  pu ∈ wps.range_unconnected_workplaces →
  assigned v ww dd pu →
  (pp < num_workplaces)%nat →
  pp ≠ pu →
  ¬ assigned v ww dd pp.
Proof.
  intros Hs Hww Hdd Hpu Apu Hpp Hne App. unfold assigned in *.
  pose proof (work_values _ _ _ _ _ _ _ Hs Hww Hdd) as Hb.
  apply solved_inv in Hs as (r & s & Hc & Hv). runs_of Hc.
  destruct Hue as (s1 & s2 & Hrun & Hext).
  unfold unconnected_exclusive in Hrun.
  apply for_ok in Hrun as [_ Hrun]; [|solve_mono].
  destruct (Hrun ww) as (sa & sb & Hl & _ & Hsb); [by apply elem_of_range|].
  apply for_ok in Hl as [_ Hl]; [|solve_mono].
  destruct (Hl dd) as (sc & sd & Hbody & _ & Hsd); [by apply elem_of_range|].
  inv_binds Hbody. note_all_extends.
  assert (∀ c s', c ∈ constraints (model s') → extends s' s → holds v c) as Hh.
  { intros c s' Hin He. eapply solves_constraint; [done|].
    eapply extends_constraint; [exact He | exact Hin]. }
  apply NewBoolVar_ok in Hstep. apply Add_ok in Hstep0, Hbody.
  assert (0 ≤ v (is_at_unconnected ww dd) ≤ 1) as Hdom.
  { eapply solves_variable; [done|].
    eapply extends_variable; [|exact Hstep]. chain_extends. }
  apply Hh in Hstep0, Hbody; [| chain_extends..].
  cbn [holds] in Hstep0. rewrite <- list_fmap_compose in Hstep0.
  assert (v (work ww dd pu) ≤ v (is_at_unconnected ww dd)) as Hmax.
  { eapply Zmax_list_ge; [exact Hstep0|].
    apply list_elem_of_fmap. by exists pu. }
  apply holds_Linear_if in Hbody; [|simpl; lia].
  cbn [rel_holds eval] in Hbody. rewrite eval_shifts in Hbody.
  assert ((pu < num_workplaces)%nat) as Hpu'
    by (eapply places_in_range; [|exact Hpu]; auto).
  pose proof (count_on_all_two v ww dd pp pu (fun r Hr => proj1 (Hb r Hr))
                Hpp Hpu' Hne).
  lia.
Qed.

Lemma unconnected_workplace_is_exclusive_witness :
  solved Demo.roster Demo.days Demo.preschedule Demo.config Demo.schedule
  ∧ assigned Demo.schedule 1 0 10
  ∧ ¬ assigned Demo.schedule 1 0 0.
Proof.
  assert (solved Demo.roster Demo.days Demo.preschedule Demo.config
                 Demo.schedule) as Hs
    by (apply decide_solved; vm_compute; reflexivity).
  split; [exact Hs|]. split; [reflexivity|].
  apply (unconnected_workplace_is_exclusive Demo.roster Demo.days
           Demo.preschedule Demo.config Demo.schedule 1 0 10 0 Hs).
  - vm_compute; lia.
  - vm_compute; lia.
  - apply (bool_decide_unpack _). vm_compute. exact I.
  - reflexivity.
  - vm_compute; lia.
  - discriminate.
Defined.

(** The value of [is_working] in a solved schedule. *)
Lemma is_working_value wl dl pre cfg v ww dd :
  solved wl dl pre cfg v →
  (ww < length wl)%nat → (dd < length dl)%nat →
  0 ≤ v (is_working ww dd) ≤ 1
  ∧ (works_on v ww dd → v (is_working ww dd) = 1).
Proof.
  intros Hs Hww Hdd.
  apply solved_inv in Hs as (r & s & Hc & Hv). runs_of Hc.
  destruct H3d as (s1 & s2 & Hrun & Hext).
  unfold no_three_consecutive_days in Hrun.
  apply bind_ok in Hrun as ([] & s3 & Hrun & Hrest).
  assert (extends s3 s2) as E32
    by (eapply ok_extends; [|exact Hrest]; solve_mono).
  apply for_ok in Hrun as [_ Hrun]; [|solve_mono].
  destruct (Hrun ww) as (sa & sb & Hl & _ & Hsb); [by apply elem_of_range|].
  apply for_ok in Hl as [_ Hl]; [|solve_mono].
  destruct (Hl dd) as (sc & sd & Hbody & _ & Hsd); [by apply elem_of_range|].
  inv_binds Hbody. note_all_extends.
  apply NewBoolVar_ok in Hstep. apply Add_ok in Hbody.
  assert (0 ≤ v (is_working ww dd) ≤ 1) as Hdom.
  { eapply solves_variable; [done|].
    eapply extends_variable; [|exact Hstep]. chain_extends. }
  split; [done|]. intros (pp & Hpp & App). unfold assigned in App.
  assert (holds v (MaxEquality (is_working ww dd)
            ((fun pp => EVar (work ww dd pp)) <$> range num_workplaces)))
    as Hmax.
  { eapply solves_constraint; [done|].
    eapply extends_constraint; [|exact Hbody]. chain_extends. }
  cbn [holds] in Hmax. rewrite <- list_fmap_compose in Hmax.
  assert (v (work ww dd pp) ≤ v (is_working ww dd)).
  { eapply Zmax_list_ge; [exact Hmax|].
    apply list_elem_of_fmap. exists pp. split; [done|].
    by apply elem_of_range. }
  lia.
Qed.

(** X11: in every solved schedule nobody has an assignment on three
    consecutive days. *)
Theorem no_three_consecutive_working_days wl dl pre cfg v ww dd :
  solved wl dl pre cfg v →
  (ww < length wl)%nat →
  (dd + 2 < length dl)%nat →
  ¬ (works_on v ww dd ∧ works_on v ww (dd + 1) ∧ works_on v ww (dd + 2)).
Proof.
  intros Hs Hww Hdd (W0 & W1 & W2).
  destruct (is_working_value _ _ _ _ _ ww dd Hs Hww ltac:(lia)) as [_ H0].
  destruct (is_working_value _ _ _ _ _ ww (dd + 1) Hs Hww ltac:(lia))
    as [_ H1].
  destruct (is_working_value _ _ _ _ _ ww (dd + 2) Hs Hww ltac:(lia))
    as [_ H2].
  specialize (H0 W0). specialize (H1 W1). specialize (H2 W2).
  apply solved_inv in Hs as (r & s & Hc & Hv). runs_of Hc.
  destruct H3d as (s1 & s2 & Hrun & Hext).
  unfold no_three_consecutive_days in Hrun.
  apply bind_ok in Hrun as ([] & s3 & _ & Hrun).
  apply for_ok in Hrun as [_ Hrun]; [|solve_mono].
  destruct (Hrun ww) as (sa & sb & Hl & _ & Hsb); [by apply elem_of_range|].
  apply for_ok in Hl as [_ Hl]; [|solve_mono].
  destruct (Hl dd) as (sc & sd & Hadd & _ & Hsd).
  { apply elem_of_range. unfold num_days. clear - Hdd. lia. }
  apply Add_ok in Hadd.
  match type of Hadd with ?c ∈ _ => assert (holds v c) as H end.
  { eapply solves_constraint; [done|].
    eapply extends_constraint; [|exact Hadd]. chain_extends. }
  apply holds_Linear in H. cbn [rel_holds eval] in H.
  clear - H H0 H1 H2. lia.
Qed.

Lemma no_three_consecutive_working_days_witness :
  solved Demo.roster Demo.days Demo.preschedule Demo.config Demo.schedule
  ∧ ¬ (works_on Demo.schedule 1 0 ∧ works_on Demo.schedule 1 (0 + 1)
       ∧ works_on Demo.schedule 1 (0 + 2)).
Proof.
  assert (solved Demo.roster Demo.days Demo.preschedule Demo.config
                 Demo.schedule) as Hs
    by (apply decide_solved; vm_compute; reflexivity).
  split; [exact Hs|].
  apply (no_three_consecutive_working_days Demo.roster Demo.days
           Demo.preschedule Demo.config Demo.schedule 1 0 Hs).
  - vm_compute; lia.
  - vm_compute; lia.
Defined.

(** ** Weekend pairs *)

Lemma lookup_removelast {A} (l : list A) (i : nat) (x : A) :
  removelast l !! i = Some x ↔ l !! i = Some x ∧ (S i < length l)%nat.
Proof.
  rewrite removelast_firstn_len. split.
  - intros H. apply lookup_take_Some in H as [H Hi]. split; [done|]. lia.
  - intros [H Hi]. apply lookup_take_Some. split; [done|]. lia.
Qed.

Lemma weekend_pairs_elem dl a b :
  (a, b) ∈ weekend_pairs dl →
  b = S a
  ∧ ∃ da db, dl !! a = Some da ∧ dl !! b = Some db
             ∧ is_weekend da = true ∧ is_weekend db = true.
Proof.
  unfold weekend_pairs. rewrite list_elem_of_omap.
  intros ([i day] & Hin & H). apply elem_of_enumerate in Hin.
  apply lookup_removelast in Hin as [Hi _].
  destruct (dl !! S i) as [next|] eqn:En; [|done].
  destruct (is_weekend day) eqn:E1; [|done].
  destruct (is_weekend next) eqn:E2; [|done].
  simpl in H. simplify_eq. split; [done|]. eauto 10.
Qed.

(** X12: [weekend_pairs] lists exactly the pairs (d, d+1) of consecutive
    days of the month that are both weekend days; a holiday that is not a
    weekend day forms no pair, and a month of fewer than two days has none. *)
Theorem weekend_pairs_are_consecutive_weekend_days dl a b :
  (a, b) ∈ weekend_pairs dl
  ↔ b = S a
    ∧ ∃ da db, dl !! a = Some da ∧ dl !! b = Some db
               ∧ is_weekend da = true ∧ is_weekend db = true.
Proof.
  split; [apply weekend_pairs_elem|].
  intros (-> & da & db & Ha & Hb & E1 & E2).
  unfold weekend_pairs. rewrite list_elem_of_omap.
  exists (a, da). split.
  - apply elem_of_enumerate, lookup_removelast. split; [done|].
    by apply lookup_lt_Some in Hb.
  - by rewrite Hb, E1, E2.
Qed.

Lemma for_acc_append {A B} (f : A → B) (l : list A) body acc s r s' :
  (∀ x a s a' s', body x a s = (Ok a', s') → a' = a ++ [f x]) →
  for_acc l acc body s = (Ok r, s') →
  r = acc ++ (f <$> l).
Proof.
  intros Hb. revert acc s. induction l as [|x l IH]; intros acc s H; simpl in H.
  - apply mret_ok in H as [-> _]. by rewrite app_nil_r.
  - apply bind_ok in H as (acc' & s1 & Hx & H).
    apply Hb in Hx as ->. apply IH in H as ->.
    simpl. by rewrite <- app_assoc.
Qed.

(** What the solver's values satisfy for a worker without night shifts and
    one weekend pair. *)
Lemma weekend_pair_values wl dl s v ww worker i a b :
  ran (weekends wl dl) () s →
  solves v (model s) →
  wl !! ww = Some worker →
  works_night_shifts worker = false →
  weekend_pairs dl !! i = Some (a, b) →
  0 ≤ v (works_pair ww i)
  ∧ (1 ≤ count_on v ww a wps.range_day_workplaces →
     1 ≤ count_on v ww b wps.range_day_workplaces →
     v (works_pair ww i) = 1).
Proof.
  intros (s1 & s2 & Hrun & Hext) Hv Hww Hnight Hi.
  unfold weekends in Hrun.
  apply for_ok in Hrun as [_ Hrun]; [|solve_mono].
  destruct (Hrun (ww, worker)) as (sa & sb & Hbody & _ & Hsb);
    [by apply elem_of_enumerate|].
  rewrite Hnight in Hbody.
  apply bind_ok in Hbody as (lst & sc & Hloop & Hadd).
  unfold weekend_pairs_worked in Hloop.
  apply for_acc_ok in Hloop as [_ Hloop]; [|solve_mono].
  destruct (Hloop (i, (a, b))) as (acc & acc' & sd & se & Hp & _ & Hse);
    [by apply elem_of_enumerate|].
  cbv beta iota zeta in Hp.
  inv_binds Hp. apply mret_ok in Hp as [_ Heq]. rewrite Heq in Hse.
  note_all_extends.
  assert (∀ c, c ∈ constraints (model s) → holds v c) as Hc
    by (intros c Hin; by eapply solves_constraint).
  assert (∀ x, (x, (0, 1)) ∈ variables (model s) → 0 ≤ v x ≤ 1) as Hd
    by (intros x Hin; by eapply solves_variable).
  assert (0 ≤ v (works_pair ww i) ≤ 1) as Dp by (apply Hd; declared_bool).
  assert (0 ≤ v (works_dd1 ww i) ≤ 1) as D1 by (apply Hd; declared_bool).
  assert (0 ≤ v (works_dd2 ww i) ≤ 1) as D2 by (apply Hd; declared_bool).
  split; [lia|]. intros Ha Hb.
  assert (v (works_dd1 ww i) = 1) as Edd1.
  { destruct (decide (v (works_dd1 ww i) = 0)) as [Ez|]; [|lia].
    assert (rel_holds Req (eval v (shifts ww a wps.range_day_workplaces))
              (eval v 0)) as H0.
    { apply (holds_Linear_if v _ Req 0 (Not (works_dd1 ww i)));
        [apply Hc; added_constraint | exact Ez]. }
    cbn [rel_holds eval] in H0. rewrite eval_shifts in H0. lia. }
  assert (v (works_dd2 ww i) = 1) as Edd2.
  { destruct (decide (v (works_dd2 ww i) = 0)) as [Ez|]; [|lia].
    assert (rel_holds Req (eval v (shifts ww b wps.range_day_workplaces))
              (eval v 0)) as H0.
    { apply (holds_Linear_if v _ Req 0 (Not (works_dd2 ww i)));
        [apply Hc; added_constraint | exact Ez]. }
    cbn [rel_holds eval] in H0. rewrite eval_shifts in H0. lia. }
  destruct (decide (v (works_pair ww i) = 0)) as [Ez|]; [|lia].
  assert (holds v (BoolOr [Not (works_dd1 ww i); Not (works_dd2 ww i)]
                     (Some (Not (works_pair ww i))))) as Hor
    by (apply Hc; added_constraint).
  cbn [holds enforced lit_true] in Hor. specialize (Hor Ez).
  apply Exists_cons in Hor as [Hor|Hor]; [simpl in Hor; lia|].
  apply Exists_cons in Hor as [Hor|Hor]; [simpl in Hor; lia|].
  by apply Exists_nil in Hor.
Qed.

Lemma weekend_pairs_sum wl dl s v ww worker :
  ran (weekends wl dl) () s →
  solves v (model s) →
  wl !! ww = Some worker →
  works_night_shifts worker = false →
  Zsum ((fun x : nat * (nat * nat) => v (works_pair ww x.1))
        <$> enumerate (weekend_pairs dl)) ≤ 1.
Proof.
  intros (s1 & s2 & Hrun & Hext) Hv Hww Hnight.
  unfold weekends in Hrun.
  apply for_ok in Hrun as [_ Hrun]; [|solve_mono].
  destruct (Hrun (ww, worker)) as (sa & sb & Hbody & _ & Hsb);
    [by apply elem_of_enumerate|].
  rewrite Hnight in Hbody.
  apply bind_ok in Hbody as (lst & sc & Hloop & Hadd).
  unfold weekend_pairs_worked in Hloop.
  apply (for_acc_append (fun x : nat * (nat * nat) => works_pair ww x.1))
    in Hloop.
  2:{ intros [j [c d]] acc0 t acc1 t' Hp. cbv beta iota zeta in Hp.
      inv_binds Hp. by apply mret_ok in Hp as [-> _]. }
  simpl in Hloop. subst lst. apply Add_ok in Hadd.
  assert (holds v (Linear
            (ESum (EVar <$> ((fun x : nat * (nat * nat) => works_pair ww x.1)
                             <$> enumerate (weekend_pairs dl))))
            Rle 1 None)) as H.
  { eapply solves_constraint; [done|].
    eapply extends_constraint; [|exact Hadd]. chain_extends. }
  apply holds_Linear in H. cbn [rel_holds] in H.
  rewrite eval_ESum, <- !list_fmap_compose in H. exact H.
Qed.

(** X13: in every solved schedule a worker without night shifts has a day
    shift on both days of at most one weekend pair. *)
Theorem day_only_worker_works_one_weekend_pair
    wl dl pre cfg v ww worker i j a b c d :
  solved wl dl pre cfg v →
  wl !! ww = Some worker →
  works_night_shifts worker = false →
  weekend_pairs dl !! i = Some (a, b) →
  weekend_pairs dl !! j = Some (c, d) →
  works_day_on v ww a → works_day_on v ww b →
  works_day_on v ww c → works_day_on v ww d →
  i = j.
Proof.
  intros Hs Hww Hnight Hi Hj Wa Wb Wc Wd.
  apply lookup_lt_Some in Hww as Hlt.
  assert (∀ x y k, weekend_pairs dl !! k = Some (x, y) →
            (x < length dl)%nat ∧ (y < length dl)%nat) as Hbound.
  { intros x y k Hk. apply list_elem_of_lookup_2 in Hk.
    apply weekend_pairs_elem in Hk as (-> & da & db & Ha & Hb & _).
    split; by eapply lookup_lt_Some. }
  assert (∀ dd, (dd < length dl)%nat → works_day_on v ww dd →
            1 ≤ count_on v ww dd wps.range_day_workplaces) as Hcount.
  { intros dd Hdd (pd & Hpd & Apd). unfold assigned in Apd. rewrite <- Apd.
    apply count_on_ge; [|done].
    eapply work_nonneg_on; eauto. }
  destruct (Hbound _ _ _ Hi) as [Ba Bb]. destruct (Hbound _ _ _ Hj) as [Bc Bd].
  apply solved_inv in Hs as (r & s & Hc & Hv). runs_of Hc.
  destruct (weekend_pair_values _ _ _ _ _ _ _ _ _ Hweekends Hv Hww Hnight Hi)
    as [_ Pi].
  destruct (weekend_pair_values _ _ _ _ _ _ _ _ _ Hweekends Hv Hww Hnight Hj)
    as [_ Pj].
  specialize (Pi (Hcount _ Ba Wa) (Hcount _ Bb Wb)).
  specialize (Pj (Hcount _ Bc Wc) (Hcount _ Bd Wd)).
  destruct (decide (i = j)) as [|Hne]; [done|]. exfalso.
  pose proof (weekend_pairs_sum _ _ _ _ _ _ Hweekends Hv Hww Hnight) as Hsum.
  pose proof (Zsum_two_le (fun x : nat * (nat * nat) => v (works_pair ww x.1))
                (enumerate (weekend_pairs dl)) i j (i, (a, b)) (j, (c, d)))
    as L.
  simpl in L. rewrite Pi, Pj in L.
  assert (1 + 1 ≤ Zsum ((fun x : nat * (nat * nat) => v (works_pair ww x.1))
                        <$> enumerate (weekend_pairs dl))); [|lia].
  apply L; auto using enumerate_lookup.
  intros [k [x y]] Hk. apply elem_of_enumerate in Hk. simpl.
  by destruct (weekend_pair_values _ _ _ _ _ _ _ _ _
                 Hweekends Hv Hww Hnight Hk).
Qed.

Lemma day_only_worker_works_one_weekend_pair_witness :
  solved Weekend.roster Weekend.days Weekend.preschedule Weekend.config
         Weekend.schedule
  ∧ Weekend.roster !! 0%nat = Some Weekend.babic
  ∧ works_night_shifts Weekend.babic = false
  ∧ weekend_pairs Weekend.days !! 0%nat = Some (0, 1)%nat
  ∧ works_day_on Weekend.schedule 0 0
  ∧ works_day_on Weekend.schedule 0 1
  ∧ (0 = 0)%nat.
Proof.
  assert (solved Weekend.roster Weekend.days Weekend.preschedule
                 Weekend.config Weekend.schedule) as Hs
    by (apply decide_solved; vm_compute; reflexivity).
  assert (works_day_on Weekend.schedule 0 0) as W0.
  { exists 0%nat. split; [|reflexivity].
    apply (bool_decide_unpack _). vm_compute. exact I. }
  assert (works_day_on Weekend.schedule 0 1) as W1.
  { exists 0%nat. split; [|reflexivity].
    apply (bool_decide_unpack _). vm_compute. exact I. }
  split; [exact Hs|]. split; [reflexivity|]. split; [reflexivity|].
  split; [reflexivity|]. split; [exact W0|]. split; [exact W1|].
  exact (day_only_worker_works_one_weekend_pair Weekend.roster Weekend.days
           Weekend.preschedule Weekend.config Weekend.schedule 0
           Weekend.babic 0 0 0 1 0 1
           Hs eq_refl eq_refl eq_refl eq_refl W0 W1 W0 W1).
Defined.

Lemma weekend_pairs_are_consecutive_weekend_days_witness :
  (1, 2)%nat ∈ weekend_pairs Demo.days.
Proof.
  apply (weekend_pairs_are_consecutive_weekend_days Demo.days 1 2).
  split; [reflexivity|].
  exists Demo.saturday, Demo.sunday. repeat split; reflexivity.
Defined.

(** ** The preschedule in solved schedules *)

(** X14: in every solved schedule each preschedule entry that names a worker
    of the roster is honoured: the day and the workplace of the entry are
    known, and the first worker of that name is assigned to the slot. *)
Theorem roster_preschedule_is_honoured wl dl pre cfg v n day workplace :
  solved wl dl pre cfg v →
  (n, day, workplace) ∈ pre →
  n ∈ worker_names wl →
  ∃ ww dd pp,
    wps.index (worker_names wl) n = Some ww
    ∧ day_index dl day = Some dd
    ∧ wps.index wps.ALL_WORKPLACES workplace = Some pp
    ∧ assigned v ww dd pp.
Proof.
  intros Hs Hin Hn.
  apply solved_inv in Hs as (r & s & Hc & Hv). runs_of Hc.
  destruct Hpre as (s1 & s2 & Hrun & Hext).
  destruct (set_preschedule_pins _ _ _ _ _ _ _ _ _ Hrun Hin Hn)
    as (ww & dd & pp & Hw & Hd & Hp & Hcon).
  exists ww, dd, pp. repeat split; try done.
  assert (holds v (Linear (work ww dd pp) Req 1 None)) as H.
  { eapply solves_constraint; [done|]. by eapply extends_constraint. }
  by apply holds_Linear in H.
Qed.

Lemma roster_preschedule_is_honoured_witness :
  solved Preference.roster [monday] Pinned.preschedule Preference.config
         Preference.indifferent
  ∧ ("KRANJC", monday, "KRG 1") ∈ Pinned.preschedule
  ∧ "KRANJC" ∈ worker_names Preference.roster
  ∧ ∃ ww dd pp,
      wps.index (worker_names Preference.roster) "KRANJC" = Some ww
      ∧ day_index [monday] monday = Some dd
      ∧ wps.index wps.ALL_WORKPLACES "KRG 1" = Some pp
      ∧ assigned Preference.indifferent ww dd pp.
Proof.
  assert (solved Preference.roster [monday] Pinned.preschedule
                 Preference.config Preference.indifferent) as Hs
    by (apply decide_solved; vm_compute; reflexivity).
  assert (("KRANJC", monday, "KRG 1") ∈ Pinned.preschedule) as Hin
    by (unfold Pinned.preschedule; apply elem_of_app; right; left).
  assert ("KRANJC" ∈ worker_names Preference.roster) as Hn
    by (apply (bool_decide_unpack _); vm_compute; exact I).
  split; [exact Hs|]. split; [exact Hin|]. split; [exact Hn|].
  exact (roster_preschedule_is_honoured Preference.roster [monday]
           Pinned.preschedule Preference.config Preference.indifferent
           "KRANJC" monday "KRG 1" Hs Hin Hn).
Defined.

(** ** What the availability check requires *)

Lemma collect_available_lists wl dd day a s r s' :
  collect_available wl dd day a s = (Ok r, s') →
  (avail_workers_abd r ≠ [] →
   avail_workers_abd a ≠ [] ∨ ∃ w, w ∈ wl ∧ available_for works_abd_dez w dd)
  ∧ (is_workday day = true → avail_workers_abd_prip r ≠ [] →
     avail_workers_abd_prip a ≠ []
     ∨ ∃ w, w ∈ wl ∧ available_for works_abd_prip w dd)
  ∧ (avail_workers_travma r ≠ [] →
     avail_workers_travma a ≠ []
     ∨ ∃ w, w ∈ wl ∧ available_for works_travma_prip w dd).
Proof.
  unfold collect_available. revert a s.
  induction wl as [|w wl IH]; intros a s H; simpl in H.
  - apply mret_ok in H as [-> _]. repeat split; intros; by left.
  - apply bind_ok in H as (a' & s1 & Hbody & H).
    destruct (IH _ _ H) as (IHa & IHp & IHt). clear IH H.
    assert (∀ quota, (∃ w', w' ∈ wl ∧ available_for quota w' dd) →
              ∃ w', w' ∈ w :: wl ∧ available_for quota w' dd) as Hlift.
    { intros quota (w' & Hw' & Hav). exists w'. split; [by right | done]. }
    apply bind_ok in Hbody as (e & s2 & He & Hbody).
    apply lookup_or_ok in He as [He ->].
    assert (∀ quota, in_1_0 (unpack e).1 = true → in_1_0 (unpack e).2 = true →
              quota w > 0 →
              ∃ w', w' ∈ w :: wl ∧ available_for quota w' dd) as Hhere.
    { intros quota H1 H2 Hq. exists w. split; [by left|]. by exists e. }
    destruct (unpack e) as [avail_day avail_night] eqn:Eu. cbn [fst snd] in *.
    destruct (in_1_0 avail_day) eqn:Ed; simpl in Hbody;
      [destruct (in_1_0 avail_night) eqn:En; simpl in Hbody|];
      apply mret_ok in Hbody as [-> _].
    2,3: (split; [|split]);
         [ intros Hr; destruct (IHa Hr); auto
         | intros Hw Hr; destruct (IHp Hw Hr); auto
         | intros Hr; destruct (IHt Hr); auto ].
    simpl in IHa, IHp, IHt.
    split; [|split].
    + intros Hr. destruct (IHa Hr) as [Ha|]; [|auto].
      case_bool_decide; [|by left].
      destruct (avail_workers_abd a) eqn:Ea; [|by left]. right. auto.
    + intros Hw Hr. destruct (IHp Hw Hr) as [Ha|]; [|auto].
      rewrite Hw in Ha.
      case_bool_decide; [|by left].
      destruct (avail_workers_abd_prip a) eqn:Ea; [|by left]. right. auto.
    + intros Hr. destruct (IHt Hr) as [Ha|]; [|auto].
      case_bool_decide; [|by left].
      destruct (avail_workers_travma a) eqn:Ea; [|by left]. right. auto.
Qed.

(** X15: when the construction ends normally, the availability check has
    passed on every day: ABDOMEN is preassigned to a person outside the roster
    or a worker with an abdominal-duty quota is available; on a workday the
    same holds for ABD prip.; and a worker with a trauma on-call quota is
    available, whether or not TRAVMA is preassigned. *)
Theorem availability_check_passed wl dl pre cfg dd day :
  ended_ok (construct wl dl pre cfg initial).1 = true →
  dl !! dd = Some day →
  ((dd, wps.abdomen_ndx) ∈ off_roster_slots wl dl pre
   ∨ ∃ w, w ∈ wl ∧ available_for works_abd_dez w dd)
  ∧ (is_workday day = true →
     (dd, wps.abd_prip_ndx) ∈ off_roster_slots wl dl pre
     ∨ ∃ w, w ∈ wl ∧ available_for works_abd_prip w dd)
  ∧ ∃ w, w ∈ wl ∧ available_for works_travma_prip w dd.
Proof.
  intros Hok Hdd.
  destruct (construct wl dl pre cfg initial) as [[r| |?] s] eqn:Hc;
    try discriminate.
  runs_of Hc. apply ran_set_preschedule_slots in Hpre as ->.
  destruct Hcheck as (s1 & s2 & H & _).
  unfold check_unconnected_availability in H.
  apply for_acc_ok in H as [_ H]; [|solve_mono].
  destruct (H (dd, day)) as (acc & acc' & s3 & s4 & Hbody & _);
    [by apply elem_of_enumerate|].
  cbv zeta in Hbody.
  apply bind_ok in Hbody as (a & s5 & Hcollect & Hbody).
  apply bind_ok in Hbody as ([] & s6 & Habd & Hbody).
  apply bind_ok in Hbody as ([] & s7 & Hprip & Hbody).
  apply bind_ok in Hbody as ([] & s8 & Htravma & _).
  apply when_exit_ok, bool_decide_eq_false in Habd, Hprip, Htravma.
  apply collect_available_lists in Hcollect as (Ca & Cp & Ct).
  simpl in Ca, Cp, Ct. unfold is_preassigned in *.
  split; [|split].
  - destruct Ca as [Ha|]; [| |by right].
    + intros Hnil. apply Habd. by rewrite Hnil.
    + left. case_bool_decide; [done|]. by destruct Ha.
  - intros Hw. destruct (Cp Hw) as [Ha|]; [| |by right].
    + intros Hnil. apply Hprip. by rewrite Hnil.
    + left. case_bool_decide; [done|]. by destruct Ha.
  - destruct Ct as [Ha|]; [| done | done].
    intros Hnil. apply Htravma. by rewrite Hnil.
Qed.

Lemma availability_check_passed_witness :
  ended_ok (construct Demo.roster Demo.days Demo.preschedule Demo.config
              initial).1 = true
  ∧ Demo.days !! 0%nat = Some Demo.friday
  ∧ ∃ w, w ∈ Demo.roster ∧ available_for works_travma_prip w 0.
Proof.
  assert (ended_ok (construct Demo.roster Demo.days Demo.preschedule
                      Demo.config initial).1 = true) as Hok
    by (vm_compute; reflexivity).
  split; [exact Hok|]. split; [reflexivity|].
  destruct (availability_check_passed Demo.roster Demo.days Demo.preschedule
              Demo.config 0 Demo.friday Hok eq_refl) as (_ & _ & H).
  exact H.
Defined.

(** ** What a normal end of the construction says about the input *)

Lemma years_of_workers_loop wl acc s r s' :
  for_acc wl acc (fun worker years =>
    year ← lookup_or (KeyError (status worker)) (year_of_specialization worker);
    mret (years ++ [year])) s = (Ok r, s') →
  ∃ ys, r = acc ++ ys
        ∧ Forall2 (fun w y => year_of_specialization w = Some y) wl ys
        ∧ s' = s.
Proof.
  revert acc s. induction wl as [|w wl IH]; intros acc s H; simpl in H.
  - apply mret_ok in H as [-> ->]. exists []. by rewrite app_nil_r.
  - apply bind_ok in H as (acc' & s1 & Hbody & H).
    apply bind_ok in Hbody as (y & s2 & Hy & Hbody).
    apply lookup_or_ok in Hy as [Hy ->]. apply mret_ok in Hbody as [-> ->].
    apply IH in H as (ys & -> & HF & ->).
    exists (y :: ys). rewrite <- app_assoc. split; [done|]. split; [|done].
    by constructor.
Qed.

(** X16: the construction ends normally only for a well-formed input: the
    roster is not empty, every worker's status is a key of the status table,
    every worker has an availability entry for every day, and every
    preschedule entry names a day of the list and a known workplace. *)
Theorem normal_end_needs_well_formed_input wl dl pre cfg :
  ended_ok (construct wl dl pre cfg initial).1 = true →
  wl ≠ []
  ∧ (∀ w, w ∈ wl →
       is_Some (year_of_specialization w)
       ∧ (length dl ≤ length (workdates w))%nat)
  ∧ (∀ n day workplace, (n, day, workplace) ∈ pre →
       is_Some (day_index dl day)
       ∧ is_Some (wps.index wps.ALL_WORKPLACES workplace)).
Proof.
  intros Hok.
  destruct (construct wl dl pre cfg initial) as [[r| |?] s] eqn:Hc;
    try discriminate.
  runs_of Hc.
  destruct Htr1 as (s1 & s2 & Hrun & _). unfold weekend_travmaprip_1 in Hrun.
  apply bind_ok in Hrun as ([] & s3 & _ & Hrun).
  apply bind_ok in Hrun as (years & s4 & Hyears & Hrun).
  apply bind_ok in Hrun as (max_year & s5 & Hmax & _).
  apply lookup_or_ok in Hmax as [Hmax _].
  apply years_of_workers_loop in Hyears as (ys & -> & HF & _).
  simpl in Hmax.
  split; [|split].
  - intros ->. apply Forall2_nil_inv_l in HF as ->. discriminate.
  - intros w Hw. split.
    + apply list_elem_of_lookup in Hw as [i Hi].
      destruct (Forall2_lookup_l _ _ _ _ _ HF Hi) as (y & _ & Hy). by exists y.
    + destruct (length dl) as [|k] eqn:Hlen; [lia|].
      destruct (lookup_lt_is_Some_2 dl k) as [day Hday]; [lia|].
      destruct Hcheck as (sa & sb & Hrun & _).
      unfold check_unconnected_availability in Hrun.
      apply for_acc_ok in Hrun as [_ Hrun]; [|solve_mono].
      destruct (Hrun (k, day)) as (acc & acc' & sc & sd & Hbody & _);
        [by apply elem_of_enumerate|].
      cbv zeta in Hbody.
      apply bind_ok in Hbody as (a & se & Hcollect & _).
      unfold collect_available in Hcollect.
      apply for_acc_ok in Hcollect as [_ Hcollect]; [|solve_mono].
      destruct (Hcollect w Hw) as (b & b' & sf & sg & Hw' & _).
      apply bind_ok in Hw' as (e & sh & He & _).
      apply lookup_or_ok in He as [He _].
      apply lookup_lt_Some in He. lia.
  - intros n day workplace Hin.
    destruct Hpre as (sa & sb & Hrun & _). unfold set_preschedule in Hrun.
    apply for_acc_ok in Hrun as [_ Hrun]; [|solve_mono].
    destruct (Hrun _ Hin) as (acc & acc' & sc & sd & Hbody & _).
    apply bind_ok in Hbody as (dd & se & Hd & Hbody).
    apply bind_ok in Hbody as (pp & sf & Hp & _).
    apply lookup_or_ok in Hd as [Hd _]. apply lookup_or_ok in Hp as [Hp _].
    split; [by exists dd | by exists pp].
Qed.

Lemma normal_end_needs_well_formed_input_witness :
  ended_ok (construct Demo.roster Demo.days Demo.preschedule Demo.config
              initial).1 = true
  ∧ Demo.roster ≠ []
  ∧ ∀ w, w ∈ Demo.roster →
      is_Some (year_of_specialization w)
      ∧ (length Demo.days ≤ length (workdates w))%nat.
Proof.
  assert (ended_ok (construct Demo.roster Demo.days Demo.preschedule
                      Demo.config initial).1 = true) as Hok
    by (vm_compute; reflexivity).
  split; [exact Hok|].
  destruct (normal_end_needs_well_formed_input Demo.roster Demo.days
              Demo.preschedule Demo.config Hok) as (H1 & H2 & _).
  split; [exact H1 | exact H2].
Defined.

(** X17: the construction ends normally only if the configuration has a
    weight for every worker that enters the workload comparison: for a worker
    with "Krožeči" in neither specialty slot the keys "workday", "weekend"
    and "night_<year of specialization>" are all present. *)
Theorem normal_end_needs_workload_weights wl dl pre cfg w :
  ended_ok (construct wl dl pre cfg initial).1 = true →
  w ∈ wl →
  is_krozeci w = false →
  ∃ year,
    year_of_specialization w = Some year
    ∧ is_Some (workplace_weights cfg !! ("night_" +:+ pretty year))
    ∧ is_Some (workplace_weights cfg !! "workday")
    ∧ is_Some (workplace_weights cfg !! "weekend").
Proof.
  intros Hok Hw Hk.
  destruct (construct wl dl pre cfg initial) as [[r| |?] s] eqn:Hc;
    try discriminate.
  runs_of Hc.
  destruct Hworkload as (s1 & s2 & Hrun & _). unfold equal_workload in Hrun.
  apply bind_ok in Hrun as (max_weight & s3 & _ & Hrun).
  apply bind_ok in Hrun as (lists & s4 & Hloop & _).
  apply for_acc_ok in Hloop as [_ Hloop]; [|solve_mono].
  apply list_elem_of_lookup in Hw as [ww Hww].
  destruct (Hloop (ww, w)) as ([tw wlw] & acc' & sa & sb & Hbody & _);
    [by apply elem_of_enumerate|].
  unfold workload_of_worker in Hbody. rewrite Hk in Hbody.
  apply bind_ok in Hbody as (year & sc & Hy & Hbody).
  apply bind_ok in Hbody as (wn & sd & Hn & Hbody).
  apply bind_ok in Hbody as (wd & se & Hd & Hbody).
  apply bind_ok in Hbody as (we & sf & He & _).
  apply lookup_or_ok in Hy as [Hy _]. apply lookup_or_ok in Hn as [Hn _].
  apply lookup_or_ok in Hd as [Hd _]. apply lookup_or_ok in He as [He _].
  exists year. split; [done|]. split; [by exists wn|].
  split; [by exists wd | by exists we].
Qed.

Lemma normal_end_needs_workload_weights_witness :
  ended_ok (construct Demo.roster Demo.days Demo.preschedule Demo.config
              initial).1 = true
  ∧ Demo.novak ∈ Demo.roster
  ∧ is_krozeci Demo.novak = false
  ∧ ∃ year,
      year_of_specialization Demo.novak = Some year
      ∧ is_Some (workplace_weights Demo.config !! ("night_" +:+ pretty year))
      ∧ is_Some (workplace_weights Demo.config !! "workday")
      ∧ is_Some (workplace_weights Demo.config !! "weekend").
Proof.
  assert (ended_ok (construct Demo.roster Demo.days Demo.preschedule
                      Demo.config initial).1 = true) as Hok
    by (vm_compute; reflexivity).
  assert (Demo.novak ∈ Demo.roster) as Hin by left.
  assert (is_krozeci Demo.novak = false) as Hk by (vm_compute; reflexivity).
  split; [exact Hok|]. split; [exact Hin|]. split; [exact Hk|].
  exact (normal_end_needs_workload_weights Demo.roster Demo.days
           Demo.preschedule Demo.config Demo.novak Hok Hin Hk).
Defined.

(** ** The soft terms *)

(** X18: in every solved schedule the flag [consecutive_night] of a worker
    and a day is Boolean, and it is 1 exactly when the worker has a night
    workplace on that day and on the next one. *)
Theorem consecutive_night_flag wl dl pre cfg v ww dd :
  solved wl dl pre cfg v →
  (ww < length wl)%nat →
  (dd + 1 < length dl)%nat →
  0 ≤ v (consecutive_night ww dd) ≤ 1
  ∧ (v (consecutive_night ww dd) = 1
     ↔ 1 ≤ count_on v ww dd wps.range_night_workplaces
       ∧ 1 ≤ count_on v ww (dd + 1) wps.range_night_workplaces).
Proof.
  intros Hs Hww Hdd.
  apply solved_inv in Hs as (r & s & Hc & Hv). runs_of Hc.
  destruct Hnights as (s1 & s2 & Hrun & Hext).
  unfold consecutive_nights in Hrun.
  apply for_acc_ok in Hrun as [_ Hrun]; [|solve_mono].
  destruct (Hrun ww) as (acc & acc' & sa & sb & Hl & _ & Hsb);
    [by apply elem_of_range|].
  apply for_acc_ok in Hl as [_ Hl]; [|solve_mono].
  destruct (Hl dd) as (acc1 & acc1' & sc & sd & Hp & _ & Hse).
  { apply elem_of_range. unfold num_days. clear - Hdd. lia. }
  inv_binds Hp. apply mret_ok in Hp as [_ Heq]. rewrite Heq in Hse.
  note_all_extends.
  assert (∀ c, c ∈ constraints (model s) → holds v c) as Hcs
    by (intros c Hin; by eapply solves_constraint).
  assert (∀ x, (x, (0, 1)) ∈ variables (model s) → 0 ≤ v x ≤ 1) as Hd
    by (intros x Hin; by eapply solves_variable).
  assert (0 ≤ v (consecutive_night ww dd) ≤ 1) as Dc
    by (apply Hd; declared_bool).
  assert (0 ≤ v (night_today ww dd) ≤ 1) as D1 by (apply Hd; declared_bool).
  assert (0 ≤ v (night_tomorrow ww dd) ≤ 1) as D2 by (apply Hd; declared_bool).
  assert (v (night_today ww dd) = 1
          → 1 ≤ count_on v ww dd wps.range_night_workplaces) as T1.
  { intros Eone.
    assert (rel_holds Rge (eval v (shifts ww dd wps.range_night_workplaces))
              (eval v 1)) as H0.
    { apply (holds_Linear_if v _ Rge 1 (Pos (night_today ww dd)));
        [apply Hcs; added_constraint | exact Eone]. }
    cbn [rel_holds eval] in H0. by rewrite eval_shifts in H0. }
  assert (v (night_today ww dd) = 0
          → count_on v ww dd wps.range_night_workplaces = 0) as F1.
  { intros Ezero.
    assert (rel_holds Req (eval v (shifts ww dd wps.range_night_workplaces))
              (eval v 0)) as H0.
    { apply (holds_Linear_if v _ Req 0 (Not (night_today ww dd)));
        [apply Hcs; added_constraint | exact Ezero]. }
    cbn [rel_holds eval] in H0. by rewrite eval_shifts in H0. }
  assert (v (night_tomorrow ww dd) = 1
          → 1 ≤ count_on v ww (dd + 1) wps.range_night_workplaces) as T2.
  { intros Eone.
    assert (rel_holds Rge
              (eval v (shifts ww (dd + 1) wps.range_night_workplaces))
              (eval v 1)) as H0.
    { apply (holds_Linear_if v _ Rge 1 (Pos (night_tomorrow ww dd)));
        [apply Hcs; added_constraint | exact Eone]. }
    cbn [rel_holds eval] in H0. by rewrite eval_shifts in H0. }
  assert (v (night_tomorrow ww dd) = 0
          → count_on v ww (dd + 1) wps.range_night_workplaces = 0) as F2.
  { intros Ezero.
    assert (rel_holds Req
              (eval v (shifts ww (dd + 1) wps.range_night_workplaces))
              (eval v 0)) as H0.
    { apply (holds_Linear_if v _ Req 0 (Not (night_tomorrow ww dd)));
        [apply Hcs; added_constraint | exact Ezero]. }
    cbn [rel_holds eval] in H0. by rewrite eval_shifts in H0. }
  assert (holds v (BoolAnd [Pos (night_today ww dd);
                            Pos (night_tomorrow ww dd)]
                     (Some (Pos (consecutive_night ww dd))))) as Hand
    by (apply Hcs; added_constraint).
  assert (holds v (BoolOr [Not (night_today ww dd);
                           Not (night_tomorrow ww dd)]
                     (Some (Not (consecutive_night ww dd))))) as Hor
    by (apply Hcs; added_constraint).
  cbn [holds enforced lit_true] in Hand, Hor.
  split; [exact Dc|]. split.
  - intros Eone. specialize (Hand Eone).
    apply Forall_cons in Hand as [Ha Hand].
    apply Forall_cons in Hand as [Hb _]. simpl in Ha, Hb. auto.
  - intros [C1 C2].
    destruct (decide (v (consecutive_night ww dd) = 0)) as [Ez|];
      [|clear - Dc n; lia].
    specialize (Hor Ez).
    apply Exists_cons in Hor as [Hor|Hor];
      [simpl in Hor; apply F1 in Hor; clear - Hor C1; lia|].
    apply Exists_cons in Hor as [Hor|Hor];
      [simpl in Hor; apply F2 in Hor; clear - Hor C2; lia|].
    by apply Exists_nil in Hor.
Qed.

Lemma consecutive_night_flag_witness :
  solved Demo.roster Demo.days Demo.preschedule Demo.config Demo.schedule
  ∧ 0 ≤ Demo.schedule (consecutive_night 0 0) ≤ 1
  ∧ (Demo.schedule (consecutive_night 0 0) = 1
     ↔ 1 ≤ count_on Demo.schedule 0 0 wps.range_night_workplaces
       ∧ 1 ≤ count_on Demo.schedule 0 (0 + 1) wps.range_night_workplaces).
Proof.
  assert (solved Demo.roster Demo.days Demo.preschedule Demo.config
                 Demo.schedule) as Hs
    by (apply decide_solved; vm_compute; reflexivity).
  split; [exact Hs|].
  apply (consecutive_night_flag Demo.roster Demo.days Demo.preschedule
           Demo.config Demo.schedule 0 0 Hs).
  - vm_compute; lia.
  - vm_compute; lia.
Defined.

Lemma flat_map_nil {A B} (f : A → list B) (l : list A) :
  (∀ x, x ∈ l → f x = []) → flat_map f l = [].
Proof.
  induction l as [|x l IH]; intros H; simpl; [done|].
  rewrite (H x) by left. apply IH. intros y Hy. apply H. by right.
Qed.

(** X19: the count of preferred assignments to the unconnected workplaces
    compares an availability entry with the tuple [(1, 1)].  When every
    availability entry of the roster is a list, as [parse_work_dates] builds
    them, no entry equals the tuple and the count is 0 in every solved
    schedule. *)
Theorem unconnected_preference_count_is_zero wl dl pre cfg v :
  solved wl dl pre cfg v →
  (∀ w e, w ∈ wl → e ∈ workdates w → ∃ a b, e = WList a b) →
  v penalty_preferential_assignment_day_unconnected = 0.
Proof.
  intros Hs Hlist.
  apply solved_inv in Hs as (r & s & Hc & Hv). runs_of Hc.
  destruct Hprefa as (s1 & s2 & Hrun & Hext).
  unfold preferential_assignment in Hrun.
  inv_binds Hrun. note_all_extends. apply Add_ok in Hrun.
  match type of Hrun with ?c ∈ _ => assert (holds v c) as H end.
  { eapply solves_constraint; [done|].
    eapply extends_constraint; [|exact Hrun]. chain_extends. }
  apply holds_Linear in H. cbn [rel_holds] in H.
  etrans; [exact H|]. clear - Hlist.
  rewrite flat_map_nil; [done|].
  intros pp _. apply flat_map_nil. intros dd _. apply flat_map_nil.
  intros [ww worker] Hw. apply elem_of_enumerate in Hw.
  apply list_elem_of_lookup_2 in Hw.
  unfold workdate_at.
  destruct (workdates worker !! dd) as [e|] eqn:He; simpl; [|done].
  apply list_elem_of_lookup_2 in He.
  by destruct (Hlist worker e Hw He) as (a & b & ->).
Qed.

Lemma unconnected_preference_count_is_zero_witness :
  solved Preference.roster [monday] Preference.preschedule Preference.config
         Preference.preferred
  ∧ Preference.preferred penalty_preferential_assignment_day_unconnected = 0.
Proof.
  assert (solved Preference.roster [monday] Preference.preschedule
                 Preference.config Preference.preferred) as Hs
    by (apply decide_solved; vm_compute; reflexivity).
  split; [exact Hs|].
  apply (unconnected_preference_count_is_zero Preference.roster [monday]
           Preference.preschedule Preference.config Preference.preferred Hs).
  intros w e Hw He.
  assert (forallb (fun w => forallb (fun e => match e with
                                              | WList _ _ => true
                                              | WTuple _ _ => false
                                              end) (workdates w))
                  Preference.roster = true) as Hb
    by (vm_compute; reflexivity).
  rewrite forallb_forall in Hb.
  apply list_elem_of_In in Hw. apply list_elem_of_In in He.
  specialize (Hb w Hw). rewrite forallb_forall in Hb. specialize (Hb e He).
  destruct e as [a b|a b]; [exists a, b; reflexivity | discriminate].
Defined.

(** ** The cells of the schedule table *)

Lemma cell_set_cell_ne a i j x i' j' :
  i ≠ i' ∨ j ≠ j' → cell (set_cell a i j x) i' j' = cell a i' j'.
Proof.
  intros H. unfold cell, set_cell.
  destruct (decide (i = i')) as [->|Hi].
  - rewrite list_lookup_alter_eq. destruct (a !! i') as [row|]; simpl; [|done].
    apply list_lookup_insert_ne. destruct H; congruence.
  - by rewrite list_lookup_alter_ne.
Qed.

Lemma cell_set_cell_eq a i j x :
  is_Some (cell a i j) → cell (set_cell a i j x) i j = Some x.
Proof.
  unfold cell, set_cell. rewrite list_lookup_alter_eq.
  destruct (a !! i) as [row|]; simpl; [|by intros [? ?]].
  intros H. apply list_lookup_insert_eq. by apply lookup_lt_is_Some.
Qed.

(** A write keeps the cell or sets it to the written string. *)
Lemma cell_set_cell a i j x i' j' :
  is_Some (cell a i' j') →
  cell (set_cell a i j x) i' j' = cell a i' j'
  ∨ (i = i' ∧ j = j' ∧ cell (set_cell a i j x) i' j' = Some x).
Proof.
  intros H. destruct (decide (i = i')) as [->|Hi];
    [destruct (decide (j = j')) as [->|Hj]|].
  - right. by rewrite cell_set_cell_eq.
  - left. apply cell_set_cell_ne. by right.
  - left. apply cell_set_cell_ne. by left.
Qed.

Lemma foldl_invariant_in {A B} (I : A → Prop) (f : A → B → A) (l : list B) a :
  (∀ a x, x ∈ l → I a → I (f a x)) → I a → I (foldl f a l).
Proof.
  revert a. induction l as [|x l IH]; intros a Hf Ha; simpl; [done|].
  apply IH.
  - intros a' y Hy. apply Hf. by right.
  - apply Hf; [left | done].
Qed.

(** A loop none of whose steps changes a cell leaves the cell as it was. *)
Lemma foldl_cell_unchanged {B} (f : list (list string) → B → list (list string))
    (l : list B) i j a :
  is_Some (cell a i j) →
  (∀ a x, x ∈ l → is_Some (cell a i j) → cell (f a x) i j = cell a i j) →
  cell (foldl f a l) i j = cell a i j.
Proof.
  intros Ha Hf.
  apply (foldl_invariant_in (fun a' => cell a' i j = cell a i j)); [|done].
  intros a' x Hx Ha'. rewrite Hf; [done | done | by rewrite Ha'].
Qed.

(** A loop whose steps keep a cell or write [n] to it, and one of whose steps
    writes [n], ends with [n] in the cell. *)
Lemma foldl_cell_written {B} (f : list (list string) → B → list (list string))
    (l : list B) i j n a :
  (∀ a x, x ∈ l → is_Some (cell a i j) →
     cell (f a x) i j = cell a i j ∨ cell (f a x) i j = Some n) →
  (∃ x, x ∈ l ∧ ∀ a, is_Some (cell a i j) → cell (f a x) i j = Some n) →
  is_Some (cell a i j) →
  cell (foldl f a l) i j = Some n.
Proof.
  intros Hf (x & Hx & Hw). revert a.
  induction l as [|y l IH]; intros a Ha; [by apply elem_of_nil in Hx|].
  simpl.
  assert (∀ l' a', (∀ z, z ∈ l' → z ∈ y :: l) → cell a' i j = Some n →
                   cell (foldl f a' l') i j = Some n) as Hkeep.
  { intros l' a' Hsub Ha'.
    apply (foldl_invariant_in (fun b => cell b i j = Some n)); [|done].
    intros b z Hz Hb. destruct (Hf b z (Hsub z Hz)) as [E|E];
      [by rewrite Hb | by rewrite E, Hb | done]. }
  apply elem_of_cons in Hx as [->|Hx].
  - apply Hkeep; [intros z Hz; by right | by apply Hw].
  - apply IH; [intros b z Hz; apply Hf; by right | done |].
    destruct (Hf a y) as [E|E]; [by left | done | by rewrite E | by rewrite E].
Qed.

(** The three nested loops that fill in the schedule, for one cell. *)
Lemma fill_workplaces_cell (v : valuation) dd ww worker i j a :
  is_Some (cell a i j) →
  let a' := foldl (fun array '(pp, workplace) =>
                     if bool_decide (v (work ww dd pp) = 1)
                     then set_cell array (dd + 1) (pp + 1) (name worker)
                     else array)
                  a (enumerate wps.ALL_WORKPLACES) in
  (cell a' i j = cell a i j ∨ cell a' i j = Some (name worker))
  ∧ (∀ pp, (pp < num_workplaces)%nat → i = (dd + 1)%nat → j = (pp + 1)%nat →
           v (work ww dd pp) = 1 → cell a' i j = Some (name worker))
  ∧ ((∀ pp, i = (dd + 1)%nat → j = (pp + 1)%nat → v (work ww dd pp) ≠ 1) →
     cell a' i j = cell a i j).
Proof.
  intros Ha. cbv zeta.
  match goal with |- context [foldl ?g _ _] => set (f := g) end.
  assert (∀ b x, is_Some (cell b i j) →
            cell (f b x) i j = cell b i j
            ∨ (i = (dd + 1)%nat ∧ j = (x.1 + 1)%nat ∧ v (work ww dd x.1) = 1
               ∧ cell (f b x) i j = Some (name worker))) as Hstep.
  { intros b [pp wp] Hb. unfold f. simpl.
    case_bool_decide as Hv; [|by left].
    destruct (cell_set_cell b (dd + 1) (pp + 1) (name worker) i j Hb)
      as [E|(-> & -> & E)]; [by left | by right]. }
  split; [|split].
  - apply (foldl_invariant_in
             (fun b => cell b i j = cell a i j
                       ∨ cell b i j = Some (name worker))); [|by left].
    intros b x _ Hb.
    assert (is_Some (cell b i j)) as Hsome
      by (destruct Hb as [-> | ->]; [done | by eexists]).
    destruct (Hstep b x Hsome) as [E|(_ & _ & _ & E)];
      [rewrite E; exact Hb | by right].
  - intros pp Hpp -> -> Hv.
    destruct (lookup_lt_is_Some_2 wps.ALL_WORKPLACES pp Hpp) as [wp Hwp].
    apply foldl_cell_written; [| |done].
    + intros b z _ Hb. destruct (Hstep b z Hb) as [E|(_ & _ & _ & E)]; auto.
    + exists (pp, wp). split; [by apply elem_of_enumerate|].
      intros b Hb. unfold f. rewrite (bool_decide_eq_true_2 _ Hv).
      by apply cell_set_cell_eq.
  - intros Hnone. apply foldl_cell_unchanged; [done|].
    intros b [pp wp] _ _. unfold f. case_bool_decide as Hv; [|done].
    apply cell_set_cell_ne.
    destruct (decide (dd + 1 = i)%nat) as [<-|]; [|by left].
    destruct (decide (pp + 1 = j)%nat) as [<-|]; [|by right].
    by destruct (Hnone pp).
Qed.

Lemma fill_workers_cell (v : valuation) (wl : list Worker) dd i j a :
  is_Some (cell a i j) →
  let a' := foldl (fun array '(ww, worker) =>
                     foldl (fun array '(pp, workplace) =>
                              if bool_decide (v (work ww dd pp) = 1)
                              then set_cell array (dd + 1) (pp + 1)
                                            (name worker)
                              else array)
                           array (enumerate wps.ALL_WORKPLACES))
                  a (enumerate wl) in
  (∀ ww worker pp,
     wl !! ww = Some worker → (pp < num_workplaces)%nat →
     i = (dd + 1)%nat → j = (pp + 1)%nat →
     v (work ww dd pp) = 1 →
     (∀ ww', (ww' < length wl)%nat → ww' ≠ ww → v (work ww' dd pp) ≠ 1) →
     cell a' i j = Some (name worker))
  ∧ ((∀ ww pp, (ww < length wl)%nat → i = (dd + 1)%nat → j = (pp + 1)%nat →
               v (work ww dd pp) ≠ 1) →
     cell a' i j = cell a i j).
Proof.
  intros Ha. cbv zeta. split.
  - intros ww worker pp Hww Hpp Hi Hj Hv Hu.
    apply foldl_cell_written; [| |done].
    + intros b [ww' worker'] Hin Hb. apply elem_of_enumerate in Hin.
      destruct (fill_workplaces_cell v dd ww' worker' i j b Hb)
        as (Hk & _ & Hn). cbv zeta in Hk, Hn.
      destruct (decide (ww' = ww)) as [->|Hne].
      * rewrite Hww in Hin. injection Hin as <-. exact Hk.
      * left. apply Hn. intros pp' _ Hj'.
        assert (pp' = pp) as -> by (clear - Hj Hj'; lia).
        apply Hu; [|done]. by apply lookup_lt_Some in Hin.
    + exists (ww, worker). split; [by apply elem_of_enumerate|].
      intros b Hb.
      destruct (fill_workplaces_cell v dd ww worker i j b Hb) as (_ & Hw & _).
      cbv zeta in Hw. by apply (Hw pp).
  - intros Hnone. apply foldl_cell_unchanged; [done|].
    intros b [ww worker] Hin Hb. apply elem_of_enumerate in Hin.
    destruct (fill_workplaces_cell v dd ww worker i j b Hb) as (_ & _ & Hn).
    cbv zeta in Hn. apply Hn. intros pp Hi Hj.
    apply Hnone; [|done|done]. by apply lookup_lt_Some in Hin.
Qed.

Lemma fill_days_cell (v : valuation) (wl : list Worker) (dl : list Day)
    i j a :
  is_Some (cell a i j) →
  let a' := foldl (fun array '(dd, day) =>
                     foldl (fun array '(ww, worker) =>
                              foldl (fun array '(pp, workplace) =>
                                       if bool_decide (v (work ww dd pp) = 1)
                                       then set_cell array (dd + 1) (pp + 1)
                                                     (name worker)
                                       else array)
                                    array (enumerate wps.ALL_WORKPLACES))
                           array (enumerate wl))
                  a (enumerate dl) in
  (∀ dd day ww worker pp,
     dl !! dd = Some day → wl !! ww = Some worker →
     (pp < num_workplaces)%nat →
     i = (dd + 1)%nat → j = (pp + 1)%nat →
     v (work ww dd pp) = 1 →
     (∀ ww', (ww' < length wl)%nat → ww' ≠ ww → v (work ww' dd pp) ≠ 1) →
     cell a' i j = Some (name worker))
  ∧ ((∀ dd ww pp, (dd < length dl)%nat → (ww < length wl)%nat →
                  i = (dd + 1)%nat → j = (pp + 1)%nat →
                  v (work ww dd pp) ≠ 1) →
     cell a' i j = cell a i j).
Proof.
  intros Ha. cbv zeta. split.
  - intros dd day ww worker pp Hdd Hww Hpp Hi Hj Hv Hu.
    apply foldl_cell_written; [| |done].
    + intros b [dd' day'] Hin Hb. apply elem_of_enumerate in Hin.
      destruct (fill_workers_cell v wl dd' i j b Hb) as (Hw & Hn).
      cbv zeta in Hw, Hn.
      destruct (decide (dd' = dd)) as [->|Hne].
      * right. by apply (Hw ww worker pp).
      * left. apply Hn. intros ww' pp' _ Hi'. clear - Hi Hi' Hne. lia.
    + exists (dd, day). split; [by apply elem_of_enumerate|].
      intros b Hb. destruct (fill_workers_cell v wl dd i j b Hb) as (Hw & _).
      cbv zeta in Hw. by apply (Hw ww worker pp).
  - intros Hnone. apply foldl_cell_unchanged; [done|].
    intros b [dd day] Hin Hb. apply elem_of_enumerate in Hin.
    destruct (fill_workers_cell v wl dd i j b Hb) as (_ & Hn).
    cbv zeta in Hn. apply Hn. intros ww pp Hww Hi Hj.
    apply Hnone; [|done..]. by apply lookup_lt_Some in Hin.
Qed.

(** The preschedule loop, for one cell: every step keeps the cell or writes
    the name of an entry for the slot of the cell. *)
Lemma fill_preschedule_step (dl : list Day) (x : string * Day * string)
    i j a :
  is_Some (cell a i j) →
  let a' := (let '(name, day, workplace) := x in
             match day_index dl day,
                   wps.index wps.ALL_WORKPLACES workplace with
             | Some day_index, Some workplace_index =>
                 set_cell a (day_index + 1) (workplace_index + 1) name
             | _, _ => a
             end) in
  cell a' i j = cell a i j
  ∨ (∃ dd pp, day_index dl x.1.2 = Some dd
              ∧ wps.index wps.ALL_WORKPLACES x.2 = Some pp
              ∧ i = (dd + 1)%nat ∧ j = (pp + 1)%nat
              ∧ cell a' i j = Some x.1.1).
Proof.
  intros Ha. destruct x as [[n day] workplace]. cbv zeta. cbn [fst snd].
  destruct (day_index dl day) as [dd|]; [|by left].
  destruct (wps.index wps.ALL_WORKPLACES workplace) as [pp|]; [|by left].
  destruct (cell_set_cell a (dd + 1) (pp + 1) n i j Ha) as [E|(<- & <- & E)];
    [by left|].
  right. by exists dd, pp.
Qed.

(** The table before the loops that fill it in. *)
Lemma empty_table_cell (n i j : nat) :
  (0 < i)%nat → (i < n + 1)%nat → (j < length wps.ALL_WORKPLACES + 2)%nat →
  cell (<[0%nat := workplaces_header]>
          (replicate (n + 1) (replicate (length wps.ALL_WORKPLACES + 2) "")))
       i j = Some "".
Proof.
  intros Hi Hn Hj. unfold cell.
  rewrite list_lookup_insert_ne by lia.
  rewrite (lookup_replicate_2 (n + 1) _ i Hn). simpl.
  exact (lookup_replicate_2 _ _ j Hj).
Qed.

Lemma set_cell_keeps_cell a i j x i' j' :
  is_Some (cell a i' j') → is_Some (cell (set_cell a i j x) i' j').
Proof.
  intros H. destruct (cell_set_cell a i j x i' j' H) as [-> | (_ & _ & ->)];
    [done | by eexists].
Qed.

(** The position [list.index] returns holds the element. *)
Lemma index_lookup (l : list string) (x : string) (i : nat) :
  wps.index l x = Some i → l !! i = Some x.
Proof.
  revert i. induction l as [|y l IH]; intros i; simpl; [done|].
  case_bool_decide as Hy.
  - intros [= <-]. by rewrite Hy.
  - destruct (wps.index l x) as [k|]; simpl; [|done].
    intros [= <-]. simpl. by apply IH.
Qed.

Lemma day_index_lt (dl : list Day) (day : Day) (dd : nat) :
  day_index dl day = Some dd → (dd < length dl)%nat.
Proof.
  intros H. apply index_lookup, lookup_lt_Some in H.
  by rewrite length_fmap in H.
Qed.

(** The tables after the date loop and after the preschedule loop have every
    cell of the date rows. *)
Lemma dates_stage_cell (dl : list Day) a0 i j :
  is_Some (cell a0 i j) →
  is_Some (cell (foldl (fun array ii =>
                          set_cell array ii 0
                            (default "" (date <$> dl !! (ii - 1)%nat)))
                       a0 (wps.range 1 (length a0))) i j).
Proof.
  intros H.
  apply (foldl_invariant (fun a => is_Some (cell a i j))); [|done].
  intros a ii Ha. by apply set_cell_keeps_cell.
Qed.

Lemma preschedule_stage_cell (dl : list Day)
    (pre : list (string * Day * string)) a1 i j :
  is_Some (cell a1 i j) →
  is_Some (cell (foldl (fun array '(name, day, workplace) =>
                          match day_index dl day,
                                wps.index wps.ALL_WORKPLACES workplace with
                          | Some day_index, Some workplace_index =>
                              set_cell array (day_index + 1)
                                       (workplace_index + 1) name
                          | _, _ => array
                          end)
                       a1 pre) i j).
Proof.
  intros H.
  apply (foldl_invariant (fun a => is_Some (cell a i j))); [|done].
  intros a [[n day] workplace] Ha.
  destruct (day_index dl day); [|done].
  destruct (wps.index wps.ALL_WORKPLACES workplace); [|done].
  by apply set_cell_keeps_cell.
Qed.

(** X20: in every schedule table the first row is the header, "DATUM"
    followed by the workplaces, and the first entry of the row of each day is
    the date of the day: no later loop writes into the header row or the date
    column. *)
Theorem table_header_and_date_column wl dl pre v :
  schedule_array wl dl pre v !! 0%nat = Some workplaces_header
  ∧ ∀ dd day, dl !! dd = Some day →
      cell (schedule_array wl dl pre v) (dd + 1) 0 = Some (date day).
Proof.
  assert (∀ (a : list (list string)) k j x,
            a !! 0%nat = Some workplaces_header →
            set_cell a (k + 1) j x !! 0%nat = Some workplaces_header) as Hrow.
  { intros a k j x Ha. unfold set_cell.
    rewrite list_lookup_alter_ne by lia. done. }
  split.
  - unfold schedule_array.
    set (I := fun a : list (list string) => a !! 0%nat = Some workplaces_header).
    apply (foldl_invariant I).
    { intros a [dd day] Ha. apply (foldl_invariant I); [|done].
      intros a' [ww worker] Ha'. apply (foldl_invariant I); [|done].
      intros a'' [pp workplace] Ha''. case_bool_decide; [|done].
      by apply Hrow. }
    apply (foldl_invariant I).
    { intros a [[n day] workplace] Ha.
      destruct (day_index dl day); [|done].
      destruct (wps.index wps.ALL_WORKPLACES workplace); [|done].
      by apply Hrow. }
    apply (foldl_invariant_in I).
    { intros a ii Hii Ha. apply elem_of_seq in Hii.
      replace ii with (ii - 1 + 1)%nat at 1 by lia. by apply Hrow. }
    unfold I. apply list_lookup_insert_eq.
    rewrite length_replicate. lia.
  - intros dd day Hdd. pose proof (lookup_lt_Some _ _ _ Hdd) as Hlt.
    unfold schedule_array. cbv zeta.
    match goal with |- context [foldl _ ?a (enumerate dl)] => set (A2 := a) end.
    match goal with A2 := foldl _ ?a pre |- _ => set (A1 := a) in A2 end.
    assert (cell A1 (dd + 1) 0 = Some (date day)) as H1.
    { unfold A1. apply foldl_cell_written.
      - intros a ii _ Ha.
        destruct (cell_set_cell a ii 0
                    (default "" (date <$> dl !! (ii - 1)%nat)) (dd + 1) 0 Ha)
          as [E|(-> & _ & E)]; [by left|].
        right. rewrite E. replace (dd + 1 - 1)%nat with dd by lia.
        by rewrite Hdd.
      - exists (dd + 1)%nat. split.
        + apply elem_of_seq. rewrite length_insert, length_replicate.
          unfold num_days. lia.
        + intros a Ha. rewrite cell_set_cell_eq by done.
          replace (dd + 1 - 1)%nat with dd by lia. by rewrite Hdd.
      - rewrite empty_table_cell; [by eexists | lia | unfold num_days; lia |].
        simpl. lia. }
    assert (cell A2 (dd + 1) 0 = Some (date day)) as H2.
    { unfold A2. rewrite foldl_cell_unchanged; [done | by rewrite H1 |].
      intros a x _ Ha.
      destruct (fill_preschedule_step dl x (dd + 1) 0 a Ha)
        as [E|(d & p & _ & _ & _ & Hj & _)]; [exact E | lia]. }
    destruct (fill_days_cell v wl dl (dd + 1) 0 A2) as [_ Hn];
      [by rewrite H2|].
    cbv zeta in Hn. rewrite Hn; [done|]. intros d w p _ _ _ Hj. lia.
Qed.

Lemma table_header_and_date_column_witness :
  cell (schedule_array Demo.roster Demo.days Demo.preschedule Demo.schedule)
       (0 + 1) 0 = Some (date Demo.friday).
Proof.
  exact (proj2 (table_header_and_date_column Demo.roster Demo.days
                  Demo.preschedule Demo.schedule) 0%nat Demo.friday eq_refl).
Defined.

(** In a solved schedule at most one worker is assigned to a slot. *)
Lemma one_worker_on_a_slot wl dl pre cfg v dd day pp ww ww' :
  solved wl dl pre cfg v →
  dl !! dd = Some day →
  (pp < num_workplaces)%nat →
  (ww < length wl)%nat → (ww' < length wl)%nat → ww' ≠ ww →
  v (work ww dd pp) = 1 →
  v (work ww' dd pp) ≠ 1.
Proof.
  intros Hs Hdd Hpp Hww Hww' Hne Hv Hv'.
  pose proof (coverage_value _ _ _ _ _ _ _ _ Hs Hdd Hpp) as Hcov.
  assert (coverage_total (off_roster_slots wl dl pre) dd day pp ≤ 1) as Hle.
  { unfold coverage_total.
    destruct (negb _); [|lia]. destruct (_ && _); lia. }
  pose proof (lookup_lt_Some _ _ _ Hdd) as Hlt.
  pose proof (Zsum_two_le (fun ww => v (work ww dd pp)) (range (length wl))
                ww ww' ww ww') as Hsum.
  unfold workers_on in Hcov. rewrite Hcov in Hsum.
  assert (v (work ww dd pp) + v (work ww' dd pp) ≤
          coverage_total (off_roster_slots wl dl pre) dd day pp); [|lia].
  apply Hsum.
  - intros z Hz. apply elem_of_range in Hz.
    by apply (work_values _ _ _ _ _ _ _ Hs Hz Hlt pp Hpp).
  - done.
  - unfold range. by rewrite lookup_seq_lt.
  - unfold range. by rewrite lookup_seq_lt.
Qed.

(** X21: in the table of a solved schedule the cell of a day and a workplace
    holds the name of the worker assigned to the slot. *)
Theorem table_names_the_assigned_worker wl dl pre cfg v ww worker dd day pp :
  solved wl dl pre cfg v →
  wl !! ww = Some worker →
  dl !! dd = Some day →
  (pp < num_workplaces)%nat →
  assigned v ww dd pp →
  cell (schedule_array wl dl pre v) (dd + 1) (pp + 1) = Some (name worker).
Proof.
  intros Hs Hww Hdd Hpp Hv.
  pose proof (lookup_lt_Some _ _ _ Hdd) as Hlt.
  pose proof (lookup_lt_Some _ _ _ Hww) as Hwlt.
  unfold schedule_array. cbv zeta.
  match goal with |- context [foldl _ ?a (enumerate dl)] => set (A2 := a) end.
  assert (is_Some (cell A2 (dd + 1) (pp + 1))) as H2.
  { apply preschedule_stage_cell, dates_stage_cell.
    rewrite empty_table_cell; [by eexists | lia | unfold num_days; lia |].
    unfold num_workplaces in Hpp. lia. }
  destruct (fill_days_cell v wl dl (dd + 1) (pp + 1) A2 H2) as [Hw _].
  cbv zeta in Hw. apply (Hw dd day ww worker pp); try done.
  intros ww' Hlt' Hne.
  by apply (one_worker_on_a_slot wl dl pre cfg v dd day pp ww ww').
Qed.

Lemma table_names_the_assigned_worker_witness :
  solved Demo.roster Demo.days Demo.preschedule Demo.config Demo.schedule
  ∧ Demo.roster !! 0%nat = Some Demo.novak
  ∧ Demo.days !! 1%nat = Some Demo.saturday
  ∧ assigned Demo.schedule 0 1 2
  ∧ cell (schedule_array Demo.roster Demo.days Demo.preschedule Demo.schedule)
         (1 + 1) (2 + 1) = Some (name Demo.novak).
Proof.
  assert (solved Demo.roster Demo.days Demo.preschedule Demo.config
                 Demo.schedule) as Hs
    by (apply decide_solved; vm_compute; reflexivity).
  assert (2 < num_workplaces)%nat as Hpp by (vm_compute; lia).
  split; [exact Hs|]. split; [reflexivity|]. split; [reflexivity|].
  split; [reflexivity|].
  exact (table_names_the_assigned_worker Demo.roster Demo.days
           Demo.preschedule Demo.config Demo.schedule 0 Demo.novak 1
           Demo.saturday 2 Hs eq_refl eq_refl Hpp eq_refl).
Defined.

(** X22: in the table of a solved schedule a slot preassigned to a person
    outside the roster shows that person's name, provided every preschedule
    entry for the slot names the same person. *)
Theorem table_names_the_outsider wl dl pre cfg v n day workplace dd pp :
  solved wl dl pre cfg v →
  (n, day, workplace) ∈ pre →
  n ∉ worker_names wl →
  day_index dl day = Some dd →
  wps.index wps.ALL_WORKPLACES workplace = Some pp →
  (∀ n' day' workplace',
     (n', day', workplace') ∈ pre →
     day_index dl day' = Some dd →
     wps.index wps.ALL_WORKPLACES workplace' = Some pp →
     n' = n) →
  cell (schedule_array wl dl pre v) (dd + 1) (pp + 1) = Some n.
Proof.
  intros Hs Hin Hn Hd Hp Hsame.
  pose proof (day_index_lt _ _ _ Hd) as Hlt.
  assert (pp < num_workplaces)%nat as Hpp
    by (apply index_lookup, lookup_lt_Some in Hp; exact Hp).
  destruct (lookup_lt_is_Some_2 dl dd Hlt) as [day0 Hday0].
  unfold schedule_array. cbv zeta.
  match goal with |- context [foldl _ ?a (enumerate dl)] => set (A2 := a) end.
  match goal with A2 := foldl _ ?a pre |- _ => set (A1 := a) in A2 end.
  assert (is_Some (cell A1 (dd + 1) (pp + 1))) as H1.
  { apply dates_stage_cell.
    rewrite empty_table_cell; [by eexists | lia | unfold num_days; lia |].
    unfold num_workplaces in Hpp. lia. }
  assert (cell A2 (dd + 1) (pp + 1) = Some n) as H2.
  { unfold A2. apply foldl_cell_written; [| |done].
    - intros a x Hx Ha.
      destruct (fill_preschedule_step dl x (dd + 1) (pp + 1) a Ha)
        as [E|(d & p & Hd' & Hp' & Hi & Hj & E)]; [by left|].
      right. cbv zeta in E. rewrite E. f_equal.
      destruct x as [[n' day'] workplace']. simpl in *.
      apply (Hsame n' day' workplace' Hx).
      + rewrite Hd'. f_equal. lia.
      + rewrite Hp'. f_equal. lia.
    - exists (n, day, workplace). split; [done|].
      intros a Ha. rewrite Hd, Hp. by apply cell_set_cell_eq. }
  destruct (fill_days_cell v wl dl (dd + 1) (pp + 1) A2) as [_ Hnone];
    [by rewrite H2|].
  cbv zeta in Hnone. rewrite Hnone; [done|].
  intros d w p Hdlt Hwlt Hi Hj.
  assert (d = dd) as -> by lia. assert (p = pp) as -> by lia.
  pose proof (coverage_value _ _ _ _ _ _ _ _ Hs Hday0 Hpp) as Hcov.
  assert (coverage_total (off_roster_slots wl dl pre) dd day0 pp = 0) as Hz.
  { unfold coverage_total, is_preassigned.
    rewrite bool_decide_eq_true_2; [done|].
    apply list_elem_of_omap. exists (n, day, workplace). split; [done|].
    rewrite (bool_decide_eq_false_2 _ Hn), Hd, Hp. done. }
  rewrite Hz in Hcov. unfold workers_on in Hcov.
  assert (v (work w dd pp) ≤ 0); [|lia].
  rewrite <- Hcov.
  apply (Zsum_elem_le _ (v (work w dd pp))).
  - apply Forall_fmap, Forall_forall. intros z Hz'. apply elem_of_range in Hz'.
    by apply (work_values _ _ _ _ _ _ _ Hs Hz' Hlt pp Hpp).
  - apply list_elem_of_fmap. exists w. split; [done|]. by apply elem_of_range.
Qed.

Lemma table_names_the_outsider_witness :
  solved Demo.roster Demo.days Demo.preschedule Demo.config Demo.schedule
  ∧ ("ZUNANJI", Demo.friday, "KRG 2") ∈ Demo.preschedule
  ∧ ("ZUNANJI" ∉ worker_names Demo.roster)
  ∧ cell (schedule_array Demo.roster Demo.days Demo.preschedule Demo.schedule)
         (0 + 1) (1 + 1) = Some "ZUNANJI".
Proof.
  assert (solved Demo.roster Demo.days Demo.preschedule Demo.config
                 Demo.schedule) as Hs
    by (apply decide_solved; vm_compute; reflexivity).
  assert (("ZUNANJI", Demo.friday, "KRG 2") ∈ Demo.preschedule) as Hin
    by (apply (list_elem_of_lookup_2 _ 0%nat); vm_compute; reflexivity).
  assert ("ZUNANJI" ∉ worker_names Demo.roster) as Hn
    by (apply (bool_decide_unpack _); vm_compute; exact I).
  split; [exact Hs|]. split; [exact Hin|]. split; [exact Hn|].
  apply (table_names_the_outsider Demo.roster Demo.days Demo.preschedule
           Demo.config Demo.schedule "ZUNANJI" Demo.friday "KRG 2" 0 1
           Hs Hin Hn eq_refl eq_refl).
  intros n' day' workplace' Hin' _ _.
  assert (forallb (fun x : string * Day * string =>
                     bool_decide (x.1.1 = "ZUNANJI")) Demo.preschedule
          = true) as Hb by (vm_compute; reflexivity).
  rewrite forallb_forall in Hb. apply list_elem_of_In in Hin'.
  apply Hb in Hin'. by apply bool_decide_eq_true in Hin'.
Defined.

(** ** parsing.py: the availability columns *)

Lemma parse_work_date_pair lower e w :
  parse_work_date lower e = Parsed w →
  ∃ d n, w = WList d n ∧ (d, n) ∈ availability_pairs.
Proof.
  unfold parse_work_date, availability_pairs.
  destruct (transform_nan e (Str "Mi je vseeno")) as [| |s]; try discriminate.
  cbv zeta.
  repeat (case_bool_decide; [intros [= <-]; eexists _, _; split; [done|];
                             rewrite !elem_of_cons; auto 10|]).
  discriminate.
Qed.

Lemma parse_work_dates_loop lower l acc r :
  for_parsed l acc (fun entry result =>
    res ← parse_work_date lower entry; mret (result ++ [res])) = Parsed r →
  ∃ ws, r = acc ++ ws
        ∧ Forall2 (fun e w => parse_work_date lower e = Parsed w) l ws.
Proof.
  revert acc. induction l as [|e l IH]; intros acc H; simpl in H.
  - injection H as <-. exists []. by rewrite app_nil_r.
  - destruct (parse_work_date lower e) as [w|] eqn:He; simpl in H;
      [|discriminate].
    apply IH in H as (ws & -> & HF).
    exists (w :: ws). rewrite <- app_assoc. split; [done|]. by constructor.
Qed.

Lemma parse_work_dates_inv lower entries columns r :
  parse_work_dates lower entries columns = Parsed r →
  ∃ first last,
    next (razpolo_indices columns) = Parsed first
    ∧ max_of (razpolo_indices columns) = Parsed last
    ∧ Forall2 (fun e w => parse_work_date lower e = Parsed w)
              (slice entries first (last + 1)) r.
Proof.
  unfold parse_work_dates. intros H.
  destruct (next (razpolo_indices columns)) as [first|] eqn:Hf; [|done].
  destruct (max_of (razpolo_indices columns)) as [last|] eqn:Hl; [|done].
  simpl in H. apply parse_work_dates_loop in H as (ws & -> & HF).
  by exists first, last.
Qed.

(** X23: every pair [parse_work_dates] returns is a two-element list, never
    a tuple, and it is one of [1, 1], [-1, -1], [0, 0], [0, -1] and
    [-1, 0]. *)
Theorem parsed_workdates_are_list_pairs lower entries columns r e :
  parse_work_dates lower entries columns = Parsed r →
  e ∈ r →
  ∃ d n, e = WList d n ∧ (d, n) ∈ availability_pairs.
Proof.
  intros H He. apply parse_work_dates_inv in H as (first & last & _ & _ & HF).
  apply list_elem_of_lookup in He as [k Hk].
  destruct (Forall2_lookup_r _ _ _ _ _ HF Hk) as (x & _ & Hx).
  by eapply parse_work_date_pair.
Qed.

Lemma parsed_workdates_are_list_pairs_witness :
  parse_work_dates Sheet.lower Sheet.entries Sheet.columns
  = Parsed [WList 1 1; WList 0 0; WList 0 (-1); WList (-1) (-1)]
  ∧ ∃ d n, WList 0 (-1) = WList d n ∧ (d, n) ∈ availability_pairs.
Proof.
  assert (parse_work_dates Sheet.lower Sheet.entries Sheet.columns
          = Parsed [WList 1 1; WList 0 0; WList 0 (-1); WList (-1) (-1)])
    as H by (vm_compute; reflexivity).
  split; [exact H|].
  apply (parsed_workdates_are_list_pairs Sheet.lower Sheet.entries
           Sheet.columns _ (WList 0 (-1)) H).
  apply (list_elem_of_lookup_2 _ 2%nat). reflexivity.
Defined.

Lemma elem_of_razpolo_indices columns i :
  i ∈ razpolo_indices columns ↔ availability_column columns i.
Proof.
  unfold razpolo_indices, availability_column.
  rewrite list_elem_of_omap. split.
  - intros ([k s] & Hin & Hs). apply elem_of_enumerate in Hin.
    destruct (String.prefix "Razpolo" s) eqn:Hp; [|done].
    injection Hs as <-. by exists s.
  - intros (s & Hs & Hp). exists (i, s).
    split; [by apply elem_of_enumerate | by rewrite Hp].
Qed.

(** The generator yields the indices in increasing order, so [next] returns
    the smallest one. *)
Lemma next_indices_from (l : list string) (n first : nat) :
  next (omap (fun '(i, s) => if String.prefix "Razpolo" s then Some i
                             else None)
             (zip (seq n (length l)) l)) = Parsed first →
  ∀ k s, l !! k = Some s → String.prefix "Razpolo" s = true →
         (first ≤ n + k)%nat.
Proof.
  revert n. induction l as [|s0 l IH]; intros n H k s Hk Hp; [done|].
  simpl in H. destruct (String.prefix "Razpolo" s0) eqn:Hp0.
  - simpl in H. injection H as <-. lia.
  - destruct k as [|k]; simpl in Hk.
    + injection Hk as ->. congruence.
    + specialize (IH (S n) H k s Hk Hp). lia.
Qed.

Lemma next_elem (l : list nat) (i : nat) : next l = Parsed i → i ∈ l.
Proof. destruct l; [done|]. intros [= <-]. left. Qed.

Lemma foldl_nat_max_ge (l : list nat) (a : nat) :
  (a ≤ foldl Nat.max a l)%nat ∧ ∀ x, x ∈ l → (x ≤ foldl Nat.max a l)%nat.
Proof.
  revert a. induction l as [|y l IH]; intros a; simpl.
  - split; [lia | intros x Hx; inversion Hx].
  - destruct (IH (Nat.max a y)) as [H1 H2]. split; [lia|].
    intros x Hx. apply elem_of_cons in Hx as [->|Hx]; [lia | auto].
Qed.

Lemma foldl_nat_max_in (l : list nat) (a : nat) :
  foldl Nat.max a l = a ∨ foldl Nat.max a l ∈ l.
Proof.
  revert a. induction l as [|y l IH]; intros a; simpl; [by left|].
  destruct (IH (Nat.max a y)) as [H|H].
  - rewrite H. destruct (Nat.max_spec a y) as [[_ ->]|[_ ->]];
      [right; left | by left].
  - right. by right.
Qed.

Lemma max_of_spec (l : list nat) (m : nat) :
  max_of l = Parsed m → m ∈ l ∧ ∀ x, x ∈ l → (x ≤ m)%nat.
Proof.
  destruct l as [|a l]; [done|]. intros [= <-]. split.
  - destruct (foldl_nat_max_in l a) as [->|H]; [left | by right].
  - intros x Hx. destruct (foldl_nat_max_ge l a) as [H1 H2].
    apply elem_of_cons in Hx as [->|Hx]; auto.
Qed.

(** X24: [parse_work_dates] reads the fields from the first to the last
    column whose name starts with "Razpolo", the columns in between included
    whatever their names: the result has one pair per field in that range,
    in order, each the translation of its field. *)
Theorem parse_work_dates_reads_first_to_last_column lower entries columns r :
  parse_work_dates lower entries columns = Parsed r →
  ∃ first last,
    availability_column columns first
    ∧ availability_column columns last
    ∧ (∀ i, availability_column columns i → (first ≤ i ≤ last)%nat)
    ∧ length r = (Nat.min (last + 1) (length entries) - first)%nat
    ∧ ∀ k w, r !! k = Some w →
        ∃ e, entries !! (first + k)%nat = Some e
             ∧ parse_work_date lower e = Parsed w.
Proof.
  intros H.
  apply parse_work_dates_inv in H as (first & last & Hf & Hl & HF).
  exists first, last.
  pose proof (next_elem _ _ Hf) as Hfin.
  apply max_of_spec in Hl as [Hlin Hmax].
  split; [by apply elem_of_razpolo_indices|].
  split; [by apply elem_of_razpolo_indices|].
  split; [|split].
  - intros i Hi. split.
    + destruct Hi as (s & Hs & Hp).
      pose proof (next_indices_from columns 0 first Hf i s Hs Hp). lia.
    + apply Hmax. by apply elem_of_razpolo_indices.
  - apply Forall2_length in HF. rewrite <- HF. unfold slice.
    by rewrite length_drop, length_take.
  - intros k w Hk.
    destruct (Forall2_lookup_r _ _ _ _ _ HF Hk) as (e & He & Hw).
    exists e. split; [|done]. unfold slice in He.
    rewrite lookup_drop in He. by apply lookup_take_Some in He as [He _].
Qed.

Lemma parse_work_dates_reads_first_to_last_column_witness :
  parse_work_dates Sheet.lower Sheet.entries Sheet.columns
  = Parsed [WList 1 1; WList 0 0; WList 0 (-1); WList (-1) (-1)]
  ∧ ∃ first last,
      availability_column Sheet.columns first
      ∧ availability_column Sheet.columns last
      ∧ (∀ i, availability_column Sheet.columns i → (first ≤ i ≤ last)%nat)
      ∧ length [WList 1 1; WList 0 0; WList 0 (-1); WList (-1) (-1)]
        = (Nat.min (last + 1) (length Sheet.entries) - first)%nat.
Proof.
  assert (parse_work_dates Sheet.lower Sheet.entries Sheet.columns
          = Parsed [WList 1 1; WList 0 0; WList 0 (-1); WList (-1) (-1)])
    as H by (vm_compute; reflexivity).
  split; [exact H|].
  destruct (parse_work_dates_reads_first_to_last_column Sheet.lower Sheet.entries
              Sheet.columns _ H) as (first & last & H1 & H2 & H3 & H4 & _).
  exists first, last.
  split; [exact H1|]. split; [exact H2|]. split; [exact H3 | exact H4].
Defined.

(** ** parsing.py: the workplace columns *)

(** The three lists after the loop, as selections from the enumerated
    workplaces, and the fields the loop accepted. *)
Lemma parse_workplaces_loop (row : gmap string field) (l : list string)
    (n : nat) (acc d : wp_dict) :
  for_parsed (zip (seq n (length l)) l) acc
    (fun '(ii, workplace) wp_dict =>
      match row !! workplace with
      | None => Failed (MissingColumn workplace)
      | Some wp_data =>
          let wp_data := transform_nan wp_data (Str "NO") in
          if bool_decide (wp_data = Str "YES") then
            mret {| YES := YES wp_dict ++ [ii]; MAYBE := MAYBE wp_dict;
                    NO := NO wp_dict |}
          else if bool_decide (wp_data = Str "MAYBE") then
            mret {| YES := YES wp_dict; MAYBE := MAYBE wp_dict ++ [ii];
                    NO := NO wp_dict |}
          else if bool_decide (wp_data = Str "NO") then
            mret {| YES := YES wp_dict; MAYBE := MAYBE wp_dict;
                    NO := NO wp_dict ++ [ii] |}
          else Failed (UnknownKey wp_data)
      end) = Parsed d →
  YES d = YES acc
          ++ omap (fun '(ii, workplace) =>
                     if bool_decide (row !! workplace = Some (Str "YES"))
                     then Some ii else None)
                  (zip (seq n (length l)) l)
  ∧ MAYBE d = MAYBE acc
              ++ omap (fun '(ii, workplace) =>
                         if bool_decide (row !! workplace = Some (Str "MAYBE"))
                         then Some ii else None)
                      (zip (seq n (length l)) l)
  ∧ NO d = NO acc
           ++ omap (fun '(ii, workplace) =>
                      if bool_decide (row !! workplace = Some (Str "NO"))
                         || bool_decide (row !! workplace = Some NaN)
                      then Some ii else None)
                   (zip (seq n (length l)) l)
  ∧ Forall (fun workplace =>
              row !! workplace = Some (Str "YES")
              ∨ row !! workplace = Some (Str "MAYBE")
              ∨ row !! workplace = Some (Str "NO")
              ∨ row !! workplace = Some NaN) l.
Proof.
  revert n acc. induction l as [|wp l IH]; intros n acc H.
  - simpl in H. injection H as <-. simpl. by rewrite !app_nil_r.
  - cbn [length seq zip zip_with for_parsed] in H.
    destruct (row !! wp) as [x|] eqn:Hx; [|done]. cbv zeta in H.
    assert (∀ y : field, Some x = Some y ↔ x = y) as Hsome
      by (intros y; split; [by intros [= ->] | by intros ->]).
    cbn [length seq zip zip_with omap list_omap]. rewrite Hx.
    destruct x as [| |s]; cbn [transform_nan] in H.
    + (* an empty field counts as "NO" *)
      rewrite bool_decide_eq_false_2 in H by done.
      rewrite bool_decide_eq_false_2 in H by done.
      rewrite bool_decide_eq_true_2 in H by done. simpl in H.
      apply IH in H as (HY & HM & HN & HF). simpl in HY, HM, HN.
      rewrite !(bool_decide_eq_false_2 (Some NaN = Some (Str _))) by done.
      rewrite (bool_decide_eq_true_2 (Some NaN = Some NaN)) by done.
      simpl. rewrite <- app_assoc in HN.
      split; [done|]. split; [done|]. split; [done|].
      constructor; [auto|done].
    + rewrite !bool_decide_eq_false_2 in H by done. done.
    + destruct (decide (s = "YES")) as [->|HnY].
      { rewrite bool_decide_eq_true_2 in H by done. simpl in H.
        apply IH in H as (HY & HM & HN & HF). simpl in HY, HM, HN.
        rewrite (bool_decide_eq_true_2 (Some (Str "YES") = Some (Str "YES")))
          by done.
        rewrite !(bool_decide_eq_false_2 (Some (Str "YES") = Some _)) by done.
        simpl. rewrite <- app_assoc in HY.
        split; [done|]. split; [done|]. split; [done|].
        constructor; [auto|done]. }
      rewrite (bool_decide_eq_false_2 (Str s = Str "YES")) in H
        by (intros [= ?]; done).
      destruct (decide (s = "MAYBE")) as [->|HnM].
      { rewrite bool_decide_eq_true_2 in H by done. simpl in H.
        apply IH in H as (HY & HM & HN & HF). simpl in HY, HM, HN.
        rewrite (bool_decide_eq_true_2
                   (Some (Str "MAYBE") = Some (Str "MAYBE"))) by done.
        rewrite !(bool_decide_eq_false_2 (Some (Str "MAYBE") = Some _))
          by done.
        simpl. rewrite <- app_assoc in HM.
        split; [done|]. split; [done|]. split; [done|].
        constructor; [auto|done]. }
      rewrite (bool_decide_eq_false_2 (Str s = Str "MAYBE")) in H
        by (intros [= ?]; done).
      destruct (decide (s = "NO")) as [->|HnN].
      { rewrite bool_decide_eq_true_2 in H by done. simpl in H.
        apply IH in H as (HY & HM & HN & HF). simpl in HY, HM, HN.
        rewrite (bool_decide_eq_true_2 (Some (Str "NO") = Some (Str "NO")))
          by done.
        rewrite !(bool_decide_eq_false_2 (Some (Str "NO") = Some _)) by done.
        simpl. rewrite <- app_assoc in HN.
        split; [done|]. split; [done|]. split; [done|].
        constructor; [auto 10|done]. }
      rewrite (bool_decide_eq_false_2 (Str s = Str "NO")) in H
        by (intros [= ?]; done).
      done.
Qed.

Lemma elem_of_selected {A} (P : A → bool) (l : list A) (ii : nat) :
  ii ∈ omap (fun '(i, x) => if P x then Some i else None) (enumerate l)
  ↔ ∃ x, l !! ii = Some x ∧ P x = true.
Proof.
  rewrite list_elem_of_omap. split.
  - intros ([i x] & Hin & Hs). apply elem_of_enumerate in Hin.
    destruct (P x) eqn:HP; [|done]. injection Hs as <-. by exists x.
  - intros (x & Hx & HP). exists (ii, x).
    split; [by apply elem_of_enumerate | by rewrite HP].
Qed.

Lemma parse_workplaces_inv row d :
  parse_workplaces row = Parsed d →
  (∀ ii, ii ∈ YES d
         ↔ ∃ x, wps.STANDARD_WORKPLACES !! ii = Some x
                ∧ row !! x = Some (Str "YES"))
  ∧ (∀ ii, ii ∈ MAYBE d
           ↔ ∃ x, wps.STANDARD_WORKPLACES !! ii = Some x
                  ∧ row !! x = Some (Str "MAYBE"))
  ∧ (∀ ii, ii ∈ NO d
           ↔ ∃ x, wps.STANDARD_WORKPLACES !! ii = Some x
                  ∧ (row !! x = Some (Str "NO") ∨ row !! x = Some NaN))
  ∧ Forall (fun workplace =>
              row !! workplace = Some (Str "YES")
              ∨ row !! workplace = Some (Str "MAYBE")
              ∨ row !! workplace = Some (Str "NO")
              ∨ row !! workplace = Some NaN) wps.STANDARD_WORKPLACES.
Proof.
  intros H. unfold parse_workplaces in H.
  apply (parse_workplaces_loop row wps.STANDARD_WORKPLACES 0) in H
    as (HY & HM & HN & HF).
  cbn [YES MAYBE NO app] in HY, HM, HN.
  pose proof (elem_of_selected
                (fun x => bool_decide (row !! x = Some (Str "YES")))
                wps.STANDARD_WORKPLACES) as EY.
  pose proof (elem_of_selected
                (fun x => bool_decide (row !! x = Some (Str "MAYBE")))
                wps.STANDARD_WORKPLACES) as EM.
  pose proof (elem_of_selected
                (fun x => bool_decide (row !! x = Some (Str "NO"))
                          || bool_decide (row !! x = Some NaN))
                wps.STANDARD_WORKPLACES) as EN.
  unfold enumerate in EY, EM, EN. cbv beta in EY, EM, EN.
  rewrite <- HY in EY. rewrite <- HM in EM. rewrite <- HN in EN.
  split; [|split; [|split]]; [| | |exact HF].
  - intros ii. rewrite EY. apply exist_proper. intros x.
    by rewrite bool_decide_eq_true.
  - intros ii. rewrite EM. apply exist_proper. intros x.
    by rewrite bool_decide_eq_true.
  - intros ii. rewrite EN. apply exist_proper. intros x.
    by rewrite orb_true_iff, !bool_decide_eq_true.
Qed.

Lemma parse_workplaces_bound row d ii :
  parse_workplaces row = Parsed d →
  ii ∈ YES d ∨ ii ∈ MAYBE d ∨ ii ∈ NO d →
  (ii < length wps.STANDARD_WORKPLACES)%nat.
Proof.
  intros H Hin. apply parse_workplaces_inv in H as (HY & HM & HN & _).
  rewrite HY, HM, HN in Hin.
  destruct Hin as [(x & Hx & _)|[(x & Hx & _)|(x & Hx & _)]];
    by apply lookup_lt_Some in Hx.
Qed.

(** X25: when [parse_workplaces] returns, every standard workplace has a
    field "YES", "MAYBE", "NO" or an empty one in the row, and its index is in
    exactly the list the field names, an empty field counting as "NO". *)
Theorem parse_workplaces_sorts_every_standard_workplace row d ii workplace :
  parse_workplaces row = Parsed d →
  wps.STANDARD_WORKPLACES !! ii = Some workplace →
  (ii ∈ YES d ↔ row !! workplace = Some (Str "YES"))
  ∧ (ii ∈ MAYBE d ↔ row !! workplace = Some (Str "MAYBE"))
  ∧ (ii ∈ NO d
     ↔ row !! workplace = Some (Str "NO") ∨ row !! workplace = Some NaN)
  ∧ (ii ∈ YES d ∨ ii ∈ MAYBE d ∨ ii ∈ NO d).
Proof.
  intros H Hii. apply parse_workplaces_inv in H as (HY & HM & HN & HF).
  assert (∀ P : string → Prop,
            (∃ x, wps.STANDARD_WORKPLACES !! ii = Some x ∧ P x)
            ↔ P workplace) as Hex.
  { intros P. split.
    - intros (x & Hx & HP). rewrite Hii in Hx. by injection Hx as <-.
    - intros HP. by exists workplace. }
  assert (ii ∈ YES d ↔ row !! workplace = Some (Str "YES")) as EY
    by (rewrite HY; apply (Hex (fun x => row !! x = Some (Str "YES")))).
  assert (ii ∈ MAYBE d ↔ row !! workplace = Some (Str "MAYBE")) as EM
    by (rewrite HM; apply (Hex (fun x => row !! x = Some (Str "MAYBE")))).
  assert (ii ∈ NO d
          ↔ row !! workplace = Some (Str "NO") ∨ row !! workplace = Some NaN)
    as EN
    by (rewrite HN;
        apply (Hex (fun x => row !! x = Some (Str "NO")
                             ∨ row !! x = Some NaN))).
  split; [exact EY|]. split; [exact EM|]. split; [exact EN|].
  apply list_elem_of_lookup_2 in Hii.
  rewrite Forall_forall in HF. specialize (HF workplace Hii).
  rewrite EY, EM, EN. tauto.
Qed.

Lemma parse_workplaces_sorts_every_standard_workplace_witness :
  parse_workplaces Sheet.workplaces_row = Parsed Sheet.wp
  ∧ wps.STANDARD_WORKPLACES !! 2%nat = Some "KRG 3"
  ∧ (2%nat ∈ NO Sheet.wp
     ↔ Sheet.workplaces_row !! "KRG 3" = Some (Str "NO")
       ∨ Sheet.workplaces_row !! "KRG 3" = Some NaN).
Proof.
  assert (parse_workplaces Sheet.workplaces_row = Parsed Sheet.wp) as H
    by (vm_compute; reflexivity).
  split; [exact H|]. split; [reflexivity|].
  destruct (parse_workplaces_sorts_every_standard_workplace
              Sheet.workplaces_row Sheet.wp 2 "KRG 3" H eq_refl)
    as (_ & _ & HN & _).
  exact HN.
Defined.

(** X26: for the dictionary of a parsed row, [_resolve_workplaces] leaves the
    YES and MAYBE lists and the standard workplaces of the NO list as they
    are, and puts an unconnected workplace on the NO list exactly when the
    worker's quota for it is 0. *)
Theorem resolved_workplaces_of_a_parsed_row row d a b c :
  parse_workplaces row = Parsed d →
  YES (_resolve_workplaces a b c d) = YES d
  ∧ MAYBE (_resolve_workplaces a b c d) = MAYBE d
  ∧ (wps.abdomen_ndx ∈ NO (_resolve_workplaces a b c d) ↔ a = 0)
  ∧ (wps.abd_prip_ndx ∈ NO (_resolve_workplaces a b c d) ↔ b = 0)
  ∧ (wps.travma_ndx ∈ NO (_resolve_workplaces a b c d) ↔ c = 0)
  ∧ (∀ ii, (ii < length wps.STANDARD_WORKPLACES)%nat →
           ii ∈ NO (_resolve_workplaces a b c d) ↔ ii ∈ NO d).
Proof.
  intros H.
  assert (∀ k, k ∈ NO d → (k < 8)%nat) as Hno.
  { intros k Hk. apply (parse_workplaces_bound row d k H). auto. }
  unfold _resolve_workplaces, wps.abdomen_ndx, wps.abd_prip_ndx,
    wps.travma_ndx.
  cbn [YES MAYBE NO]. change (length wps.STANDARD_WORKPLACES) with 8%nat.
  split; [done|]. split; [done|].
  pose proof (Hno 8%nat) as H8. pose proof (Hno 9%nat) as H9.
  pose proof (Hno 10%nat) as H10.
  repeat case_bool_decide;
    rewrite ?elem_of_app, ?list_elem_of_singleton;
    (split; [|split; [|split]]);
    try (intros ii Hii; rewrite ?elem_of_app, ?list_elem_of_singleton);
    clear Hno; intuition lia.
Qed.

Lemma resolved_workplaces_of_a_parsed_row_witness :
  parse_workplaces Sheet.workplaces_row = Parsed Sheet.wp
  ∧ (wps.abdomen_ndx ∈ NO (_resolve_workplaces 0 2 0 Sheet.wp) ↔ 0 = 0)
  ∧ (wps.abd_prip_ndx ∈ NO (_resolve_workplaces 0 2 0 Sheet.wp) ↔ 2 = 0).
Proof.
  assert (parse_workplaces Sheet.workplaces_row = Parsed Sheet.wp) as H
    by (vm_compute; reflexivity).
  split; [exact H|].
  destruct (resolved_workplaces_of_a_parsed_row Sheet.workplaces_row Sheet.wp
              0 2 0 H) as (_ & _ & H1 & H2 & _).
  split; [exact H1 | exact H2].
Defined.

(** X27: a worker built from a parsed row works night shifts exactly when
    the row has "YES" or "MAYBE" under one of the three night workplaces. *)
Theorem parsed_worker_works_night_shifts row d n i sp st wd rs a b c m1 m2 m3 :
  parse_workplaces row = Parsed d →
  works_night_shifts (mk_worker n i sp st d wd rs a b c m1 m2 m3) = true
  ↔ ∃ workplace,
      workplace ∈ ["KRG N - B"; "KRG N - MOP"; "KRG N - ABD"]
      ∧ (row !! workplace = Some (Str "YES")
         ∨ row !! workplace = Some (Str "MAYBE")).
Proof.
  intros H. apply parse_workplaces_inv in H as (HY & HM & _ & _).
  unfold works_night_shifts, mk_worker, _resolve_workplaces.
  cbn [workplaces YES MAYBE]. rewrite existsb_exists. split.
  - intros (x & Hx & Hn). apply list_elem_of_In, elem_of_app in Hx.
    apply bool_decide_eq_true in Hn.
    assert (∃ workplace,
              wps.STANDARD_WORKPLACES !! x = Some workplace
              ∧ (row !! workplace = Some (Str "YES")
                 ∨ row !! workplace = Some (Str "MAYBE")))
      as (workplace & Hw & Hrow).
    { destruct Hx as [Hx|Hx]; [apply HY in Hx | apply HM in Hx];
        destruct Hx as (w & Hw & Hr); exists w; auto. }
    exists workplace. split; [|done].
    unfold wps.range_night_workplaces, wps.range in Hn.
    apply elem_of_seq in Hn.
    destruct x as [|[|[|[|[|[|[|[|x]]]]]]]]; try lia;
      injection Hw as <-; rewrite !elem_of_cons; auto.
  - intros (workplace & Hin & Hrow).
    assert (∃ x, wps.STANDARD_WORKPLACES !! x = Some workplace
                 ∧ x ∈ wps.range_night_workplaces) as (x & Hx & Hn).
    { rewrite !elem_of_cons in Hin.
      destruct Hin as [->|[->|[->|Hin]]];
        [exists 5%nat | exists 6%nat | exists 7%nat
        | by apply elem_of_nil in Hin];
        (split; [reflexivity|]); apply elem_of_seq; simpl; lia. }
    exists x. split.
    + apply list_elem_of_In, elem_of_app.
      destruct Hrow as [Hr|Hr]; [left; apply HY | right; apply HM];
        by exists workplace.
    + by apply bool_decide_eq_true.
Qed.

Lemma parsed_worker_works_night_shifts_witness :
  parse_workplaces Sheet.workplaces_row = Parsed Sheet.wp
  ∧ (works_night_shifts
       (mk_worker "NOVAK" "DA" ("Splošna kirurgija", "Splošna kirurgija")
          "Specialist" Sheet.wp [] 0 0 0 0 None None None) = true
     ↔ ∃ workplace,
         workplace ∈ ["KRG N - B"; "KRG N - MOP"; "KRG N - ABD"]
         ∧ (Sheet.workplaces_row !! workplace = Some (Str "YES")
            ∨ Sheet.workplaces_row !! workplace = Some (Str "MAYBE"))).
Proof.
  assert (parse_workplaces Sheet.workplaces_row = Parsed Sheet.wp) as H
    by (vm_compute; reflexivity).
  split; [exact H|].
  exact (parsed_worker_works_night_shifts Sheet.workplaces_row Sheet.wp "NOVAK"
           "DA" ("Splošna kirurgija", "Splošna kirurgija") "Specialist" [] 0
           0 0 0 None None None H).
Defined.

(** ** workplaces.py: the index of a workplace *)

Lemma lookup_index (l : list string) (x : string) (i : nat) :
  NoDup l → l !! i = Some x → wps.index l x = Some i.
Proof.
  revert i. induction l as [|y l IH]; intros i Hnd Hi; [done|].
  apply NoDup_cons in Hnd as [Hy Hnd]. simpl.
  destruct i as [|i]; simpl in Hi.
  - injection Hi as ->. by rewrite bool_decide_eq_true_2.
  - rewrite bool_decide_eq_false_2.
    + by rewrite (IH i Hnd Hi).
    + intros ->. apply Hy. by eapply list_elem_of_lookup_2.
Qed.

(** X28: [get_ndx] inverts the lookup in [ALL_WORKPLACES]: it returns [i]
    exactly for the name at position [i], and raises for every other
    string. *)
Theorem get_ndx_is_the_position (name : string) (i : nat) :
  wps.get_ndx name = Some i ↔ wps.ALL_WORKPLACES !! i = Some name.
Proof.
  unfold wps.get_ndx. split; [apply index_lookup|].
  apply lookup_index.
  apply (bool_decide_unpack _). vm_compute. exact I.
Qed.
